(** * lunjs: the multi-account login script [scripts/login.js]

    A shallow embedding of the script that logs a list of accounts into
    the Lunes control panel with a headless browser, retries failed
    attempts and reports to Telegram, followed by the properties of its
    retry loop, its outcome classification, its batch loop and its start-up
    validation.

    Everything the script does not define itself (the browser driver, the
    file system, the Telegram endpoint, the process environment, the clock
    and the JSON reader of the engine) is gathered in one record, [Env].
    The statements about control flow hold for an arbitrary one; the
    statements that speak of the texts on a page are also given for a
    small simulated browser, [Sim], which runs the examples as well. *)

From Stdlib Require Import String Ascii List ZArith Lia Bool DecimalString
  DecimalZ.
Import ListNotations.
Open Scope string_scope.
Open Scope Z_scope.

(** ** Strings as the engine sees them *)

Module JsString.

(** Strings are kept as UTF-8 byte sequences.  The script only ever
    searches them for literals and measures their length. *)

Definition is_upper (c : ascii) : bool :=
  let n := nat_of_ascii c in (Nat.leb 65 n && Nat.leb n 90)%bool.

(** Case folding of [/.../i] without the [u] flag: only the 26 ASCII
    letters have a partner, every other byte stands for itself. *)
Definition fold_case (c : ascii) : ascii :=
  if is_upper c then ascii_of_nat (nat_of_ascii c + 32) else c.

Definition eqb_ci (a b : ascii) : bool :=
  Ascii.eqb (fold_case a) (fold_case b).

Fixpoint starts_with (eq : ascii -> ascii -> bool) (p s : string) : bool :=
  match p, s with
  | EmptyString, _ => true
  | String _ _, EmptyString => false
  | String a p', String b s' => (eq a b && starts_with eq p' s')%bool
  end.

Fixpoint occurs (eq : ascii -> ascii -> bool) (p s : string) : bool :=
  (starts_with eq p s ||
   match s with
   | EmptyString => false
   | String _ s' => occurs eq p s'
   end)%bool.

(** [s.includes(p)] *)
Definition includes (s p : string) : bool := occurs Ascii.eqb p s.

(** [/p/i.test(s)] for a pattern [p] without metacharacters. *)
Definition test_ci (p s : string) : bool := occurs eqb_ci p s.

(** [/a|b|c/i.test(s)] for an alternation of such patterns. *)
Definition test_alt_ci (alts : list string) (s : string) : bool :=
  existsb (fun p => test_ci p s) alts.

(** [s.length]: the number of UTF-16 code units.  A continuation byte
    adds nothing, the lead byte of a four-byte sequence stands for a
    surrogate pair. *)
Definition units (c : ascii) : nat :=
  let n := nat_of_ascii c in
  if Nat.ltb n 128 then 1%nat
  else if Nat.ltb n 192 then 0%nat
  else if Nat.ltb n 240 then 1%nat
  else 2%nat.

Fixpoint length (s : string) : nat :=
  match s with
  | EmptyString => 0%nat
  | String c s' => (units c + length s')%nat
  end.

(** A string is truthy when it is not empty. *)
Definition truthy (s : string) : bool :=
  match s with EmptyString => false | _ => true end.

(** [s.replace(/[@.]/g, '_')] *)
Fixpoint replace_at_dot (s : string) : string :=
  match s with
  | EmptyString => EmptyString
  | String c s' =>
      String (if (Ascii.eqb c "@" || Ascii.eqb c ".")%bool then "_"%char else c)
             (replace_at_dot s')
  end.

(** Template-literal rendering of an integer. *)
Definition of_Z (z : Z) : string := NilZero.string_of_int (Z.to_int z).

Definition of_nat (n : nat) : string := NilZero.string_of_uint (Nat.to_uint n).

Definition dq : string := String (ascii_of_nat 34) EmptyString.

Definition quoted (s : string) : string := dq ++ s ++ dq.

End JsString.

(** ** Values read from the configuration *)

(** What [JSON.parse] returns.  An object carries its own properties in
    the order in which the engine enumerates them; a number keeps the text
    it was written with, which the script never inspects. *)
#[warnings="-register-all"]
Inductive JSValue : Type :=
| JNull
| JBool (b : bool)
| JNum (lexeme : string)
| JStr (s : string)
| JArr (items : list JSValue)
| JObj (props : list (string * JSValue)).

Inductive JSType : Type := TObject | TBoolean | TNumber | TString.

(** [typeof v] *)
Definition typeof (v : JSValue) : JSType :=
  match v with
  | JNull => TObject
  | JBool _ => TBoolean
  | JNum _ => TNumber
  | JStr _ => TString
  | JArr _ => TObject
  | JObj _ => TObject
  end.

Definition JSType_eqb (a b : JSType) : bool :=
  match a, b with
  | TObject, TObject | TBoolean, TBoolean
  | TNumber, TNumber | TString, TString => true
  | _, _ => false
  end.

Definition is_null (v : JSValue) : bool :=
  match v with JNull => true | _ => false end.

Fixpoint index_from (n : nat) (items : list JSValue) : list (string * JSValue) :=
  match items with
  | [] => []
  | v :: rest => (JsString.of_nat n, v) :: index_from (S n) rest
  end.

(** [Object.entries(v)] on the values [main] lets through: the properties
    of an object, the index and element pairs of an array.  [main] has
    rejected every other value before the call. *)
Definition Object_entries (v : JSValue) : list (string * JSValue) :=
  match v with
  | JObj props => props
  | JArr items => index_from 0 items
  | _ => []
  end.

(** ** Results *)

(** The object an attempt returns: [{ success, username, message }]. *)
Record Result : Type := mkResult {
  success : bool;
  username : string;
  message : string
}.

(** What [loginWithAccount] returns: [{ ...result, retries }].  Spreading
    [null] would leave only [retries]. *)
Record Outcome : Type := mkOutcome {
  result : option Result;
  retries : Z
}.

(** [r.success] read off an outcome; a missing field is falsy. *)
Definition outcome_success (o : Outcome) : bool :=
  match result o with
  | Some r => success r
  | None => false
  end.

Definition outcome_username (o : Outcome) : option string :=
  option_map username (result o).

(** A thrown [Error]. *)
Record Error : Type := mkError {
  err_name : string;
  err_message : string
}.

Definition new_Error (msg : string) : Error := mkError "Error" msg.

(** [String(e)] *)
Definition Error_toString (e : Error) : string :=
  if JsString.truthy (err_message e)
  then err_name e ++ ": " ++ err_message e
  else err_name e.

(** The argument of [notifyTelegram]. *)
Record Notification : Type := mkNotification {
  ok : bool;
  stage : string;
  msg : string;
  screenshotPath : option string;
  notified_username : string
}.

(** ** The driver interface *)

(** A Playwright selector.  [text_re alts] stands for the selector
    [text=/a|b|c/i], [css_class c] for [.c], [css_class_has c] for the
    attribute selector [class*=c], and [css s] for any other CSS selector,
    kept as written. *)
Inductive selector : Type :=
| text_re (alts : list string)
| css_class (c : string)
| css_class_has (c : string)
| css (s : string).

(** [page.locator(sel)] and [l.first()] *)
Inductive locator : Type :=
| Locator (sel : selector)
| First (l : locator).

(** The awaited calls that leave the script; any of them may reject.
    [telegram] is the body of [notifyTelegram] (token lookup, message and
    photo upload) and [telegram_summary] the body of
    [sendSummaryNotification]; [locator_clear] is
    [evaluate(el => el.value = '')]. *)
Inductive call : Type -> Type :=
| chromium_launch : call unit
| browser_newContext : call unit
| context_newPage : call unit
| page_goto (url : string) (timeout : Z) : call unit
| locator_count (l : locator) : call nat
| locator_isVisible (l : locator) : call bool
| locator_click (l : locator) (timeout : Z) : call unit
| locator_clear (l : locator) : call unit
| locator_fill (l : locator) (value : JSValue) (timeout : Z) : call unit
| locator_waitFor (l : locator) (timeout : Z) : call unit
| locator_innerText (l : locator) : call string
| page_screenshot (path : string) : call unit
| page_waitForTimeout (ms : Z) : call unit
| page_waitForNavigation (timeout : Z) : call unit
| page_waitForLoadState (timeout : Z) : call unit
| page_title : call string
| context_close : call unit
| browser_close : call unit
| telegram (n : Notification) : call unit
| telegram_summary (results : list Outcome) : call unit.

(** The outcome of an awaited call. *)
Inductive res (A : Type) : Type :=
| Ok (a : A)
| Throw (e : Error).

Arguments Ok {A} a.
Arguments Throw {A} e.

(** Everything outside the script, over a state [W] of the outside world.
    [run] answers an awaited call; the remaining fields cannot fail:
    [page.url()], [Date.now()], [fs.existsSync], [process.env], a promise
    resolved by [setTimeout], the same with the random delay between two
    accounts, and [JSON.parse] ([None] for a [SyntaxError]). *)
Record Env (W : Type) : Type := mkEnv {
  run : forall A : Type, call A -> W -> res A * W;
  page_url : W -> string;
  Date_now : W -> Z;
  fs_existsSync : string -> W -> bool;
  process_env : string -> W -> option string;
  setTimeout : Z -> W -> W;
  setTimeout_random : Z -> Z -> W -> W;
  JSON_parse : string -> option JSValue
}.

Arguments run {W} e {A} c w.
Arguments page_url {W} e w.
Arguments Date_now {W} e w.
Arguments fs_existsSync {W} e path w.
Arguments process_env {W} e name w.
Arguments setTimeout {W} e ms w.
Arguments setTimeout_random {W} e lo hi w.
Arguments JSON_parse {W} e text.

(** What a run leaves behind, in order. *)
Inductive entry : Type :=
| Called {A : Type} (c : call A)
| Slept (ms : Z)
| SleptRandom (lo hi : Z).

(** The state threaded through the script: the outside world, the log of
    what was asked of it, and [process.exitCode]. *)
Record State (W : Type) : Type := mkState {
  world : W;
  trace : list entry;
  exitCode : option Z
}.

Arguments mkState {W} world trace exitCode.
Arguments world {W} s.
Arguments trace {W} s.
Arguments exitCode {W} s.

(** ** A monad for state and exceptions

    A computation maps a state to a result or a thrown error, together
    with the state it reached: what was done before a throw stays done. *)

Definition M (W A : Type) : Type := State W -> res A * State W.

Definition ret {W A : Type} (a : A) : M W A := fun s => (Ok a, s).

Definition bind {W A B : Type} (m : M W A) (k : A -> M W B) : M W B :=
  fun s =>
    match m s with
    | (Ok a, s') => k a s'
    | (Throw e, s') => (Throw e, s')
    end.

Definition throw {W A : Type} (e : Error) : M W A := fun s => (Throw e, s).

(** [try { m } catch (e) { h(e) }] *)
Definition try_catch {W A : Type} (m : M W A) (h : Error -> M W A) : M W A :=
  fun s =>
    match m s with
    | (Ok a, s') => (Ok a, s')
    | (Throw e, s') => h e s'
    end.

(** [try { m } finally { f }]: [f] runs on every path, and an error
    thrown by [f] replaces whatever [m] produced. *)
Definition try_finally {W A : Type} (m : M W A) (f : M W unit) : M W A :=
  fun s =>
    let (r, s1) := m s in
    match f s1 with
    | (Ok _, s2) => (r, s2)
    | (Throw e, s2) => (Throw e, s2)
    end.

Declare Scope js_scope.
Delimit Scope js_scope with js.

Notation "x <- m ;; k" := (bind m (fun x => k))
  (at level 100, m at next level, right associativity) : js_scope.
Notation "m ;; k" := (bind m (fun _ => k))
  (at level 100, right associativity) : js_scope.

Open Scope js_scope.

(** ** The script *)

Definition LOGIN_URL : string := "https://ctrl.lunes.host/auth/login".
Definition MAX_RETRIES : Z := 2.
Definition NAVIGATION_TIMEOUT : Z := 60000.
Definition DEFAULT_WAIT_TIME : Z := 5000.

Definition humanCheckSelector : selector :=
  text_re ["Verify you are human"; "需要验证"; "安全检查";
           "review the security"; "Cloudflare"; "Turnstile"].

Definition userInputSelector : selector :=
  css ("input[name=" ++ JsString.quoted "username"
       ++ "], input[type=" ++ JsString.quoted "email"
       ++ "], input[type=" ++ JsString.quoted "text" ++ "]").

Definition passInputSelector : selector :=
  css ("input[name=" ++ JsString.quoted "password"
       ++ "], input[type=" ++ JsString.quoted "password" ++ "]").

Definition loginBtnSelector : selector :=
  css ("button[type=" ++ JsString.quoted "submit"
       ++ "], button:has-text(" ++ JsString.quoted "登录"
       ++ "), button:has-text(" ++ JsString.quoted "Sign in"
       ++ "), button:has-text(" ++ JsString.quoted "Log in" ++ ")").

Definition successSelectors : list selector :=
  [ text_re ["Dashboard"; "控制台"; "面板"; "仪表板"];
    text_re ["Logout"; "Sign out"; "退出"; "登出"];
    text_re ["Welcome"; "欢迎"];
    text_re ["Account"; "账户"; "账号"];
    text_re ["Profile"; "个人资料"] ].

Definition errorSelectors : list selector :=
  [ text_re ["Invalid"; "incorrect"; "错误"; "失败"; "无效"; "不正确"];
    text_re ["Error"; "异常"; "问题"];
    css_class "error-message";
    css_class "alert-error";
    css_class "text-danger";
    css_class_has "error";
    css_class_has "alert";
    css_class_has "danger" ].

(** [/\/auth\/login/i.test(url)] *)
Definition stillOnLogin (url : string) : bool :=
  JsString.test_ci "/auth/login" url.

(** The [screenshot] closure of [attemptLogin]. *)
Definition screenshot (user : string) (index retryCount : Z) (name : string)
  : string :=
  "./" ++ name ++ "-" ++ JsString.of_Z index ++ "-"
       ++ JsString.replace_at_dot user
       ++ (if 0 <? retryCount then "-retry" ++ JsString.of_Z retryCount
           else EmptyString)
       ++ ".png".

Section Script.

Context {W : Type} (env : Env W).

(** *** Leaving the script *)

Definition perform {A : Type} (c : call A) : M W A :=
  fun s =>
    let (r, w) := run env c (world s) in
    (r, mkState w (trace s ++ [Called c]) (exitCode s)).

(** A call that is made at one place and awaited at a later one: the
    call enters the log where it is made, and the outside answers where
    it is awaited. *)
Definition begin_call {A : Type} (c : call A) : M W unit :=
  fun s => (Ok tt, mkState (world s) (trace s ++ [Called c]) (exitCode s)).

Definition await_call {A : Type} (c : call A) : M W A :=
  fun s =>
    let (r, w) := run env c (world s) in
    (r, mkState w (trace s) (exitCode s)).

Definition get_url : M W string :=
  fun s => (Ok (page_url env (world s)), s).

Definition get_now : M W Z :=
  fun s => (Ok (Date_now env (world s)), s).

Definition existsSync (path : string) : M W bool :=
  fun s => (Ok (fs_existsSync env path (world s)), s).

Definition getenv (name : string) : M W (option string) :=
  fun s => (Ok (process_env env name (world s)), s).

Definition sleep (ms : Z) : M W unit :=
  fun s =>
    (Ok tt, mkState (setTimeout env ms (world s))
                    (trace s ++ [Slept ms]) (exitCode s)).

Definition sleep_random (lo hi : Z) : M W unit :=
  fun s =>
    (Ok tt, mkState (setTimeout_random env lo hi (world s))
                    (trace s ++ [SleptRandom lo hi]) (exitCode s)).

Definition set_exitCode (c : Z) : M W unit :=
  fun s => (Ok tt, mkState (world s) (trace s) (Some c)).

(** *** notifyTelegram, sendSummaryNotification, envOrThrow *)

(** The whole body sits in a [try] whose [catch] only logs. *)
Definition notifyTelegram (n : Notification) : M W unit :=
  try_catch (perform (telegram n)) (fun _ => ret tt).

Definition sendSummaryNotification (results : list Outcome) : M W unit :=
  try_catch (perform (telegram_summary results)) (fun _ => ret tt).

(** [!v] holds for a missing variable and for the empty string. *)
Definition envOrThrow (name : string) : M W string :=
  v <- getenv name ;;
  match v with
  | Some (String c rest) => ret (String c rest)
  | _ => throw (new_Error ("环境变量 " ++ name ++ " 未设置"))
  end.

(** *** smartWait *)

(** One pass of the [while] loop per unit of [fuel].  A failing
    [condition] is ignored; [page.waitForTimeout] is outside the inner
    [try]. *)
Fixpoint smartWait_loop (fuel : nat) (condition : M W bool)
         (startTime timeout checkInterval : Z) : M W bool :=
  match fuel with
  | O => ret false
  | S fuel' =>
      now <- get_now ;;
      if now - startTime <? timeout then
        found <- try_catch condition (fun _ => ret false) ;;
        if found then ret true
        else
          perform (page_waitForTimeout checkInterval) ;;
          smartWait_loop fuel' condition startTime timeout checkInterval
      else ret false
  end.

(** Every pass waits [checkInterval] before the clock is read again.  As
    long as the clock does not run backwards and a timer waits at least
    its delay, [timeout / checkInterval + 2] passes reach the deadline
    and more fuel changes nothing (see [smartWait_fuel_enough]); a world
    whose clock stands still, in which the script would wait forever, is
    not what this loop describes. *)
Definition smartWait_fuel (timeout checkInterval : Z) : nat :=
  Z.to_nat (timeout / checkInterval) + 2.

Definition smartWait (condition : M W bool) (timeout checkInterval : Z)
  : M W bool :=
  startTime <- get_now ;;
  smartWait_loop (smartWait_fuel timeout checkInterval) condition
                 startTime timeout checkInterval.

(** *** attemptLogin: the classification after submission *)

(** The [for] loop over [successSelectors], left at the first selector
    that matches something. *)
Fixpoint scan_success (sels : list selector) (successHint : nat) : M W nat :=
  match sels with
  | [] => ret successHint
  | sel :: rest =>
      count <- perform (locator_count (Locator sel)) ;;
      let successHint := (successHint + count)%nat in
      if Nat.ltb 0 count then ret successHint
      else scan_success rest successHint
  end.

(** The [for] loop over [errorSelectors].  [errorMsg] is overwritten at
    every selector that matches and the loop is left once it holds more
    than one character. *)
Fixpoint scan_errors (sels : list selector) (errorMsg : string) : M W string :=
  match sels with
  | [] => ret errorMsg
  | sel :: rest =>
      count <- perform (locator_count (Locator sel)) ;;
      if Nat.ltb 0 count then
        errorMsg <- try_catch
                      (perform (locator_innerText (First (Locator sel))))
                      (fun _ => ret EmptyString) ;;
        if (JsString.truthy errorMsg
            && Nat.ltb 1 (JsString.length errorMsg))%bool
        then ret errorMsg
        else scan_errors rest errorMsg
      else scan_errors rest errorMsg
  end.

(** The fallback when no error text was found. *)
Definition generic_error (errorMsg : string) : M W string :=
  if JsString.truthy errorMsg then ret errorMsg
  else
    pageTitle <- perform page_title ;;
    mainContent <- try_catch
                     (perform (locator_innerText (Locator (css "body"))))
                     (fun _ => ret EmptyString) ;;
    if (JsString.includes pageTitle "Error"
        || JsString.includes mainContent "Error")%bool
    then ret "页面显示错误状态"
    else ret errorMsg.

(** From [const url = page.url()] to the last [return] of the [try]
    block. *)
Definition classify (user spAfter : string) : M W Result :=
  url <- get_url ;;
  successHint <- scan_success successSelectors 0%nat ;;
  if (negb (stillOnLogin url) || Nat.ltb 0 successHint)%bool then
    notifyTelegram
      (mkNotification true "登录结果" ("判断为成功。当前 URL：" ++ url)
                      (Some spAfter) user) ;;
    ret (mkResult true user "登录成功")
  else
    errorMsg <- scan_errors errorSelectors EmptyString ;;
    errorMsg <- generic_error errorMsg ;;
    notifyTelegram
      (mkNotification false "登录结果"
         (if JsString.truthy errorMsg then "登录失败: " ++ errorMsg
          else "登录失败（原因未知）")
         (Some spAfter) user) ;;
    ret (mkResult false user
           (if JsString.truthy errorMsg then errorMsg else "登录失败")).

(** *** attemptLogin *)

Section Attempt.

Variables (user : string) (password : JSValue) (index retryCount : Z).

Definition userInput : locator := First (Locator userInputSelector).
Definition passInput : locator := First (Locator passInputSelector).
Definition loginBtn : locator := First (Locator loginBtnSelector).

(** [await userInput.isVisible() && await passInput.isVisible()] *)
Definition inputs_visible : M W bool :=
  u <- perform (locator_isVisible userInput) ;;
  if u then perform (locator_isVisible passInput) else ret false.

(** The bot-check branch: capture, notify, give up on this attempt. *)
Definition human_check_found : M W Result :=
  let sp := screenshot user index retryCount "01-human-check" in
  perform (page_screenshot sp) ;;
  notifyTelegram
    (mkNotification false "打开登录页"
       "检测到人机验证页面（Cloudflare/Turnstile），自动化已停止。"
       (Some sp) user) ;;
  ret (mkResult false user "人机验证页面").

(** Steps 2 to 4: wait for the form, fill it, submit, let the page
    settle, classify.  [page.waitForNavigation] is called before the
    click and its promise, with a [catch] that only logs, is awaited
    after the click; the rejection of the load-state wait is dropped
    too. *)
Definition fill_and_submit : M W Result :=
  smartWait inputs_visible 30000 1000 ;;
  perform (locator_click userInput 10000) ;;
  perform (locator_clear userInput) ;;
  perform (locator_fill userInput (JStr user) 10000) ;;
  perform (locator_click passInput 10000) ;;
  perform (locator_clear passInput) ;;
  perform (locator_fill passInput password 10000) ;;
  perform (locator_waitFor loginBtn 15000) ;;
  perform (page_screenshot
             (screenshot user index retryCount "02-before-submit")) ;;
  begin_call (page_waitForNavigation NAVIGATION_TIMEOUT) ;;
  perform (locator_click loginBtn 10000) ;;
  try_catch (await_call (page_waitForNavigation NAVIGATION_TIMEOUT))
            (fun _ => ret tt) ;;
  try_catch (perform (page_waitForLoadState 10000)) (fun _ => ret tt) ;;
  perform (page_waitForTimeout 3000) ;;
  let spAfter := screenshot user index retryCount "03-after-submit" in
  perform (page_screenshot spAfter) ;;
  classify user spAfter.

(** The [try] block. *)
Definition attempt_try : M W Result :=
  perform (page_goto LOGIN_URL 60000) ;;
  humanCheck <- perform (locator_count (First (Locator humanCheckSelector))) ;;
  if Nat.ltb 0 humanCheck then human_check_found else fill_and_submit.

(** The [catch] block. *)
Definition attempt_catch (e : Error) : M W Result :=
  let sp := screenshot user index retryCount "99-error" in
  try_catch (perform (page_screenshot sp)) (fun _ => ret tt) ;;
  captured <- existsSync sp ;;
  notifyTelegram
    (mkNotification false "异常"
       (if JsString.truthy (err_message e) then err_message e
        else Error_toString e)
       (if captured then Some sp else None) user) ;;
  ret (mkResult false user ("异常: " ++ err_message e)).

(** The [finally] block. *)
Definition attempt_finally : M W unit :=
  perform context_close ;;
  perform browser_close.

(** The three awaits in front of the [try]. *)
Definition open_session : M W unit :=
  perform chromium_launch ;;
  perform browser_newContext ;;
  perform context_newPage.

Definition attemptLogin : M W Result :=
  open_session ;;
  try_finally (try_catch attempt_try attempt_catch) attempt_finally.

End Attempt.

(** *** loginWithAccount *)

(** [result?.success] *)
Definition result_success (r : option Result) : bool :=
  match r with
  | Some r => success r
  | None => false
  end.

(** The [while] loop, one pass per unit of [fuel]; it hands back the
    two variables it updates. *)
Fixpoint retry_loop (fuel : nat) (user : string) (password : JSValue)
         (index retryCount : Z) (result : option Result)
  : M W (Z * option Result) :=
  match fuel with
  | O => ret (retryCount, result)
  | S fuel' =>
      if ((retryCount <=? MAX_RETRIES) && negb (result_success result))%bool
      then
        (if 0 <? retryCount then sleep 5000 else ret tt) ;;
        r <- attemptLogin user password index retryCount ;;
        retry_loop fuel' user password index (retryCount + 1) (Some r)
      else ret (retryCount, result)
  end.

(** [retryCount] starts at 0 and grows by one per pass, so the
    condition fails after at most [MAX_RETRIES + 1] passes (see
    [retry_loop_fuel_enough]). *)
Definition retry_fuel : nat := Z.to_nat MAX_RETRIES + 2.

Definition loginWithAccount (user : string) (password : JSValue)
           (index : Z) : M W Outcome :=
  st <- retry_loop retry_fuel user password index 0 None ;;
  ret (mkOutcome (snd st) (fst st - 1)).

(** *** main *)

(** From [envOrThrow] to the check that there is at least one entry. *)
Definition load_accounts : M W (list (string * JSValue)) :=
  usernameAndPasswordJson <- envOrThrow "USERNAME_AND_PASSWORD" ;;
  accounts <- match JSON_parse env usernameAndPasswordJson with
              | Some v => ret v
              | None =>
                  throw (new_Error
                    "USERNAME_AND_PASSWORD 格式错误，应为有效的 JSON 字符串")
              end ;;
  if (negb (JSType_eqb (typeof accounts) TObject) || is_null accounts)%bool
  then throw (new_Error "USERNAME_AND_PASSWORD 应为对象格式")
  else
    let accountEntries := Object_entries accounts in
    if Nat.eqb (List.length accountEntries) 0
    then throw (new_Error "未找到有效的账户信息")
    else ret accountEntries.

(** The [for] loop over [accountEntries], from position [i] on;
    [total] is [accountEntries.length]. *)
Fixpoint main_loop (rest : list (string * JSValue)) (i total : Z)
         (results : list Outcome) : M W (list Outcome) :=
  match rest with
  | [] => ret results
  | (user, password) :: rest' =>
      r <- loginWithAccount user password i ;;
      let results := (results ++ [r])%list in
      (if i <? total - 1 then sleep_random 5000 10000 else ret tt) ;;
      main_loop rest' (i + 1) total results
  end.

(** The [try] block of [main] up to the end of the loop. *)
Definition run_batch : M W (list Outcome) :=
  accountEntries <- load_accounts ;;
  main_loop accountEntries 0 (Z.of_nat (List.length accountEntries)) [].

Definition main_try : M W unit :=
  results <- run_batch ;;
  sendSummaryNotification results ;;
  let hasFailure := existsb (fun r => negb (outcome_success r)) results in
  if hasFailure then set_exitCode 1 else set_exitCode 0.

Definition main_catch (e : Error) : M W unit :=
  notifyTelegram
    (mkNotification false "初始化" (err_message e) None "N/A") ;;
  set_exitCode 1.

Definition main : M W unit := try_catch main_try main_catch.

End Script.

(** ** A simulated environment

    A small world to run the script in: a browser that shows one page
    after [goto] and another after the submit button was clicked, a clock
    that only moves while the script waits, and, per environment, a list
    of calls made to reject. *)

Module Sim.

(** An element as the selectors of the script see it. *)
Record Element : Type := mkElement {
  innerText : string;
  className : string
}.

(** A page: address, title, whether the login form controls are there,
    and the elements in document order. *)
Record Page : Type := mkPage {
  doc_url : string;
  doc_title : string;
  doc_form : bool;
  doc_elements : list Element
}.

Definition blank : Page := mkPage "about:blank" EmptyString false [].

(** The pieces of [s] between blanks, [cur] being the piece under way. *)
Fixpoint tokens_from (cur : string) (s : string) : list string :=
  match s with
  | EmptyString => [cur]
  | String c s' =>
      if Ascii.eqb c " " then cur :: tokens_from EmptyString s'
      else tokens_from (cur ++ String c EmptyString) s'
  end.

(** The class list of an element. *)
Definition classList (e : Element) : list string :=
  filter JsString.truthy (tokens_from EmptyString (className e)).

(** A text selector looks at the text of an element, a class selector
    at its class list, an attribute selector at the attribute as
    written. *)
Definition matches (sel : selector) (e : Element) : bool :=
  match sel with
  | text_re alts => JsString.test_alt_ci alts (innerText e)
  | css_class c => existsb (String.eqb c) (classList e)
  | css_class_has c => JsString.includes (className e) c
  | css _ => false
  end.

(** The text of the body: the texts of the elements, one per line. *)
Definition bodyText (p : Page) : string :=
  String.concat (String (ascii_of_nat 10) EmptyString)
                (map innerText (doc_elements p)).

(** The body is one element; any other plain CSS selector of the script
    addresses a form control. *)
Definition select (sel : selector) (p : Page) : list Element :=
  match sel with
  | css s =>
      if String.eqb s "body" then [mkElement (bodyText p) EmptyString]
      else if doc_form p then [mkElement EmptyString EmptyString]
      else []
  | _ => filter (matches sel) (doc_elements p)
  end.

Fixpoint resolve (l : locator) (p : Page) : list Element :=
  match l with
  | Locator sel => select sel p
  | First l' => firstn 1 (resolve l' p)
  end.

Record World : Type := mkWorld {
  current : Page;
  login_page : Page;
  after_submit : Page;
  clock : Z;
  files : list string;
  config : option string
}.

Definition show (p : Page) (w : World) : World :=
  mkWorld p (login_page w) (after_submit w) (clock w) (files w) (config w).

(** Waiting for a negative time is not waiting at all. *)
Definition tick (ms : Z) (w : World) : World :=
  mkWorld (current w) (login_page w) (after_submit w)
          (clock w + Z.max 0 ms) (files w) (config w).

Definition store (path : string) (w : World) : World :=
  mkWorld (current w) (login_page w) (after_submit w) (clock w)
          (path :: files w) (config w).

Definition is_submit (l : locator) : bool :=
  match l, loginBtnSelector with
  | First (Locator (css s)), css t => String.eqb s t
  | _, _ => false
  end.

Definition TimeoutError : Error :=
  mkError "TimeoutError" "Timeout exceeded".

(** An action on an element needs the element. *)
Definition act (l : locator) (w : World) : res unit * World :=
  match resolve l (current w) with
  | [] => (Throw TimeoutError, w)
  | _ => (Ok tt, w)
  end.

Definition answer {A : Type} (c : call A) (w : World) : res A * World :=
  match c in call T return res T * World with
  | chromium_launch => (Ok tt, show blank w)
  | browser_newContext => (Ok tt, w)
  | context_newPage => (Ok tt, w)
  | page_goto _ _ => (Ok tt, show (login_page w) w)
  | locator_count l => (Ok (List.length (resolve l (current w))), w)
  | locator_isVisible l =>
      (Ok (Nat.ltb 0 (List.length (resolve l (current w)))), w)
  | locator_click l _ =>
      match resolve l (current w) with
      | [] => (Throw TimeoutError, w)
      | _ => (Ok tt, if is_submit l then show (after_submit w) w else w)
      end
  | locator_clear l => act l w
  | locator_fill l _ _ => act l w
  | locator_waitFor l _ => act l w
  | locator_innerText l =>
      match resolve l (current w) with
      | [e] => (Ok (innerText e), w)
      | [] => (Throw TimeoutError, w)
      | _ => (Throw (new_Error "strict mode violation"), w)
      end
  | page_screenshot path => (Ok tt, store path w)
  | page_waitForTimeout ms => (Ok tt, tick ms w)
  | page_waitForNavigation _ => (Ok tt, w)
  | page_waitForLoadState _ => (Ok tt, w)
  | page_title => (Ok (doc_title (current w)), w)
  | context_close => (Ok tt, w)
  | browser_close => (Ok tt, w)
  | telegram _ => (Ok tt, w)
  | telegram_summary _ => (Ok tt, w)
  end.

(** The calls an environment makes reject, with their errors. *)
Definition Faults : Type := forall A : Type, call A -> option Error.

Definition reliable : Faults := fun _ _ => None.

(** A call on the reject list fails where it stands. *)
Definition run (faults : Faults) {A : Type} (c : call A) (w : World)
  : res A * World :=
  match faults A c with
  | Some e => (Throw e, w)
  | None => answer c w
  end.

(** *** A reader for JSON texts

    [read] follows the JSON grammar and gives the value as it is
    written, the members of an object in the order of the text.
    [created] turns it into the value [JSON.parse] creates: a member
    whose name is there already redefines that property where it stands,
    and the properties are held in the order in which [Object.entries]
    lists them, the names that are array indices first, in ascending
    order, then the other names in the order of their creation. *)

Definition is_ws (c : ascii) : bool :=
  let n := nat_of_ascii c in
  (Nat.eqb n 32 || Nat.eqb n 9 || Nat.eqb n 10 || Nat.eqb n 13)%bool.

Definition is_digit (c : ascii) : bool :=
  let n := nat_of_ascii c in (Nat.leb 48 n && Nat.leb n 57)%bool.

Fixpoint skip_ws (s : string) : string :=
  match s with
  | String c s' => if is_ws c then skip_ws s' else s
  | EmptyString => s
  end.

Definition hex_value (c : ascii) : option N :=
  let n := nat_of_ascii c in
  if (Nat.leb 48 n && Nat.leb n 57)%bool then Some (N.of_nat (n - 48))
  else if (Nat.leb 65 n && Nat.leb n 70)%bool then Some (N.of_nat (n - 55))
  else if (Nat.leb 97 n && Nat.leb n 102)%bool then Some (N.of_nat (n - 87))
  else None.

(** The code unit of [\uXXXX]. *)
Definition hex4 (a b c d : ascii) : option N :=
  match hex_value a, hex_value b, hex_value c, hex_value d with
  | Some x, Some y, Some z, Some t => Some (((x * 16 + y) * 16 + z) * 16 + t)%N
  | _, _, _, _ => None
  end.

Definition byte (n : N) : string := String (ascii_of_N n) EmptyString.

(** The bytes of a code point; a surrogate on its own is written like
    any other code unit, in three bytes. *)
Definition utf8 (cp : N) : string :=
  (if cp <? 128 then byte cp
   else if cp <? 2048 then byte (192 + cp / 64) ++ byte (128 + cp mod 64)
   else if cp <? 65536 then
     byte (224 + cp / 4096) ++ byte (128 + (cp / 64) mod 64)
       ++ byte (128 + cp mod 64)
   else
     byte (240 + cp / 262144) ++ byte (128 + (cp / 4096) mod 64)
       ++ byte (128 + (cp / 64) mod 64) ++ byte (128 + cp mod 64))%N.

Definition is_high (u : N) : bool := ((55296 <=? u) && (u <=? 56319))%N.
Definition is_low (u : N) : bool := ((56320 <=? u) && (u <=? 57343))%N.

(** The code point of a surrogate pair. *)
Definition pair_up (h l : N) : N :=
  (65536 + (h - 55296) * 1024 + (l - 56320))%N.

(** A high surrogate still waiting for its other half. *)
Definition flush (high : option N) : string :=
  match high with
  | Some h => utf8 h
  | None => EmptyString
  end.

Definition simple_escape (e : ascii) : option ascii :=
  let n := nat_of_ascii e in
  if (Nat.eqb n 34 || Nat.eqb n 92 || Nat.eqb n 47)%bool then Some e
  else if Nat.eqb n 98 then Some (ascii_of_nat 8)
  else if Nat.eqb n 102 then Some (ascii_of_nat 12)
  else if Nat.eqb n 110 then Some (ascii_of_nat 10)
  else if Nat.eqb n 114 then Some (ascii_of_nat 13)
  else if Nat.eqb n 116 then Some (ascii_of_nat 9)
  else None.

(** The characters of a string up to its closing quote. *)
Fixpoint read_chars (s acc : string) (high : option N)
  : option (string * string) :=
  match s with
  | EmptyString => None
  | String c s' =>
      let n := nat_of_ascii c in
      if Nat.eqb n 34 then Some (acc ++ flush high, s')
      else if Nat.ltb n 32 then None
      else if Nat.eqb n 92 then
        match s' with
        | EmptyString => None
        | String e s2 =>
            match simple_escape e with
            | Some ch =>
                read_chars s2 (acc ++ flush high ++ String ch EmptyString) None
            | None =>
                if Nat.eqb (nat_of_ascii e) 117 then
                  match s2 with
                  | String h1 (String h2 (String h3 (String h4 s3))) =>
                      match hex4 h1 h2 h3 h4 with
                      | Some u =>
                          if is_high u then
                            read_chars s3 (acc ++ flush high) (Some u)
                          else if is_low u then
                            match high with
                            | Some h =>
                                read_chars s3 (acc ++ utf8 (pair_up h u)) None
                            | None => read_chars s3 (acc ++ utf8 u) None
                            end
                          else read_chars s3 (acc ++ flush high ++ utf8 u) None
                      | None => None
                      end
                  | _ => None
                  end
                else None
            end
        end
      else read_chars s' (acc ++ flush high ++ String c EmptyString) None
  end.

Fixpoint read_digits (s acc : string) : string * string :=
  match s with
  | String c s' =>
      if is_digit c then read_digits s' (acc ++ String c EmptyString)
      else (acc, s)
  | EmptyString => (acc, s)
  end.

(** [.digits], if there is a point. *)
Definition read_fraction (s : string) : option (string * string) :=
  match s with
  | String "." s' =>
      match read_digits s' EmptyString with
      | (EmptyString, _) => None
      | (ds, rest) => Some ("." ++ ds, rest)
      end
  | _ => Some (EmptyString, s)
  end.

(** [e], a sign and digits, if there is an [e]. *)
Definition read_exponent (s : string) : option (string * string) :=
  match s with
  | String c s' =>
      if (Ascii.eqb c "e" || Ascii.eqb c "E")%bool then
        let (sign, s1) :=
          match s' with
          | String "+" r => ("+", r)
          | String "-" r => ("-", r)
          | _ => (EmptyString, s')
          end in
        match read_digits s1 EmptyString with
        | (EmptyString, _) => None
        | (ds, rest) => Some (String c EmptyString ++ sign ++ ds, rest)
        end
      else Some (EmptyString, s)
  | EmptyString => Some (EmptyString, s)
  end.

Definition read_number (s : string) : option (JSValue * string) :=
  let (sign, s1) :=
    match s with
    | String "-" s' => ("-", s')
    | _ => (EmptyString, s)
    end in
  match read_digits s1 EmptyString with
  | (EmptyString, _) => None
  | (String "0" (String _ _), _) => None
  | (ds, rest) =>
      match read_fraction rest with
      | Some (frac, rest1) =>
          match read_exponent rest1 with
          | Some (ex, rest2) => Some (JNum (sign ++ ds ++ frac ++ ex), rest2)
          | None => None
          end
      | None => None
      end
  end.

Definition read_word (word : string) (v : JSValue) (s : string)
  : option (JSValue * string) :=
  if JsString.starts_with Ascii.eqb word s
  then Some (v, substring (String.length word)
                          (String.length s - String.length word) s)
  else None.

Fixpoint read_value (fuel : nat) (s : string) : option (JSValue * string) :=
  match fuel with
  | O => None
  | S fuel' =>
      match skip_ws s with
      | EmptyString => None
      | String c rest =>
          match c with
          | "["%char =>
              match skip_ws rest with
              | String "]" r => Some (JArr [], r)
              | _ => read_items fuel' rest []
              end
          | "{"%char =>
              match skip_ws rest with
              | String "}" r => Some (JObj [], r)
              | _ => read_members fuel' rest []
              end
          | "n"%char => read_word "null" JNull (String c rest)
          | "t"%char => read_word "true" (JBool true) (String c rest)
          | "f"%char => read_word "false" (JBool false) (String c rest)
          | _ =>
              if Nat.eqb (nat_of_ascii c) 34 then
                match read_chars rest EmptyString None with
                | Some (t, r) => Some (JStr t, r)
                | None => None
                end
              else read_number (String c rest)
          end
      end
  end
with read_items (fuel : nat) (s : string) (acc : list JSValue)
  : option (JSValue * string) :=
  match fuel with
  | O => None
  | S fuel' =>
      match read_value fuel' s with
      | Some (v, r) =>
          match skip_ws r with
          | String "," r' => read_items fuel' r' (v :: acc)
          | String "]" r' => Some (JArr (rev (v :: acc)), r')
          | _ => None
          end
      | None => None
      end
  end
with read_members (fuel : nat) (s : string) (acc : list (string * JSValue))
  : option (JSValue * string) :=
  match fuel with
  | O => None
  | S fuel' =>
      match skip_ws s with
      | String q r =>
          if Nat.eqb (nat_of_ascii q) 34 then
            match read_chars r EmptyString None with
            | Some (k, r1) =>
                match skip_ws r1 with
                | String ":" r2 =>
                    match read_value fuel' r2 with
                    | Some (v, r3) =>
                        match skip_ws r3 with
                        | String "," r4 => read_members fuel' r4 ((k, v) :: acc)
                        | String "}" r4 => Some (JObj (rev ((k, v) :: acc)), r4)
                        | _ => None
                        end
                    | None => None
                    end
                | _ => None
                end
            | None => None
            end
          else None
      | EmptyString => None
      end
  end.

(** The value as it is written. *)
Definition read (text : string) : option JSValue :=
  match read_value (2 * String.length text + 2) text with
  | Some (v, rest) =>
      match skip_ws rest with
      | EmptyString => Some v
      | _ => None
      end
  | None => None
  end.

(** The names of the members of an object, in the order of the text. *)
Definition names_as_written (text : string) : list string :=
  match read text with
  | Some (JObj members) => map fst members
  | _ => []
  end.

Fixpoint digits_value (s : string) (acc : N) : option N :=
  match s with
  | EmptyString => Some acc
  | String c s' =>
      if is_digit c
      then digits_value s' (acc * 10 + N.of_nat (nat_of_ascii c - 48))%N
      else None
  end.

(** A name is an array index when it is the decimal writing of a number
    up to 2^32 - 2. *)
Definition array_index (name : string) : option N :=
  match name with
  | EmptyString => None
  | String "0" (String _ _) => None
  | _ =>
      match digits_value name 0 with
      | Some i => if (i <=? 4294967294)%N then Some i else None
      | None => None
      end
  end.

(** Defining a property: a new name goes to the end, a known one keeps
    its place and takes the new value. *)
Fixpoint set_property (name : string) (v : JSValue)
         (props : list (string * JSValue)) : list (string * JSValue) :=
  match props with
  | [] => [(name, v)]
  | (k, x) :: rest =>
      if String.eqb k name then (k, v) :: rest
      else (k, x) :: set_property name v rest
  end.

Definition own_properties (members : list (string * JSValue))
  : list (string * JSValue) :=
  fold_left (fun props m => set_property (fst m) (snd m) props) members [].

Fixpoint insert_index (i : N) (p : string * JSValue)
         (l : list (N * (string * JSValue))) : list (N * (string * JSValue)) :=
  match l with
  | [] => [(i, p)]
  | (j, q) :: rest =>
      if (i <? j)%N then (i, p) :: l else (j, q) :: insert_index i p rest
  end.

Definition is_named (p : string * JSValue) : bool :=
  match array_index (fst p) with
  | Some _ => false
  | None => true
  end.

(** The order of [Object.entries]. *)
Definition enumerate (members : list (string * JSValue))
  : list (string * JSValue) :=
  let props := own_properties members in
  (map snd
       (fold_right (fun p sorted =>
                      match array_index (fst p) with
                      | Some i => insert_index i p sorted
                      | None => sorted
                      end) [] props)
     ++ filter is_named props)%list.

(** The value [JSON.parse] creates from what is written. *)
Fixpoint created (v : JSValue) : JSValue :=
  match v with
  | JArr items => JArr (map created items)
  | JObj members =>
      JObj (enumerate
              (map (fun m : string * JSValue =>
                      match m with (k, x) => (k, created x) end)
                   members))
  | _ => v
  end.

Definition parse (text : string) : option JSValue :=
  option_map created (read text).

(** *** The environment *)

Definition env (faults : Faults) : Env World :=
  mkEnv World
    (fun A c w => run faults c w)
    (fun w => doc_url (current w))
    clock
    (fun path w => existsb (String.eqb path) (files w))
    (fun name w =>
       if String.eqb name "USERNAME_AND_PASSWORD" then config w else None)
    tick
    (fun lo _ w => tick lo w)
    parse.

(** A fresh process: nothing logged, no exit code set. *)
Definition boot (login after : Page) (cfg : option string) : State World :=
  mkState (mkWorld blank login after 0 [] cfg) [] None.

End Sim.

(** ** Pages, configurations and faults for the examples *)

Module Examples.

Import Sim.

Definition account : string := "a@b.c".
Definition secret : JSValue := JStr "pw".

(** One account under its address. *)
Definition one_account : string :=
  "{" ++ JsString.quoted "a@b.c" ++ ": " ++ JsString.quoted "pw" ++ "}".

Definition empty_array : string := "[]".

Definition array_of_one : string := "[" ++ JsString.quoted "x" ++ "]".

Definition login_form : Page :=
  mkPage LOGIN_URL "Login" true [mkElement "Sign in" "btn"].

Definition dashboard : Page :=
  mkPage "https://ctrl.lunes.host/" "Lunes" false [mkElement "Dashboard" "nav"].

(** A page at another address that shows none of the success phrases. *)
Definition plain : Page :=
  mkPage "https://ctrl.lunes.host/" "Lunes" false [mkElement "Servers" "nav"].

Definition challenge : Page :=
  mkPage LOGIN_URL "Just a moment" false
         [mkElement "Verify you are human" "cf"].

(** Still at the login address, with a greeting. *)
Definition greeting : Page :=
  mkPage LOGIN_URL "Login" true [mkElement "Welcome back" "banner"].

(** The same texts at the same address, dressed differently. *)
Definition greeting_restyled : Page :=
  mkPage LOGIN_URL "Anmeldung" false [mkElement "Welcome back" "hero"].

(** Still at the login address, with a complaint. *)
Definition refusal : Page :=
  mkPage LOGIN_URL "Login" true
         [mkElement "Sign in" "btn"; mkElement "Invalid credentials" "alert"].

(** A login that works. *)
Definition normal_start : State World :=
  boot login_form dashboard (Some one_account).

(** The site answers with its bot check. *)
Definition challenged_start : State World :=
  boot challenge dashboard (Some one_account).

Definition unset_start : State World := boot login_form dashboard None.

Definition empty_array_start : State World :=
  boot login_form dashboard (Some empty_array).

Definition array_start : State World :=
  boot login_form dashboard (Some array_of_one).

(** A state in which the page [p] is on display. *)
Definition showing (p : Page) : State World :=
  mkState (show p (world normal_start)) [] None.

(** The browser cannot be started. *)
Definition no_browser : Faults :=
  fun A c =>
    match c with
    | chromium_launch => Some (new_Error "browserType.launch: no executable")
    | _ => None
    end.

(** The browsing context cannot be closed. *)
Definition stuck_close : Faults :=
  fun A c =>
    match c with
    | context_close => Some (new_Error "context.close: target closed")
    | _ => None
    end.

(** The login page cannot be reached. *)
Definition offline : Faults :=
  fun A c =>
    match c with
    | page_goto _ _ => Some (new_Error "page.goto: net::ERR_NAME_NOT_RESOLVED")
    | _ => None
    end.

(** The timer of the page is gone. *)
Definition frozen_timer : Faults :=
  fun A c =>
    match c with
    | page_waitForTimeout _ =>
        Some (new_Error "page.waitForTimeout: target closed")
    | _ => None
    end.

(** The second account under a name that is an array index. *)
Definition index_named : string :=
  "{" ++ JsString.quoted "b@x.y" ++ ": " ++ JsString.quoted "pw" ++ ", "
      ++ JsString.quoted "1" ++ ": " ++ JsString.quoted "pw" ++ "}".

Definition index_named_start : State World :=
  boot login_form dashboard (Some index_named).

(** Two accounts. *)
Definition two_accounts : string :=
  "{" ++ JsString.quoted "a@b.c" ++ ": " ++ JsString.quoted "pw" ++ ", "
      ++ JsString.quoted "d@e.f" ++ ": " ++ JsString.quoted "pw" ++ "}".

Definition two_accounts_start : State World :=
  boot login_form dashboard (Some two_accounts).

(** Still at the login address, with two complaints. *)
Definition two_complaints : Page :=
  mkPage LOGIN_URL "Login" true
         [mkElement "Sign in" "btn"; mkElement "登录失败" "msg";
          mkElement "Invalid credentials" "alert"].

(** Still at the login address, nothing said, an error in the title. *)
Definition server_error : Page :=
  mkPage LOGIN_URL "Error 502" true [mkElement "Sign in" "btn"].

(** Still at the login address, with a complaint of one character. *)
Definition terse : Page :=
  mkPage LOGIN_URL "Login" true
         [mkElement "Sign in" "btn"; mkElement "!" "alert-box"].

End Examples.

(** ** The vocabulary of the statements *)

Section Computations.

Context {W : Type}.

(** [s'] continues the log of [s] with entries that all pass [P]. *)
Definition extends (P : entry -> bool) (s s' : State W) : Prop :=
  exists added, trace s' = (trace s ++ added)%list /\ forallb P added = true.

(** Every run of [m] only adds entries that pass [P]. *)
Definition only {A : Type} (P : entry -> bool) (m : M W A) : Prop :=
  forall s, extends P s (snd (m s)).

(** Whenever [m] returns, the value satisfies [Q]. *)
Definition returns {A : Type} (Q : A -> Prop) (m : M W A) : Prop :=
  forall s a s', m s = (Ok a, s') -> Q a.

(** [m] returns in every state: it neither throws nor stops short. *)
Definition total {A : Type} (m : M W A) : Prop :=
  forall s, exists a s', m s = (Ok a, s').

End Computations.

(** Steps 2 and 3 of an attempt: everything done to the login form, from
    waiting for its fields to waiting for the page to settle after the
    click. *)
Definition is_form_stage (e : entry) : bool :=
  match e with
  | Called c =>
      match c with
      | locator_isVisible _ | locator_click _ _ | locator_clear _
      | locator_fill _ _ _ | locator_waitFor _ _
      | page_waitForNavigation _ | page_waitForLoadState _
      | page_waitForTimeout _ => true
      | _ => false
      end
  | _ => false
  end.

(** An entry that belongs to another part of the attempt. *)
Definition no_form_stage (e : entry) : bool := negb (is_form_stage e).

(** An attempt starts with [chromium.launch]. *)
Definition is_launch (e : entry) : bool :=
  match e with
  | Called c => match c with chromium_launch => true | _ => false end
  | _ => false
  end.

(** The number of attempts a log records. *)
Definition attempts (t : list entry) : nat := List.length (filter is_launch t).

(** A call to the browser driver, as opposed to Telegram or a timer. *)
Definition is_driver_call (e : entry) : bool :=
  match e with
  | Called c =>
      match c with
      | telegram _ | telegram_summary _ => false
      | _ => true
      end
  | _ => false
  end.

(** What the bot-check branch and the [catch] block can return. *)
Definition gave_up (user : string) (r : Result) : Prop :=
  success r = false /\ username r = user /\
  (message r = "人机验证页面" \/
   exists e, message r = "异常: " ++ err_message e).

(** The selectors a scan consults: up to the first one with a match. *)
Fixpoint scanned (n : selector -> nat) (sels : list selector)
  : list selector :=
  match sels with
  | [] => []
  | sel :: rest => sel :: (if Nat.ltb 0 (n sel) then [] else scanned n rest)
  end.

(** The entry a count of the matches of [sel] leaves in the log. *)
Definition count_entry (sel : selector) : entry :=
  Called (locator_count (Locator sel)).

(** What the script decides from the address and the counts. *)
Definition verdict (url : string) (n : selector -> nat) : bool :=
  (negb (stillOnLogin url)
   || existsb (fun sel => Nat.ltb 0 (n sel)) successSelectors)%bool.

(** A text the error scan does not settle for: none (the read failed)
    or at most one character. *)
Definition weak (r : res string) : Prop :=
  match r with
  | Ok x => (JsString.length x <= 1)%nat
  | Throw _ => True
  end.

Section Conditions.

Context {W : Type} (env : Env W).

(** The try block has reached the bot check and the check has matched. *)
Definition detects_bot_check (s : State W) : Prop :=
  exists s1 n s2,
    perform env (page_goto LOGIN_URL 60000) s = (Ok tt, s1) /\
    perform env (locator_count (First (Locator humanCheckSelector))) s1
      = (Ok n, s2) /\
    (0 < n)%nat.

(** An attempt started in [s0] opens its session and then detects the
    bot check. *)
Definition attempt_detects_bot_check (s0 : State W) : Prop :=
  exists s, open_session env s0 = (Ok tt, s) /\ detects_bot_check s.

(** The account meets the bot check on each of its next [visits]
    attempts, the first of them numbered [retryCount] and started in
    [s]: before an attempt that is a retry the loop sleeps, then the
    attempt opens its session and detects the bot check, and the next
    visit starts where the attempt ended. *)
Fixpoint meets_bot_check (user : string) (password : JSValue) (index : Z)
         (visits : nat) (retryCount : Z) (s : State W) : Prop :=
  match visits with
  | O => True
  | S visits' =>
      let s1 := if 0 <? retryCount then snd (sleep env 5000 s) else s in
      attempt_detects_bot_check s1 /\
      meets_bot_check user password index visits' (retryCount + 1)
        (snd (attemptLogin env user password index retryCount s1))
  end.

(** The five awaited calls outside the [try] block never reject. *)
Definition session_calls_succeed : Prop :=
  forall w,
    fst (run env chromium_launch w) = Ok tt /\
    fst (run env browser_newContext w) = Ok tt /\
    fst (run env context_newPage w) = Ok tt /\
    fst (run env context_close w) = Ok tt /\
    fst (run env browser_close w) = Ok tt.

(** The configuration values the validation turns down: the variable is
    not set, its text is no JSON, it parses to [null], to something that
    is no object, or to an object without entries. *)
Inductive rejected_config (w : W) : Prop :=
| config_absent :
    process_env env "USERNAME_AND_PASSWORD" w = None ->
    rejected_config w
| config_not_json v :
    process_env env "USERNAME_AND_PASSWORD" w = Some v ->
    JSON_parse env v = None ->
    rejected_config w
| config_null v :
    process_env env "USERNAME_AND_PASSWORD" w = Some v ->
    JSON_parse env v = Some JNull ->
    rejected_config w
| config_not_object v a :
    process_env env "USERNAME_AND_PASSWORD" w = Some v ->
    JSON_parse env v = Some a ->
    typeof a <> TObject ->
    rejected_config w
| config_no_entries v a :
    process_env env "USERNAME_AND_PASSWORD" w = Some v ->
    JSON_parse env v = Some a ->
    typeof a = TObject ->
    Object_entries a = [] ->
    rejected_config w.

(** In the world [w] the page is settled: counting the matches of a
    selector answers [n] and changes nothing. *)
Definition counts (w : W) (n : selector -> nat) : Prop :=
  forall sel, run env (locator_count (Locator sel)) w = (Ok (n sel), w).

(** Likewise for the text of the first match of a selector. *)
Definition first_texts (w : W) (t : selector -> res string) : Prop :=
  forall sel,
    run env (locator_innerText (First (Locator sel))) w = (t sel, w).

(** The clock never runs backwards over an awaited call. *)
Definition clock_monotone : Prop :=
  forall (A : Type) (c : call A) w,
    Date_now env w <= Date_now env (snd (run env c w)).

(** [page.waitForTimeout(ms)] resolves no earlier than [ms] later. *)
Definition timer_waits : Prop :=
  forall ms w w',
    run env (page_waitForTimeout ms) w = (Ok tt, w') ->
    Date_now env w + ms <= Date_now env w'.

(** The clock does not run backwards over [m]. *)
Definition keeps_time {A : Type} (m : M W A) : Prop :=
  forall s, Date_now env (world s) <= Date_now env (world (snd (m s))).

End Conditions.

(** The simulated environment in which no call rejects. *)
Definition calm : Env Sim.World := Sim.env Sim.reliable.

(** The number of elements of the current page a selector matches. *)
Definition matched (w : Sim.World) (sel : selector) : nat :=
  List.length (Sim.select sel (Sim.current w)).

(** What reading the text of the first match answers. *)
Definition first_text (w : Sim.World) (sel : selector) : res string :=
  fst (Sim.run Sim.reliable (locator_innerText (First (Locator sel))) w).

(** The texts of the current page, in document order. *)
Definition page_texts (w : Sim.World) : list string :=
  map Sim.innerText (Sim.doc_elements (Sim.current w)).

(** ** The two notifiers from the inside

    In the script above [notifyTelegram] and [sendSummaryNotification]
    are one awaited call each.  Here are their bodies: the lookup of the
    two credentials, the text, and the requests handed to [fetch]. *)

Module Telegram.

(** What is posted: the JSON body of [sendMessage], made of [chat_id],
    [text] and the constant [disable_web_page_preview], or the form of
    [sendPhoto], made of [chat_id], [caption] and the bytes of the
    image. *)
Inductive payload : Type :=
| json_body (chat_id text : string)
| form_body (chat_id caption image : string).

(** One call of [fetch]: the address and what is posted to it. *)
Record request : Type := mkRequest {
  address : string;
  posted : payload
}.

(** What the notifiers reach for: [process.env], [fetch], which may
    reject, [fs.existsSync], [fs.readFileSync], which may throw, and
    [new Date().toISOString()]. *)
Record Host (V : Type) : Type := mkHost {
  variable : string -> V -> option string;
  fetch : request -> V -> res unit * V;
  existsSync : string -> V -> bool;
  readFileSync : string -> V -> res string;
  toISOString : V -> string
}.

Arguments variable {V} h name v.
Arguments fetch {V} h r v.
Arguments existsSync {V} h path v.
Arguments readFileSync {V} h path v.
Arguments toISOString {V} h v.

(** The outside of a notifier and the requests made so far. *)
Record Wire (V : Type) : Type := mkWire {
  outside : V;
  sent : list request
}.

Arguments mkWire {V} outside sent.
Arguments outside {V} w.
Arguments sent {V} w.

Definition newline : string := String (ascii_of_nat 10) EmptyString.

(** [!v] for a variable of the environment. *)
Definition unset (v : option string) : bool :=
  match v with
  | Some x => negb (JsString.truthy x)
  | None => true
  end.

Definition value (v : option string) : string :=
  match v with
  | Some x => x
  | None => EmptyString
  end.

Definition api (token method : string) : string :=
  "https://api.telegram.org/bot" ++ token ++ "/" ++ method.

(** The text of [notifyTelegram]: four lines, the empty ones dropped. *)
Definition notification_text (n : Notification) (iso : string) : string :=
  String.concat newline
    (filter JsString.truthy
       [ "🔔 Lunes 自动登录"
           ++ (if JsString.truthy (notified_username n)
               then " (" ++ notified_username n ++ ")" else EmptyString)
           ++ "：" ++ (if ok n then "✅ 成功" else "❌ 失败");
         "阶段：" ++ stage n;
         (if JsString.truthy (msg n) then "信息：" ++ msg n else EmptyString);
         "时间：" ++ iso ]).

Definition photo_caption (n : Notification) : string :=
  "Lunes 自动登录截图（" ++ stage n
    ++ (if JsString.truthy (notified_username n)
        then " - " ++ notified_username n else EmptyString)
    ++ "）".

(** [r.username], [r.message] in a template: a missing field prints as
    [undefined] and is falsy. *)
Definition printed_username (o : Outcome) : string :=
  match result o with
  | Some r => username r
  | None => "undefined"
  end.

Definition message_of (o : Outcome) : string :=
  match result o with
  | Some r => message r
  | None => EmptyString
  end.

(** One line of the detailed results. *)
Definition summary_line (index : nat) (o : Outcome) : string :=
  JsString.of_nat (index + 1) ++ ". " ++ printed_username o ++ ": "
    ++ (if outcome_success o then "✅ 成功" else "❌ 失败")
    ++ (if JsString.truthy (message_of o)
        then " (" ++ message_of o ++ ")" else EmptyString)
    ++ (if 0 <? retries o
        then " [重试: " ++ JsString.of_Z (retries o) ++ "]" else EmptyString).

(** [results.map((r, index) => ...)], from position [index] on. *)
Fixpoint summary_lines (index : nat) (results : list Outcome) : list string :=
  match results with
  | [] => []
  | o :: rest => summary_line index o :: summary_lines (S index) rest
  end.

(** [successCount] and [totalCount]. *)
Definition successCount (results : list Outcome) : nat :=
  List.length (filter outcome_success results).

Definition totalCount (results : list Outcome) : nat := List.length results.

(** The number printed after the failure label. *)
Definition failureCount (results : list Outcome) : Z :=
  Z.of_nat (totalCount results) - Z.of_nat (successCount results).

Definition summary_text (results : list Outcome) (iso : string) : string :=
  String.concat newline
    (app [ "📊 Lunes 自动登录汇总报告";
           "总账户数: " ++ JsString.of_nat (totalCount results);
           "成功: " ++ JsString.of_nat (successCount results);
           "失败: " ++ JsString.of_Z (failureCount results);
           newline ++ "详细结果:" ]
         (app (summary_lines 0 results)
              [ newline ++ "时间: " ++ iso ])).

Section Bodies.

Context {V : Type} (host : Host V).

Definition getenv (name : string) : M (Wire V) (option string) :=
  fun s => (Ok (variable host name (outside (world s))), s).

Definition now_iso : M (Wire V) string :=
  fun s => (Ok (toISOString host (outside (world s))), s).

Definition file_exists (path : string) : M (Wire V) bool :=
  fun s => (Ok (existsSync host path (outside (world s))), s).

Definition read_file (path : string) : M (Wire V) string :=
  fun s => (readFileSync host path (outside (world s)), s).

(** [await fetch(...)]: the request is made, then it resolves or
    rejects. *)
Definition post (r : request) : M (Wire V) unit :=
  fun s =>
    let (answer, v) := fetch host r (outside (world s)) in
    (answer,
     mkState (mkWire v (sent (world s) ++ [r])%list) (trace s) (exitCode s)).

(** The photo follows when a path was given and the file is there. *)
Definition send_photo (token chatId : string) (n : Notification)
  : M (Wire V) unit :=
  match screenshotPath n with
  | Some path =>
      if JsString.truthy path then
        there <- file_exists path ;;
        if there then
          imageBuffer <- read_file path ;;
          post (mkRequest (api token "sendPhoto")
                          (form_body chatId (photo_caption n) imageBuffer))
        else ret tt
      else ret tt
  | None => ret tt
  end.

(** The body of [notifyTelegram]. *)
Definition notifyTelegram_body (n : Notification) : M (Wire V) unit :=
  try_catch
    (token <- getenv "TELEGRAM_BOT_TOKEN" ;;
     chatId <- getenv "TELEGRAM_CHAT_ID" ;;
     if (unset token || unset chatId)%bool then ret tt
     else
       iso <- now_iso ;;
       post (mkRequest (api (value token) "sendMessage")
                       (json_body (value chatId) (notification_text n iso))) ;;
       send_photo (value token) (value chatId) n)
    (fun _ => ret tt).

(** The body of [sendSummaryNotification]. *)
Definition sendSummaryNotification_body (results : list Outcome)
  : M (Wire V) unit :=
  try_catch
    (token <- getenv "TELEGRAM_BOT_TOKEN" ;;
     chatId <- getenv "TELEGRAM_CHAT_ID" ;;
     if (unset token || unset chatId)%bool then ret tt
     else
       iso <- now_iso ;;
       post (mkRequest (api (value token) "sendMessage")
                       (json_body (value chatId) (summary_text results iso))))
    (fun _ => ret tt).

(** The two requests of [notifyTelegram] in an outside [v]: the text
    message, and the photo with the bytes [image]. *)
Definition message_request (n : Notification) (v : V) : request :=
  mkRequest
    (api (value (variable host "TELEGRAM_BOT_TOKEN" v)) "sendMessage")
    (json_body (value (variable host "TELEGRAM_CHAT_ID" v))
               (notification_text n (toISOString host v))).

Definition photo_request (n : Notification) (v : V) (image : string)
  : request :=
  mkRequest
    (api (value (variable host "TELEGRAM_BOT_TOKEN" v)) "sendPhoto")
    (form_body (value (variable host "TELEGRAM_CHAT_ID" v))
               (photo_caption n) image).

(** The one request of [sendSummaryNotification]. *)
Definition summary_request (results : list Outcome) (v : V) : request :=
  mkRequest
    (api (value (variable host "TELEGRAM_BOT_TOKEN" v)) "sendMessage")
    (json_body (value (variable host "TELEGRAM_CHAT_ID" v))
               (summary_text results (toISOString host v))).

(** Both credentials are set to something. *)
Definition has_credentials (v : V) : Prop :=
  unset (variable host "TELEGRAM_BOT_TOKEN" v) = false /\
  unset (variable host "TELEGRAM_CHAT_ID" v) = false.

End Bodies.

(** A host for the examples: the variables of a list, a chat that
    answers every request, and the files of a list. *)
Record Desk : Type := mkDesk {
  variables : list (string * string);
  stored : list (string * string);
  date : string
}.

Fixpoint lookup (name : string) (l : list (string * string)) : option string :=
  match l with
  | [] => None
  | (k, x) :: rest => if String.eqb k name then Some x else lookup name rest
  end.

Definition desk_host : Host Desk :=
  mkHost Desk
    (fun name v => lookup name (variables v))
    (fun _ v => (Ok tt, v))
    (fun path v => match lookup path (stored v) with
                   | Some _ => true
                   | None => false
                   end)
    (fun path v => match lookup path (stored v) with
                   | Some bytes => Ok bytes
                   | None => Throw (new_Error "ENOENT: no such file")
                   end)
    date.

Definition start (v : Desk) : State (Wire Desk) :=
  mkState (mkWire v []) [] None.

Definition capture : string := "./99-error-0-a_b_c.png".

(** No credentials at all. *)
Definition silent_desk : Desk := mkDesk [] [] "2024-01-01T00:00:00.000Z".

(** Both credentials, and one capture on disk. *)
Definition staffed_desk : Desk :=
  mkDesk [("TELEGRAM_BOT_TOKEN", "t0k"); ("TELEGRAM_CHAT_ID", "42")]
         [(capture, "PNG")]
         "2024-01-01T00:00:00.000Z".

Definition error_notice : Notification :=
  mkNotification false "异常" "Timeout exceeded" (Some capture) "a@b.c".

Definition one_success : list Outcome :=
  [mkOutcome (Some (mkResult true "a@b.c" "登录成功")) 0].

End Telegram.

(** ** Further vocabulary: what a log holds *)

(** The steps an attempt takes between opening and closing its session:
    everything but the five session calls and the summary. *)
Definition is_page_step (e : entry) : bool :=
  match e with
  | Called c =>
      match c with
      | chromium_launch | browser_newContext | context_newPage
      | context_close | browser_close | telegram_summary _ => false
      | _ => true
      end
  | _ => false
  end.

(** The pause in front of a retry. *)
Definition is_retry_delay (e : entry) : bool :=
  match e with
  | Slept ms => ms =? 5000
  | _ => false
  end.

(** The pause between two accounts. *)
Definition is_account_delay (e : entry) : bool :=
  match e with
  | SleptRandom _ _ => true
  | _ => false
  end.

Definition is_summary (e : entry) : bool :=
  match e with
  | Called c => match c with telegram_summary _ => true | _ => false end
  | _ => false
  end.

Definition is_context_close (e : entry) : bool :=
  match e with
  | Called c => match c with context_close => true | _ => false end
  | _ => false
  end.

Definition is_browser_close (e : entry) : bool :=
  match e with
  | Called c => match c with browser_close => true | _ => false end
  | _ => false
  end.

(** What one account may leave in the log: calls other than the summary,
    and the pause in front of a retry. *)
Definition is_account_entry (e : entry) : bool :=
  match e with
  | Called c => match c with telegram_summary _ => false | _ => true end
  | Slept _ => true
  | SleptRandom _ _ => false
  end.

(** What one attempt may leave in the log: calls other than the
    summary. *)
Definition is_attempt_entry (e : entry) : bool :=
  match e with
  | Called c => match c with telegram_summary _ => false | _ => true end
  | _ => false
  end.

(** How many entries of a log pass [P]. *)
Definition tally (P : entry -> bool) (t : list entry) : nat :=
  List.length (filter P t).

(** The blocks of a log with [pause] between two of them, and nowhere
    else. *)
Fixpoint between (pause : entry) (blocks : list (list entry)) : list entry :=
  match blocks with
  | [] => []
  | b :: rest =>
      match rest with
      | [] => b
      | _ => (b ++ pause :: between pause rest)%list
      end
  end.

(** What belongs to one account: calls and retry pauses only, and at
    least one launch of the browser. *)
Definition account_block (b : list entry) : Prop :=
  forallb is_account_entry b = true /\ (1 <= tally is_launch b)%nat.

(** A notification about one attempt or about the start-up. *)
Definition is_notice (e : entry) : bool :=
  match e with
  | Called c => match c with telegram _ => true | _ => false end
  | _ => false
  end.

Definition no_notice (e : entry) : bool := negb (is_notice e).

(** A click, a clearing or a filling of some element. *)
Definition touches_form (e : entry) : bool :=
  match e with
  | Called c =>
      match c with
      | locator_click _ _ | locator_clear _ | locator_fill _ _ _ => true
      | _ => false
      end
  | _ => false
  end.

Definition leaves_form_alone (e : entry) : bool := negb (touches_form e).

(** What an attempt does to the login form, in the order in which the
    source makes the calls: the name, the password, then the wait for
    the navigation set up and the submit button clicked. *)
Definition form_steps (user : string) (password : JSValue)
           (index retryCount : Z) : list entry :=
  [ Called (locator_click userInput 10000);
    Called (locator_clear userInput);
    Called (locator_fill userInput (JStr user) 10000);
    Called (locator_click passInput 10000);
    Called (locator_clear passInput);
    Called (locator_fill passInput password 10000);
    Called (locator_waitFor loginBtn 15000);
    Called (page_screenshot
              (screenshot user index retryCount "02-before-submit"));
    Called (page_waitForNavigation NAVIGATION_TIMEOUT);
    Called (locator_click loginBtn 10000) ].

Section More_conditions.

Context {W : Type} (env : Env W).

(** [main], started in [s], does one thing, the notification of a
    failed initialization with the message [text], and sets exit
    code 1. *)
Definition init_failure_reported (s : State W) (text : string) : Prop :=
  exists s',
    main env s = (Ok tt, s') /\
    exitCode s' = Some 1 /\
    trace s' =
    (trace s ++ [Called (telegram (mkNotification false "初始化" text
                                                  None "N/A"))])%list.

(** In the world [w] the title reads [title], and reading it changes
    nothing. *)
Definition title_is (w : W) (title : string) : Prop :=
  run env page_title w = (Ok title, w).

(** Likewise for the text of the body, which may fail to be read. *)
Definition body_reads (w : W) (r : res string) : Prop :=
  run env (locator_innerText (Locator (css "body"))) w = (r, w).

(** [page.waitForTimeout] never rejects. *)
(** [m] notifies once when it returns and not at all when it throws. *)
Definition notifies_on_return {A : Type} (m : M W A) : Prop :=
  forall s,
    tally is_notice (trace (snd (m s)))
    = (tally is_notice (trace s)
       + match fst (m s) with Ok _ => 1 | Throw _ => 0 end)%nat.

(** What [m] adds to the log is a beginning of [steps], with entries
    that leave the form alone before and after. *)
Definition in_steps {A : Type} (steps : list entry) (m : M W A) : Prop :=
  forall s,
  exists before j after,
    trace (snd (m s))
      = (trace s ++ before ++ firstn j steps ++ after)%list /\
    forallb leaves_form_alone before = true /\
    forallb leaves_form_alone after = true.

(** A run of awaited calls in front of [k]. *)
Fixpoint in_turn {A : Type} (cs : list (call unit)) (k : M W A) : M W A :=
  match cs with
  | [] => k
  | c :: rest => bind (perform env c) (fun _ => in_turn rest k)
  end.

Definition waits_succeed : Prop :=
  forall ms w, fst (run env (page_waitForTimeout ms) w) = Ok tt.

End More_conditions.

(** [await ... .catch(() => '')]: the text read, or the empty string. *)
Definition text_or_empty (r : res string) : string :=
  match r with
  | Ok x => x
  | Throw _ => EmptyString
  end.

(** ** Reasoning about computations *)

Section Monad_facts.

Context {W : Type}.

Lemma bind_Ok (A B : Type) (m : M W A) (k : A -> M W B) s a s1 :
  m s = (Ok a, s1) -> bind m k s = k a s1.
Proof. unfold bind; intros ->; reflexivity. Qed.

Lemma bind_Throw (A B : Type) (m : M W A) (k : A -> M W B) s e s1 :
  m s = (Throw e, s1) -> bind m k s = (Throw e, s1).
Proof. unfold bind; intros ->; reflexivity. Qed.

Lemma bind_inv_Ok (A B : Type) (m : M W A) (k : A -> M W B) s b s2 :
  bind m k s = (Ok b, s2) ->
  exists a s1, m s = (Ok a, s1) /\ k a s1 = (Ok b, s2).
Proof.
  unfold bind; destruct (m s) as [[a | e] s1]; intros H.
  - exists a, s1; auto.
  - discriminate.
Qed.

Lemma bind_ext (A B : Type) (m : M W A) (k1 k2 : A -> M W B) s :
  (forall a s1, k1 a s1 = k2 a s1) -> bind m k1 s = bind m k2 s.
Proof. unfold bind; intros H; destruct (m s) as [[a | e] s1]; auto. Qed.

Lemma bind_assoc (A B C : Type) (m : M W A) (k : A -> M W B)
      (h : B -> M W C) s :
  bind (bind m k) h s = bind m (fun a => bind (k a) h) s.
Proof. unfold bind; destruct (m s) as [[a | e] s1]; reflexivity. Qed.

Lemma bind_cong (A B : Type) (m1 m2 : M W A) (k : A -> M W B) s1 s2 :
  m1 s1 = m2 s2 -> bind m1 k s1 = bind m2 k s2.
Proof. unfold bind; intros ->; reflexivity. Qed.

Lemma try_catch_Ok (A : Type) (m : M W A) h s a s1 :
  m s = (Ok a, s1) -> try_catch m h s = (Ok a, s1).
Proof. unfold try_catch; intros ->; reflexivity. Qed.

Lemma try_catch_Throw (A : Type) (m : M W A) h s e s1 :
  m s = (Throw e, s1) -> try_catch m h s = h e s1.
Proof. unfold try_catch; intros ->; reflexivity. Qed.

Lemma try_finally_Ok (A : Type) (m : M W A) f s r s1 s2 :
  m s = (r, s1) -> f s1 = (Ok tt, s2) -> try_finally m f s = (r, s2).
Proof. unfold try_finally; intros -> ->; reflexivity. Qed.

Lemma try_finally_Throw (A : Type) (m : M W A) f s r s1 e s2 :
  m s = (r, s1) -> f s1 = (Throw e, s2) ->
  try_finally m f s = (Throw e, s2).
Proof. unfold try_finally; intros -> ->; reflexivity. Qed.

(** *** What a computation adds to the log *)

Lemma extends_refl P (s : State W) : extends P s s.
Proof. exists []; split; [symmetry; apply app_nil_r | reflexivity]. Qed.

Lemma extends_trans P (s1 s2 s3 : State W) :
  extends P s1 s2 -> extends P s2 s3 -> extends P s1 s3.
Proof.
  intros (a & Ha & Pa) (b & Hb & Pb); exists (a ++ b)%list; split.
  - rewrite Hb, Ha, app_assoc; reflexivity.
  - rewrite forallb_app, Pa, Pb; reflexivity.
Qed.

Lemma only_ret (A : Type) P (a : A) : only P (@ret W A a).
Proof. intros s; apply extends_refl. Qed.

Lemma only_throw (A : Type) P e : only P (@throw W A e).
Proof. intros s; apply extends_refl. Qed.

Lemma only_bind (A B : Type) P (m : M W A) (k : A -> M W B) :
  only P m -> (forall a, only P (k a)) -> only P (bind m k).
Proof.
  intros Hm Hk s; specialize (Hm s); unfold bind.
  destruct (m s) as [[a | e] s1]; simpl in *; auto.
  eapply extends_trans; [exact Hm | apply Hk].
Qed.

Lemma only_try_catch (A : Type) P (m : M W A) h :
  only P m -> (forall e, only P (h e)) -> only P (try_catch m h).
Proof.
  intros Hm Hh s; specialize (Hm s); unfold try_catch.
  destruct (m s) as [[a | e] s1]; simpl in *; auto.
  eapply extends_trans; [exact Hm | apply Hh].
Qed.

Lemma only_try_finally (A : Type) P (m : M W A) f :
  only P m -> only P f -> only P (try_finally m f).
Proof.
  intros Hm Hf s; specialize (Hm s); unfold try_finally.
  destruct (m s) as [r s1]; specialize (Hf s1); simpl in *.
  destruct (f s1) as [[[] | e] s2]; simpl in *;
    eapply extends_trans; eauto.
Qed.

Lemma only_if (A : Type) P (b : bool) (m1 m2 : M W A) :
  only P m1 -> only P m2 -> only P (if b then m1 else m2).
Proof. destruct b; auto. Qed.

(** *** What a computation returns *)

Lemma returns_ret (A : Type) (Q : A -> Prop) a : Q a -> returns Q (@ret W A a).
Proof. intros H s b s' E; inversion E; subst; exact H. Qed.

Lemma returns_throw (A : Type) (Q : A -> Prop) e : returns Q (@throw W A e).
Proof. intros s b s' E; discriminate. Qed.

Lemma returns_bind (A B : Type) (Q : B -> Prop) (m : M W A) (k : A -> M W B) :
  (forall a, returns Q (k a)) -> returns Q (bind m k).
Proof.
  intros Hk s b s' E; apply bind_inv_Ok in E as (a & s1 & _ & E).
  eapply Hk; eauto.
Qed.

Lemma returns_try_catch (A : Type) (Q : A -> Prop) (m : M W A) h :
  returns Q m -> (forall e, returns Q (h e)) -> returns Q (try_catch m h).
Proof.
  intros Hm Hh s a s'; unfold try_catch.
  destruct (m s) as [[a1 | e] s1] eqn:E; intros H.
  - inversion H; subst; eapply Hm; eauto.
  - eapply Hh; eauto.
Qed.

Lemma returns_try_finally (A : Type) (Q : A -> Prop) (m : M W A) f :
  returns Q m -> returns Q (try_finally m f).
Proof.
  intros Hm s a s'; unfold try_finally.
  destruct (m s) as [r s1] eqn:E; destruct (f s1) as [[[] | e] s2];
    intros H; inversion H; subst; eapply Hm; eauto.
Qed.

Lemma returns_if (A : Type) (Q : A -> Prop) (b : bool) (m1 m2 : M W A) :
  returns Q m1 -> returns Q m2 -> returns Q (if b then m1 else m2).
Proof. destruct b; auto. Qed.

(** *** Computations that cannot throw *)

Lemma total_ret (A : Type) (a : A) : total (@ret W A a).
Proof. intros s; exists a, s; reflexivity. Qed.

Lemma total_bind (A B : Type) (m : M W A) (k : A -> M W B) :
  total m -> (forall a, total (k a)) -> total (bind m k).
Proof.
  intros Hm Hk s; destruct (Hm s) as (a & s1 & E).
  destruct (Hk a s1) as (b & s2 & E2); exists b, s2.
  rewrite (bind_Ok _ _ _ _ _ _ _ E); exact E2.
Qed.

Lemma total_try_catch (A : Type) (m : M W A) h :
  (forall e, total (h e)) -> total (try_catch m h).
Proof.
  intros Hh s; unfold try_catch; destruct (m s) as [[a | e] s1].
  - exists a, s1; reflexivity.
  - apply Hh.
Qed.

Lemma total_try_finally (A : Type) (m : M W A) f :
  total m -> total f -> total (try_finally m f).
Proof.
  intros Hm Hf s; unfold try_finally; destruct (Hm s) as (a & s1 & ->).
  destruct (Hf s1) as ([] & s2 & ->); exists a, s2; reflexivity.
Qed.

Lemma total_if (A : Type) (b : bool) (m1 m2 : M W A) :
  total m1 -> total m2 -> total (if b then m1 else m2).
Proof. destruct b; auto. Qed.

End Monad_facts.

(** ** Facts about the script *)

Section Script_facts.

Context {W : Type} (env : Env W).

Lemma perform_run (A : Type) (c : call A) (s : State W) :
  perform env c s =
  (fst (run env c (world s)),
   mkState (snd (run env c (world s))) (trace s ++ [Called c]) (exitCode s)).
Proof. unfold perform; destruct (run env c (world s)); reflexivity. Qed.

Lemma only_perform (A : Type) P (c : call A) :
  P (Called c) = true -> only P (perform env c).
Proof.
  intros H s; exists [Called c]; rewrite perform_run; simpl.
  rewrite H; auto.
Qed.

Lemma only_begin_call (A : Type) P (c : call A) :
  P (Called c) = true -> only P (@begin_call W A c).
Proof.
  intros H s; exists [Called c]; split; [reflexivity | ].
  simpl; rewrite H; reflexivity.
Qed.

Lemma only_await_call (A : Type) P (c : call A) : only P (await_call env c).
Proof.
  intros s; exists []; unfold await_call.
  destruct (run env c (world s)); simpl.
  split; [symmetry; apply app_nil_r | reflexivity].
Qed.

Lemma only_sleep P ms : P (Slept ms) = true -> only P (sleep env ms).
Proof. intros H s; exists [Slept ms]; simpl; rewrite H; auto. Qed.

Lemma only_notifyTelegram P n :
  P (Called (telegram n)) = true -> only P (notifyTelegram env n).
Proof.
  intros H; apply only_try_catch; [apply only_perform, H | ].
  intros e; apply only_ret.
Qed.

Lemma total_notifyTelegram n : total (notifyTelegram env n).
Proof. apply total_try_catch; intros e; apply total_ret. Qed.

Lemma total_sendSummaryNotification rs :
  total (sendSummaryNotification env rs).
Proof. apply total_try_catch; intros e; apply total_ret. Qed.

(** [notifyTelegram] returns whatever Telegram does, adds one entry to
    the log and leaves the exit code alone. *)
Lemma notifyTelegram_spec n s :
  exists s', notifyTelegram env n s = (Ok tt, s') /\
             trace s' = (trace s ++ [Called (telegram n)])%list /\
             exitCode s' = exitCode s.
Proof.
  unfold notifyTelegram, try_catch; rewrite perform_run.
  destruct (fst (run env (telegram n) (world s))) as [[] | e];
    eexists; split; try reflexivity; simpl; auto.
Qed.

Lemma sendSummaryNotification_spec rs s :
  exists s', sendSummaryNotification env rs s = (Ok tt, s') /\
             trace s' = (trace s ++ [Called (telegram_summary rs)])%list /\
             exitCode s' = exitCode s.
Proof.
  unfold sendSummaryNotification, try_catch; rewrite perform_run.
  destruct (fst (run env (telegram_summary rs) (world s))) as [[] | e];
    eexists; split; try reflexivity; simpl; auto.
Qed.

(** *** The parts of an attempt that never touch the form *)

Section Attempt_facts.

Variables (user : string) (password : JSValue) (index retryCount : Z).

Lemma only_open_session P :
  P (Called chromium_launch) = true ->
  P (Called browser_newContext) = true ->
  P (Called context_newPage) = true ->
  only P (open_session env).
Proof.
  intros H1 H2 H3; unfold open_session.
  repeat (apply only_bind; [ | intros _]); apply only_perform; auto.
Qed.

Lemma only_human_check_found :
  only no_form_stage (human_check_found env user index retryCount).
Proof.
  unfold human_check_found.
  apply only_bind; [apply only_perform; reflexivity | intros _].
  apply only_bind; [apply only_notifyTelegram; reflexivity | intros _].
  apply only_ret.
Qed.

Lemma only_attempt_catch e :
  only no_form_stage (attempt_catch env user index retryCount e).
Proof.
  unfold attempt_catch.
  apply only_bind; [ | intros _].
  { apply only_try_catch; [apply only_perform; reflexivity | ].
    intros _; apply only_ret. }
  apply only_bind; [intros s; apply extends_refl | intros captured].
  apply only_bind; [apply only_notifyTelegram; reflexivity | intros _].
  apply only_ret.
Qed.

Lemma only_attempt_finally : only no_form_stage (attempt_finally env).
Proof.
  unfold attempt_finally.
  apply only_bind; [ | intros _]; apply only_perform; reflexivity.
Qed.

(** The [catch] block always produces a result: the capture is in a
    [try] of its own and the notification swallows its errors. *)
Lemma attempt_catch_spec e s :
  exists s',
    attempt_catch env user index retryCount e s =
    (Ok (mkResult false user ("异常: " ++ err_message e)), s').
Proof.
  unfold attempt_catch.
  set (sp := screenshot user index retryCount "99-error").
  assert (H1 : total (try_catch (perform env (page_screenshot sp))
                                (fun _ => @ret W unit tt))).
  { apply total_try_catch; intros; apply total_ret. }
  destruct (H1 s) as ([] & s1 & E1).
  rewrite (bind_Ok _ _ _ _ _ _ _ E1).
  unfold bind at 1, existsSync at 1.
  match goal with
  | |- context [notifyTelegram env ?n] =>
      destruct (notifyTelegram_spec n s1) as (s2 & E2 & _)
  end.
  rewrite (bind_Ok _ _ _ _ _ _ _ E2).
  eexists; reflexivity.
Qed.

Lemma total_attempt_catch e :
  total (attempt_catch env user index retryCount e).
Proof.
  intros s; destruct (attempt_catch_spec e s) as (s' & E); eauto.
Qed.

End Attempt_facts.

(** *** The retry loop *)

Lemma attempt_try_bot_check user password index retryCount s :
  detects_bot_check env s ->
  exists s2,
    extends no_form_stage s s2 /\
    attempt_try env user password index retryCount s =
    human_check_found env user index retryCount s2.
Proof.
  intros (s1 & n & s2 & E1 & E2 & Hn); exists s2; split.
  - eapply extends_trans.
    + pose proof (only_perform _ no_form_stage (page_goto LOGIN_URL 60000)
                               eq_refl s) as H.
      rewrite E1 in H; exact H.
    + pose proof (only_perform _ no_form_stage
                    (locator_count (First (Locator humanCheckSelector)))
                    eq_refl s1) as H.
      rewrite E2 in H; exact H.
  - unfold attempt_try.
    rewrite (bind_Ok _ _ _ _ _ _ _ E1), (bind_Ok _ _ _ _ _ _ _ E2).
    apply Nat.ltb_lt in Hn; rewrite Hn; reflexivity.
Qed.

Lemma returns_human_check_found user index retryCount :
  returns (gave_up user) (human_check_found env user index retryCount).
Proof.
  unfold human_check_found.
  apply returns_bind; intros _; apply returns_bind; intros _.
  apply returns_ret; repeat split; auto.
Qed.

Lemma returns_attempt_catch user index retryCount e :
  returns (gave_up user) (attempt_catch env user index retryCount e).
Proof.
  intros s r s' E.
  destruct (attempt_catch_spec user index retryCount e s) as (s2 & E2).
  rewrite E2 in E; inversion E; subst.
  repeat split; simpl; eauto.
Qed.

(** [result?.success] is false: the loop condition holds while
    [retryCount] is in range. *)
Lemma retry_loop_step fuel user password index retryCount r s :
  retryCount <= MAX_RETRIES ->
  result_success r = false ->
  retry_loop env (S fuel) user password index retryCount r s =
  ((if 0 <? retryCount then sleep env 5000 else ret tt) ;;
   r' <- attemptLogin env user password index retryCount ;;
   retry_loop env fuel user password index (retryCount + 1) (Some r')) s.
Proof.
  intros Hle Hr; simpl.
  apply Z.leb_le in Hle; rewrite Hle, Hr; reflexivity.
Qed.

(** The first pass is always made, without a delay. *)
Lemma retry_loop_first fuel user password index s :
  retry_loop env (S fuel) user password index 0 None s =
  (r <- attemptLogin env user password index 0 ;;
   retry_loop env fuel user password index 1 (Some r)) s.
Proof.
  rewrite retry_loop_step by (vm_compute; congruence || reflexivity).
  reflexivity.
Qed.

Lemma retry_loop_stop fuel user password index retryCount r s :
  MAX_RETRIES < retryCount \/ result_success r = true ->
  retry_loop env fuel user password index retryCount r s =
  (Ok (retryCount, r), s).
Proof.
  intros H; destruct fuel as [ | fuel]; [reflexivity | simpl].
  destruct H as [H | H].
  - apply Z.leb_gt in H; rewrite H; reflexivity.
  - rewrite H, andb_false_r; reflexivity.
Qed.

(** The passes still to come never exceed [MAX_RETRIES + 1 - retryCount],
    so any two supplies of fuel above that give the same run. *)
Lemma retry_loop_fuel user password index :
  forall f1 f2 retryCount r s,
    (Z.to_nat (MAX_RETRIES + 1 - retryCount) < f1)%nat ->
    (Z.to_nat (MAX_RETRIES + 1 - retryCount) < f2)%nat ->
    retry_loop env f1 user password index retryCount r s =
    retry_loop env f2 user password index retryCount r s.
Proof.
  induction f1 as [ | f1 IH]; intros f2 retryCount r s H1 H2; [lia | ].
  destruct f2 as [ | f2]; [lia | ].
  destruct (Z_le_gt_dec retryCount MAX_RETRIES) as [Hle | Hgt].
  - destruct (result_success r) eqn:Hr.
    + rewrite !retry_loop_stop by auto; reflexivity.
    + rewrite !retry_loop_step by auto.
      apply bind_ext; intros _ s1; apply bind_ext; intros r' s2.
      apply IH; lia.
  - rewrite !retry_loop_stop by (left; lia); reflexivity.
Qed.

Lemma retry_loop_fuel_enough user password index extra s :
  retry_loop env (retry_fuel + extra) user password index 0 None s =
  retry_loop env retry_fuel user password index 0 None s.
Proof. apply retry_loop_fuel; vm_compute; lia. Qed.

(** Where the loop stops: [retryCount] has not gone past
    [MAX_RETRIES + 1], and a pass was made unless the loop was entered
    with its condition false. *)
Lemma retry_loop_bounds user password index :
  forall fuel retryCount r s retryCount' r' s',
    retry_loop env fuel user password index retryCount r s
      = (Ok (retryCount', r'), s') ->
    retryCount <= retryCount' /\
    (retryCount' <= MAX_RETRIES + 1 \/ retryCount' = retryCount).
Proof.
  induction fuel as [ | fuel IH]; intros retryCount r s retryCount' r' s' E.
  - inversion E; subst; lia.
  - simpl in E.
    destruct ((retryCount <=? MAX_RETRIES) && negb (result_success r))%bool
      eqn:C.
    + apply andb_prop in C as [C _]; apply Z.leb_le in C.
      apply bind_inv_Ok in E as (_ & s1 & _ & E).
      apply bind_inv_Ok in E as (r1 & s2 & _ & E).
      apply IH in E; lia.
    + inversion E; subst; lia.
Qed.

(** When an attempt detects the bot-check page, the attempt gives up
    before the form stage: its log holds no step of the form stage, and
    it returns a failure (or the error of closing the session).  The
    retry loop does not tell this failure from any other: after the
    first attempt has returned it, the loop waits five seconds and starts
    the attempt numbered 1. *)
Lemma bot_check_attempt_and_first_retry
        user password index (s0 : State W) :
  attempt_detects_bot_check env s0 ->
  (forall retryCount, exists r s',
      attemptLogin env user password index retryCount s0 = (r, s') /\
      extends no_form_stage s0 s' /\
      exists x, gave_up user x /\
                (r = Ok x \/
                 exists e s2, attempt_finally env s2 = (Throw e, s') /\
                              r = Throw e)) /\
  (forall r s1,
      attemptLogin env user password index 0 s0 = (Ok r, s1) ->
      gave_up user r /\
      loginWithAccount env user password index s0 =
      (sleep env 5000 ;;
       r2 <- attemptLogin env user password index 1 ;;
       st <- retry_loop env 2 user password index 2 (Some r2) ;;
       ret (mkOutcome (snd st) (fst st - 1))) s1).
Proof.
  intros (s & Hopen & Hbot).
  assert (H1 : forall retryCount, exists r s',
      attemptLogin env user password index retryCount s0 = (r, s') /\
      extends no_form_stage s0 s' /\
      exists x, gave_up user x /\
                (r = Ok x \/
                 exists e s2, attempt_finally env s2 = (Throw e, s') /\
                              r = Throw e)).
  { intros retryCount.
    destruct (attempt_try_bot_check user password index retryCount s Hbot)
      as (s2 & Hext & Htry).
    unfold attemptLogin; rewrite (bind_Ok _ _ _ _ _ _ _ Hopen).
    set (G := try_catch (human_check_found env user index retryCount)
                        (attempt_catch env user index retryCount)).
    assert (EG : try_catch (attempt_try env user password index retryCount)
                           (attempt_catch env user index retryCount) s
                 = G s2).
    { unfold G, try_catch; rewrite Htry; reflexivity. }
    assert (TG : total G).
    { apply total_try_catch; intros e; apply total_attempt_catch. }
    destruct (TG s2) as (x & sg & Ex).
    assert (Qx : gave_up user x).
    { eapply (returns_try_catch _ (gave_up user)); [ | | exact Ex].
      - apply returns_human_check_found.
      - intros e; apply returns_attempt_catch. }
    assert (Xg : extends no_form_stage s2 sg).
    { pose proof (only_try_catch _ no_form_stage _ _
                    (only_human_check_found user index retryCount)
                    (only_attempt_catch user index retryCount) s2) as H.
      fold G in H; rewrite Ex in H; exact H. }
    pose proof (only_attempt_finally sg) as Xf.
    pose proof (only_open_session no_form_stage eq_refl eq_refl eq_refl s0)
      as Xo.
    rewrite Hopen in Xo; simpl in Xo.
    unfold try_finally; rewrite EG, Ex.
    destruct (attempt_finally env sg) as [[[] | e] sf] eqn:Ef; simpl in Xf.
    - exists (Ok x), sf; split; [reflexivity | split].
      + exact (extends_trans _ _ _ _ Xo
                (extends_trans _ _ _ _ Hext (extends_trans _ _ _ _ Xg Xf))).
      + exists x; auto.
    - exists (Throw e), sf; split; [reflexivity | split].
      + exact (extends_trans _ _ _ _ Xo
                (extends_trans _ _ _ _ Hext (extends_trans _ _ _ _ Xg Xf))).
      + exists x; split; [exact Qx | right; exists e, sg; auto]. }
  split; [exact H1 | ].
  intros r s1 E.
  assert (Qr : gave_up user r).
  { destruct (H1 0) as (r' & s' & E' & _ & x & Qx & [-> | (e & s2 & _ & ->)]);
      rewrite E in E'; inversion E'; subst; exact Qx. }
  split; [exact Qr | ].
  destruct Qr as (Hs & _).
  unfold loginWithAccount, retry_fuel.
  change (Z.to_nat MAX_RETRIES + 2)%nat with 4%nat.
  erewrite bind_cong.
  2:{ rewrite retry_loop_first, (bind_Ok _ _ _ _ _ _ _ E).
      apply retry_loop_step; [vm_compute; congruence | exact Hs]. }
  rewrite bind_assoc; apply bind_ext; intros _ s2.
  rewrite bind_assoc; reflexivity.
Qed.

(** C2 (amended).  Whenever [loginWithAccount] returns, the retries it
    reports lie between 0 and [MAX_RETRIES]; the first attempt has
    returned a result, and the report is 0 exactly when that result is a
    success: after a failed first attempt, whatever its reason, at least
    one retry is counted. *)
Theorem retries_bounded_and_zero_iff_first_success
        user password index (s : State W) o s' :
  loginWithAccount env user password index s = (Ok o, s') ->
  0 <= retries o <= MAX_RETRIES /\
  exists r s1,
    attemptLogin env user password index 0 s = (Ok r, s1) /\
    (success r = true -> retries o = 0 /\ result o = Some r /\ s' = s1) /\
    (success r = false -> 1 <= retries o).
Proof.
  unfold loginWithAccount, retry_fuel.
  change (Z.to_nat MAX_RETRIES + 2)%nat with 4%nat.
  intros H; apply bind_inv_Ok in H as ([rc res] & s2 & H & Hret).
  inversion Hret; subst; clear Hret; simpl.
  rewrite retry_loop_first in H.
  apply bind_inv_Ok in H as (r & s1 & E & H).
  pose proof (retry_loop_bounds user password index _ _ _ _ _ _ _ H) as B.
  split; [unfold MAX_RETRIES in *; lia | ].
  exists r, s1; split; [exact E | split]; intros Hr.
  - rewrite retry_loop_stop in H by (right; exact Hr).
    inversion H; subst; auto.
  - rewrite retry_loop_step in H by (simpl; auto; vm_compute; congruence).
    apply bind_inv_Ok in H as (_ & s3 & _ & H).
    apply bind_inv_Ok in H as (r2 & s4 & _ & H).
    apply retry_loop_bounds in H; lia.
Qed.

(** *** Results carry the account they belong to *)

Lemma returns_classify user spAfter :
  returns (fun r => username r = user) (classify env user spAfter).
Proof.
  unfold classify.
  apply returns_bind; intros url; apply returns_bind; intros successHint.
  apply returns_if.
  - apply returns_bind; intros _; apply returns_ret; reflexivity.
  - apply returns_bind; intros m1; apply returns_bind; intros m2.
    apply returns_bind; intros _; apply returns_ret; reflexivity.
Qed.

Lemma returns_attempt_try user password index retryCount :
  returns (fun r => username r = user)
          (attempt_try env user password index retryCount).
Proof.
  unfold attempt_try.
  apply returns_bind; intros _; apply returns_bind; intros n.
  apply returns_if.
  - intros s r s' E.
    apply (returns_human_check_found user index retryCount) in E.
    apply E.
  - unfold fill_and_submit.
    do 15 (apply returns_bind; intros ?).
    apply returns_classify.
Qed.

Lemma returns_attemptLogin user password index retryCount :
  returns (fun r => username r = user)
          (attemptLogin env user password index retryCount).
Proof.
  unfold attemptLogin; apply returns_bind; intros _.
  apply returns_try_finally, returns_try_catch.
  - apply returns_attempt_try.
  - intros e s r s' E.
    apply (returns_attempt_catch user index retryCount e) in E; apply E.
Qed.

Lemma retry_loop_result user password index :
  forall fuel retryCount r0 s retryCount' res s',
    username r0 = user ->
    retry_loop env fuel user password index retryCount (Some r0) s
      = (Ok (retryCount', res), s') ->
    exists r, res = Some r /\ username r = user.
Proof.
  induction fuel as [ | fuel IH]; intros retryCount r0 s retryCount' res s' U E.
  - inversion E; subst; eauto.
  - simpl in E.
    destruct ((retryCount <=? MAX_RETRIES) && negb (success r0))%bool.
    + apply bind_inv_Ok in E as (_ & s1 & _ & E).
      apply bind_inv_Ok in E as (r1 & s2 & E1 & E).
      apply returns_attemptLogin in E1.
      eapply IH; eauto.
    + inversion E; subst; eauto.
Qed.

Lemma returns_loginWithAccount user password index :
  returns (fun o => outcome_username o = Some user)
          (loginWithAccount env user password index).
Proof.
  intros s o s' E; unfold loginWithAccount, retry_fuel in E.
  change (Z.to_nat MAX_RETRIES + 2)%nat with 4%nat in E.
  apply bind_inv_Ok in E as ([rc res] & s2 & E & Hret).
  inversion Hret; subst; clear Hret.
  rewrite retry_loop_first in E.
  apply bind_inv_Ok in E as (r & s1 & E1 & E).
  apply returns_attemptLogin in E1.
  destruct (retry_loop_result _ _ _ _ _ _ _ _ _ _ E1 E) as (r' & -> & U).
  unfold outcome_username; simpl; rewrite U; reflexivity.
Qed.

(** The batch loop appends one outcome per account, in order. *)
Lemma main_loop_usernames :
  forall rest i total results s rs s',
    main_loop env rest i total results s = (Ok rs, s') ->
    map outcome_username rs =
    (map outcome_username results
       ++ map (fun a => Some (fst a)) rest)%list.
Proof.
  induction rest as [ | [user password] rest IH];
    intros i total results s rs s' E; simpl in E.
  - inversion E; subst; rewrite app_nil_r; reflexivity.
  - apply bind_inv_Ok in E as (o & s1 & Eo & E).
    apply bind_inv_Ok in E as (_ & s2 & _ & E).
    apply IH in E; rewrite E.
    apply returns_loginWithAccount in Eo.
    rewrite map_app; simpl; rewrite Eo, <- app_assoc; reflexivity.
Qed.

(** *** When the session can be opened and closed *)

Lemma total_perform (A : Type) (c : call A) :
  (forall w, exists a, fst (run env c w) = Ok a) -> total (perform env c).
Proof.
  intros H s; destruct (H (world s)) as (a & E).
  rewrite perform_run, E; eauto.
Qed.

Lemma total_sleep ms : total (sleep env ms).
Proof. intros s; eexists _, _; reflexivity. Qed.

Lemma total_sleep_random lo hi : total (sleep_random env lo hi).
Proof. intros s; eexists _, _; reflexivity. Qed.

Lemma total_guarded user password index retryCount :
  total (try_catch (attempt_try env user password index retryCount)
                   (attempt_catch env user index retryCount)).
Proof. apply total_try_catch; intros e; apply total_attempt_catch. Qed.

Lemma total_attemptLogin user password index retryCount :
  session_calls_succeed env ->
  total (attemptLogin env user password index retryCount).
Proof.
  intros H.
  assert (P : forall c : call unit,
             (forall w, fst (run env c w) = Ok tt) -> total (perform env c)).
  { intros c Hc; apply total_perform; intros w; exists tt; apply Hc. }
  unfold attemptLogin; apply total_bind; [ | intros _].
  - unfold open_session.
    apply total_bind; [apply P; intros w; apply (H w) | intros _].
    apply total_bind; [ | intros _]; apply P; intros w; apply (H w).
  - apply total_try_finally; [apply total_guarded | ].
    unfold attempt_finally.
    apply total_bind; [ | intros _]; apply P; intros w; apply (H w).
Qed.

Lemma total_retry_loop user password index :
  session_calls_succeed env ->
  forall fuel retryCount r,
    total (retry_loop env fuel user password index retryCount r).
Proof.
  intros H; induction fuel as [ | fuel IH]; intros retryCount r; simpl.
  - apply total_ret.
  - apply total_if; [ | apply total_ret].
    apply total_bind; [apply total_if; [apply total_sleep | apply total_ret] | ].
    intros _; apply total_bind; [apply total_attemptLogin, H | ].
    intros r'; apply IH.
Qed.

Lemma total_loginWithAccount user password index :
  session_calls_succeed env -> total (loginWithAccount env user password index).
Proof.
  intros H; apply total_bind; [apply total_retry_loop, H | ].
  intros st; apply total_ret.
Qed.

Lemma total_main_loop :
  session_calls_succeed env ->
  forall rest i total_ results, total (main_loop env rest i total_ results).
Proof.
  intros H; induction rest as [ | [user password] rest IH];
    intros i total_ results; simpl.
  - apply total_ret.
  - apply total_bind; [apply total_loginWithAccount, H | intros o].
    apply total_bind; [ | intros _; apply IH].
    apply total_if; [apply total_sleep_random | apply total_ret].
Qed.

(** *** The batch *)

(** For every non-empty list of entries, provided the browser session
    can be opened and closed, the batch loop returns exactly one outcome
    per entry, in the order of the entries, whatever the attempts do
    inside their [try] block; and this is the list the batch run hands on
    when the entries came from the configuration. *)
Lemma batch_gives_one_outcome_per_entry
      (accountEntries : list (string * JSValue)) (s : State W) :
  session_calls_succeed env ->
  accountEntries <> [] ->
  exists rs s',
    main_loop env accountEntries 0
              (Z.of_nat (List.length accountEntries)) [] s = (Ok rs, s') /\
    map outcome_username rs = map (fun a => Some (fst a)) accountEntries /\
    List.length rs = List.length accountEntries /\
    (forall s0, load_accounts env s0 = (Ok accountEntries, s) ->
                run_batch env s0 = (Ok rs, s')).
Proof.
  intros H _.
  destruct (total_main_loop H accountEntries 0
              (Z.of_nat (List.length accountEntries)) [] s) as (rs & s' & E).
  exists rs, s'; split; [exact E | ].
  pose proof (main_loop_usernames _ _ _ _ _ _ _ E) as U; simpl in U.
  split; [exact U | split].
  - apply (f_equal (@List.length _)) in U.
    rewrite !length_map in U; exact U.
  - intros s0 L; unfold run_batch.
    rewrite (bind_Ok _ _ _ _ _ _ _ L); exact E.
Qed.

Lemma set_exitCode_spec c (s : State W) :
  set_exitCode c s = (Ok tt, mkState (world s) (trace s) (Some c)).
Proof. reflexivity. Qed.

Lemma main_catch_spec e (s : State W) :
  exists s',
    main_catch env e s = (Ok tt, s') /\
    exitCode s' = Some 1 /\
    trace s' =
    (trace s ++ [Called (telegram (mkNotification false "初始化"
                                     (err_message e) None "N/A"))])%list.
Proof.
  unfold main_catch.
  match goal with
  | |- context [notifyTelegram env ?n] =>
      destruct (notifyTelegram_spec n s) as (s1 & E1 & T1 & _)
  end.
  rewrite (bind_Ok _ _ _ _ _ _ _ E1), set_exitCode_spec.
  eexists; split; [reflexivity | simpl; auto].
Qed.

Lemma main_after_batch rs (s s1 : State W) :
  run_batch env s = (Ok rs, s1) ->
  exists s',
    main env s = (Ok tt, s') /\
    exitCode s' =
    Some (if existsb (fun r => negb (outcome_success r)) rs then 1 else 0).
Proof.
  intros E; unfold main, main_try.
  destruct (sendSummaryNotification_spec rs s1) as (s2 & E2 & _).
  destruct (existsb (fun r => negb (outcome_success r)) rs) eqn:X.
  - erewrite try_catch_Ok.
    2:{ rewrite (bind_Ok _ _ _ _ _ _ _ E), (bind_Ok _ _ _ _ _ _ _ E2), X.
        apply set_exitCode_spec. }
    eexists; split; reflexivity.
  - erewrite try_catch_Ok.
    2:{ rewrite (bind_Ok _ _ _ _ _ _ _ E), (bind_Ok _ _ _ _ _ _ _ E2), X.
        apply set_exitCode_spec. }
    eexists; split; reflexivity.
Qed.

Lemma main_after_throw e (s s1 : State W) :
  run_batch env s = (Throw e, s1) ->
  exists s',
    main env s = (Ok tt, s') /\
    exitCode s' = Some 1 /\
    trace s' =
    (trace s1 ++ [Called (telegram (mkNotification false "初始化"
                                      (err_message e) None "N/A"))])%list.
Proof.
  intros E; unfold main, main_try.
  erewrite try_catch_Throw by (apply bind_Throw; exact E).
  apply main_catch_spec.
Qed.

Lemma all_succeed_iff rs :
  existsb (fun r => negb (outcome_success r)) rs = false <->
  (forall o, In o rs -> outcome_success o = true).
Proof.
  induction rs as [ | o rs IH]; simpl.
  - split; [intros _ o [] | reflexivity].
  - rewrite orb_false_iff, IH, negb_false_iff; split.
    + intros [H1 H2] o' [<- | Hin]; auto.
    + intros H; split; [apply H | intros o' Hin; apply H]; auto.
Qed.

(** C6.  [main] always ends with an exit code.  The code is 0 exactly
    when the batch ran to its end and every outcome is a success; it is 1
    when some outcome is a failure, and when the batch was abandoned, be
    it at the validation of the configuration or later. *)
Theorem exit_code_zero_iff_all_succeed (s : State W) :
  exists s',
    main env s = (Ok tt, s') /\
    (exitCode s' = Some 0 <->
     exists rs s1, run_batch env s = (Ok rs, s1) /\
                   forall o, In o rs -> outcome_success o = true) /\
    ((exists rs s1 o, run_batch env s = (Ok rs, s1) /\ In o rs /\
                      outcome_success o = false) ->
     exitCode s' = Some 1) /\
    ((exists e s1, load_accounts env s = (Throw e, s1)) ->
     exitCode s' = Some 1) /\
    ((exists e s1, run_batch env s = (Throw e, s1)) ->
     exitCode s' = Some 1).
Proof.
  destruct (run_batch env s) as [[rs | e] s1] eqn:E.
  - destruct (main_after_batch rs s s1 E) as (s' & Em & Ec).
    exists s'; split; [exact Em | ].
    assert (NoLoad : ~ exists e s1', load_accounts env s = (Throw e, s1')).
    { intros (e & s1' & L); unfold run_batch in E.
      rewrite (bind_Throw _ _ _ _ _ _ _ L) in E; discriminate. }
    rewrite Ec; split; [ | split; [ | split]].
    + split.
      * intros X; exists rs, s1; split; [reflexivity | ].
        apply all_succeed_iff.
        destruct (existsb _ rs); [discriminate | reflexivity].
      * intros (rs' & s1' & E' & All); inversion E'; subst.
        rewrite (proj2 (all_succeed_iff _) All); reflexivity.
    + intros (rs' & s1' & o & E' & Hin & Ho); inversion E'; subst.
      destruct (existsb _ rs') eqn:X; [reflexivity | ].
      rewrite (proj1 (all_succeed_iff _) X o Hin) in Ho; discriminate.
    + intros H; destruct (NoLoad H).
    + intros (e & s1' & E'); discriminate.
  - destruct (main_after_throw e s s1 E) as (s' & Em & Ec & _).
    exists s'; split; [exact Em | ].
    rewrite Ec; split; [ | split; [ | split]]; auto.
    split; [discriminate | ].
    intros (rs' & s1' & E' & _); discriminate.
Qed.

(** *** Start-up validation *)

Lemma envOrThrow_set name c rest (s : State W) :
  process_env env name (world s) = Some (String c rest) ->
  envOrThrow env name s = (Ok (String c rest), s).
Proof. intros H; unfold envOrThrow, bind, getenv; rewrite H; reflexivity. Qed.

Lemma envOrThrow_unset name (s : State W) :
  process_env env name (world s) = None \/
  process_env env name (world s) = Some EmptyString ->
  envOrThrow env name s =
  (Throw (new_Error ("环境变量 " ++ name ++ " 未设置")), s).
Proof.
  intros [H | H]; unfold envOrThrow, bind, getenv; rewrite H; reflexivity.
Qed.

Lemma load_accounts_rejects (s : State W) :
  rejected_config env (world s) ->
  exists e, load_accounts env s = (Throw e, s).
Proof.
  intros R; unfold load_accounts.
  assert (Empty : forall v, process_env env "USERNAME_AND_PASSWORD" (world s)
                            = Some v -> v = EmptyString ->
                  exists e, load_accounts env s = (Throw e, s)).
  { intros v Hv ->; eexists; unfold load_accounts.
    apply bind_Throw, envOrThrow_unset; auto. }
  destruct R as [H | v H P | v H P | v a H P T | v a H P T O];
    try (destruct v as [ | c rest]; [apply (Empty _ H eq_refl) | ]).
  - eexists; apply bind_Throw, envOrThrow_unset; auto.
  - rewrite (bind_Ok _ _ _ _ _ _ _ (envOrThrow_set _ _ _ _ H)), P.
    eexists; reflexivity.
  - rewrite (bind_Ok _ _ _ _ _ _ _ (envOrThrow_set _ _ _ _ H)), P.
    eexists; reflexivity.
  - rewrite (bind_Ok _ _ _ _ _ _ _ (envOrThrow_set _ _ _ _ H)), P.
    destruct a; try (eexists; reflexivity); destruct T; reflexivity.
  - rewrite (bind_Ok _ _ _ _ _ _ _ (envOrThrow_set _ _ _ _ H)), P.
    destruct a; try discriminate; try (eexists; reflexivity);
      unfold bind, ret; simpl; simpl in O; rewrite O;
      eexists; reflexivity.
Qed.

(** C7.  When the configuration is absent, is no JSON, parses to [null],
    to a non-object or to an object without entries, [main] ends with
    exit code 1 after one thing only: the notification of the
    initialization failure.  The validation has thrown, and nothing was
    asked of the browser driver. *)
Theorem rejected_config_fails_fast (s : State W) :
  rejected_config env (world s) ->
  exists e n s',
    load_accounts env s = (Throw e, s) /\
    main env s = (Ok tt, s') /\
    exitCode s' = Some 1 /\
    trace s' = (trace s ++ [Called (telegram n)])%list /\
    ok n = false /\ stage n = "初始化" /\ msg n = err_message e /\
    extends (fun x => negb (is_driver_call x)) s s'.
Proof.
  intros R; destruct (load_accounts_rejects s R) as (e & L).
  assert (B : run_batch env s = (Throw e, s)).
  { unfold run_batch; apply bind_Throw, L. }
  destruct (main_after_throw e s s B) as (s' & Em & Ec & Et).
  exists e, (mkNotification false "初始化" (err_message e) None "N/A"), s'.
  repeat (split; [assumption || reflexivity | ]).
  eexists; split; [exact Et | reflexivity].
Qed.

Lemma index_from_fst items :
  forall n, map fst (index_from n items)
            = map JsString.of_nat (seq n (List.length items)).
Proof.
  induction items as [ | v items IH]; intros n; simpl; [reflexivity | ].
  rewrite IH; reflexivity.
Qed.

Lemma index_from_snd items : forall n, map snd (index_from n items) = items.
Proof.
  induction items as [ | v items IH]; intros n; simpl; [reflexivity | ].
  rewrite IH; reflexivity.
Qed.

(** C10 (amended).  A configuration value that parses to a JSON array
    with at least one element passes the validation: the accounts are the
    elements, each under its index written in decimal, and the batch loop
    runs over them. *)
Theorem nonempty_array_config_is_accepted v items (s : State W) :
  process_env env "USERNAME_AND_PASSWORD" (world s) = Some v ->
  v <> EmptyString ->
  JSON_parse env v = Some (JArr items) ->
  items <> [] ->
  load_accounts env s = (Ok (index_from 0 items), s) /\
  map fst (index_from 0 items)
    = map JsString.of_nat (seq 0 (List.length items)) /\
  map snd (index_from 0 items) = items /\
  run_batch env s =
  main_loop env (index_from 0 items) 0
            (Z.of_nat (List.length (index_from 0 items))) [] s.
Proof.
  intros H Hv P Hi.
  assert (L : load_accounts env s = (Ok (index_from 0 items), s)).
  { unfold load_accounts.
    destruct v as [ | c rest]; [congruence | ].
    rewrite (bind_Ok _ _ _ _ _ _ _ (envOrThrow_set _ _ _ _ H)), P.
    destruct items as [ | i items]; [congruence | reflexivity]. }
  split; [exact L | split; [apply index_from_fst | split]].
  - apply index_from_snd.
  - unfold run_batch; rewrite (bind_Ok _ _ _ _ _ _ _ L); reflexivity.
Qed.

(** *** Faults *)

(** C8 (amended).  An error thrown inside the [try] block of an attempt,
    from opening the login page to the classification, is caught there:
    the [catch] block returns a failure whose message is the error's
    message behind a fixed prefix.  Whether the attempt hands this result
    on is then up to the [finally] block alone: if closing the session
    throws, that error replaces the result and leaves the attempt.  When
    the session can always be opened and closed, no attempt, no account
    and no batch loop throws. *)
Theorem fault_in_try_block_becomes_failure
        user password index retryCount (s0 s s1 : State W) e :
  open_session env s0 = (Ok tt, s) ->
  attempt_try env user password index retryCount s = (Throw e, s1) ->
  let failure := mkResult false user ("异常: " ++ err_message e) in
  exists s2,
    try_catch (attempt_try env user password index retryCount)
              (attempt_catch env user index retryCount) s
      = (Ok failure, s2) /\
    (forall s3, attempt_finally env s2 = (Ok tt, s3) ->
                attemptLogin env user password index retryCount s0
                  = (Ok failure, s3)) /\
    (forall e' s3, attempt_finally env s2 = (Throw e', s3) ->
                   attemptLogin env user password index retryCount s0
                     = (Throw e', s3)) /\
    (session_calls_succeed env ->
     (exists s3, attemptLogin env user password index retryCount s0
                   = (Ok failure, s3)) /\
     total (loginWithAccount env user password index) /\
     forall rest i n rs, total (main_loop env rest i n rs)).
Proof.
  intros Ho Et failure.
  destruct (attempt_catch_spec user index retryCount e s1) as (s2 & Ec).
  assert (G : try_catch (attempt_try env user password index retryCount)
                        (attempt_catch env user index retryCount) s
              = (Ok failure, s2)).
  { rewrite (try_catch_Throw _ _ _ _ _ _ Et); exact Ec. }
  exists s2; split; [exact G | ].
  assert (A : forall r s3, attempt_finally env s2 = (r, s3) ->
               attemptLogin env user password index retryCount s0 =
               (match r with Ok _ => Ok failure | Throw e' => Throw e' end,
                s3)).
  { intros r s3 F; unfold attemptLogin.
    rewrite (bind_Ok _ _ _ _ _ _ _ Ho); unfold try_finally.
    rewrite G, F; destruct r as [[] | e']; reflexivity. }
  split; [intros s3 F; apply (A _ _ F) | ].
  split; [intros e' s3 F; apply (A _ _ F) | ].
  intros H; split; [ | split].
  - destruct (total_attemptLogin user password index retryCount H s0)
      as (r & s3 & E).
    destruct (attempt_finally env s2) as [[[] | e'] sf] eqn:F.
    + exists sf; apply (A _ _ eq_refl).
    + rewrite (A _ _ eq_refl) in E; discriminate.
  - apply total_loginWithAccount, H.
  - apply total_main_loop, H.
Qed.

(** *** The classification on a settled page *)

Lemma perform_count n sel (s : State W) :
  counts env (world s) n ->
  perform env (locator_count (Locator sel)) s =
  (Ok (n sel),
   mkState (world s) (trace s ++ [count_entry sel]) (exitCode s)).
Proof. intros C; rewrite perform_run, C; reflexivity. Qed.

Lemma scan_success_spec n :
  forall sels hint (s : State W),
    counts env (world s) n ->
    exists h,
      scan_success env sels hint s =
      (Ok h, mkState (world s)
                     (trace s ++ map count_entry (scanned n sels))
                     (exitCode s)) /\
      Nat.ltb 0 h =
      (Nat.ltb 0 hint || existsb (fun sel => Nat.ltb 0 (n sel)) sels)%bool.
Proof.
  induction sels as [ | sel rest IH]; intros hint s C; simpl.
  - exists hint; split.
    + rewrite app_nil_r; destruct s; reflexivity.
    + rewrite orb_false_r; reflexivity.
  - rewrite (bind_Ok _ _ _ _ _ _ _ (perform_count n sel s C)).
    destruct (Nat.ltb 0 (n sel)) eqn:Hn.
    + exists (hint + n sel)%nat; split; [reflexivity | ].
      rewrite orb_true_r; apply Nat.ltb_lt; apply Nat.ltb_lt in Hn; lia.
    + destruct (IH (hint + n sel)%nat
                   (mkState (world s) (trace s ++ [count_entry sel])
                            (exitCode s)) C) as (h & E & Hh).
      exists h; split.
      * rewrite E; simpl; rewrite <- app_assoc; reflexivity.
      * rewrite Hh; simpl; apply Nat.ltb_ge in Hn.
        replace (hint + n sel)%nat with hint by lia; reflexivity.
Qed.

Lemma returns_failure_branch user spAfter :
  returns (fun r => success r = false)
    (errorMsg <- scan_errors env errorSelectors EmptyString ;;
     errorMsg <- generic_error env errorMsg ;;
     notifyTelegram env
       (mkNotification false "登录结果"
          (if JsString.truthy errorMsg then "登录失败: " ++ errorMsg
           else "登录失败（原因未知）")
          (Some spAfter) user) ;;
     ret (mkResult false user
            (if JsString.truthy errorMsg then errorMsg else "登录失败"))).
Proof.
  apply returns_bind; intros m1; apply returns_bind; intros m2.
  apply returns_bind; intros _; apply returns_ret; reflexivity.
Qed.

(** The success branch, with the log it leaves. *)
Lemma classify_success user spAfter (s : State W) n :
  counts env (world s) n ->
  verdict (page_url env (world s)) n = true ->
  exists s',
    classify env user spAfter s = (Ok (mkResult true user "登录成功"), s') /\
    trace s' =
    (trace s ++ map count_entry (scanned n successSelectors)
       ++ [Called (telegram
                     (mkNotification true "登录结果"
                        ("判断为成功。当前 URL：" ++ page_url env (world s))
                        (Some spAfter) user))])%list.
Proof.
  intros C V; unfold classify.
  destruct (scan_success_spec n successSelectors 0%nat s C) as (h & E & Hh).
  unfold bind at 1, get_url at 1.
  rewrite (bind_Ok _ _ _ _ _ _ _ E), Hh.
  unfold verdict in V; simpl (Nat.ltb 0 0); rewrite orb_false_l, V.
  match goal with
  | |- context [notifyTelegram env ?m ;; _] =>
      destruct (notifyTelegram_spec m
                  (mkState (world s)
                     (trace s ++ map count_entry (scanned n successSelectors))
                     (exitCode s))) as (s2 & E2 & T2 & _)
  end.
  rewrite (bind_Ok _ _ _ _ _ _ _ E2).
  exists s2; split; [reflexivity | ].
  rewrite T2; simpl; rewrite <- app_assoc; reflexivity.
Qed.

(** The status an attempt reports for the classification: a fault in
    the failure branch ends in the [catch] block, which reports a failure
    as well. *)
Lemma classify_status user spAfter index retryCount (s : State W) n :
  counts env (world s) n ->
  exists r s',
    try_catch (classify env user spAfter)
              (attempt_catch env user index retryCount) s = (Ok r, s') /\
    success r = verdict (page_url env (world s)) n.
Proof.
  intros C; destruct (verdict (page_url env (world s)) n) eqn:V.
  - destruct (classify_success user spAfter s n C V) as (s' & E & _).
    eexists _, s'; split; [apply try_catch_Ok, E | reflexivity].
  - unfold try_catch.
    destruct (classify env user spAfter s) as [[r | e] s1] eqn:E.
    + exists r, s1; split; [reflexivity | ].
      unfold classify in E.
      destruct (scan_success_spec n successSelectors 0%nat s C)
        as (h & Eh & Hh).
      unfold bind at 1, get_url at 1 in E.
      rewrite (bind_Ok _ _ _ _ _ _ _ Eh), Hh in E.
      unfold verdict in V; simpl (Nat.ltb 0 0) in E.
      rewrite orb_false_l, V in E.
      exact (returns_failure_branch user spAfter _ _ _ E).
    + destruct (attempt_catch_spec user index retryCount e s1) as (s2 & E2).
      eexists _, s2; split; [exact E2 | reflexivity].
Qed.

Lemma long_truthy x :
  (1 < JsString.length x)%nat -> JsString.truthy x = true.
Proof. destruct x; simpl; [lia | reflexivity]. Qed.

Lemma perform_first_text t sel (s : State W) :
  first_texts env (world s) t ->
  perform env (locator_innerText (First (Locator sel))) s =
  (t sel,
   mkState (world s)
           (trace s ++ [Called (locator_innerText (First (Locator sel)))])
           (exitCode s)).
Proof. intros T; rewrite perform_run, T; reflexivity. Qed.

(** The error scan returns the text of the first selector that matches
    with more than one character, whatever it passed before. *)
Lemma scan_errors_first_long n t sel post txt :
  (0 < n sel)%nat ->
  t sel = Ok txt ->
  (1 < JsString.length txt)%nat ->
  forall pre errorMsg (s : State W),
    counts env (world s) n ->
    first_texts env (world s) t ->
    (forall x, In x pre -> n x = 0%nat \/ weak (t x)) ->
    exists s',
      scan_errors env (pre ++ sel :: post) errorMsg s = (Ok txt, s') /\
      world s' = world s /\ exitCode s' = exitCode s.
Proof.
  intros Hn Ht Hl; induction pre as [ | x pre IH];
    intros errorMsg s C T P; simpl.
  - rewrite (bind_Ok _ _ _ _ _ _ _ (perform_count n sel s C)).
    apply Nat.ltb_lt in Hn; rewrite Hn.
    erewrite bind_Ok.
    2:{ apply try_catch_Ok; rewrite (perform_first_text t) by exact T.
        rewrite Ht; reflexivity. }
    rewrite (long_truthy _ Hl).
    apply Nat.ltb_lt in Hl; rewrite Hl; simpl.
    eexists; split; [reflexivity | split; reflexivity].
  - rewrite (bind_Ok _ _ _ _ _ _ _ (perform_count n x s C)).
    assert (P' : forall y, In y pre -> n y = 0%nat \/ weak (t y)).
    { intros y Hy; apply P; right; exact Hy. }
    destruct (Nat.ltb 0 (n x)) eqn:Hx.
    + assert (Wx : weak (t x)).
      { destruct (P x (or_introl eq_refl)) as [Z | Wx]; [ | exact Wx].
        apply Nat.ltb_lt in Hx; lia. }
      unfold bind at 1, try_catch at 1.
      rewrite (perform_first_text t) by exact T.
      destruct (t x) as [tx | ex]; simpl in Wx.
      * replace (Nat.ltb 1 (JsString.length tx)) with false
          by (symmetry; apply Nat.ltb_ge; exact Wx).
        rewrite andb_false_r.
        match goal with
        | |- context [scan_errors env _ _ ?s1] =>
            destruct (IH tx s1 C T P') as (s' & E & Hw & Hc)
        end.
        exists s'; split; [exact E | split; assumption].
      * simpl.
        match goal with
        | |- context [scan_errors env _ _ ?s1] =>
            destruct (IH EmptyString s1 C T P') as (s' & E & Hw & Hc)
        end.
        exists s'; split; [exact E | split; assumption].
    + match goal with
      | |- context [scan_errors env _ _ ?s1] =>
          destruct (IH errorMsg s1 C T P') as (s' & E & Hw & Hc)
      end.
      exists s'; split; [exact E | split; assumption].
Qed.

(** The failure branch: the reason is the first matched text of more
    than one character. *)
Lemma classify_failure_reason user spAfter (s : State W) n t pre sel post txt :
  counts env (world s) n ->
  first_texts env (world s) t ->
  verdict (page_url env (world s)) n = false ->
  errorSelectors = (pre ++ sel :: post)%list ->
  (0 < n sel)%nat ->
  t sel = Ok txt ->
  (1 < JsString.length txt)%nat ->
  (forall x, In x pre -> n x = 0%nat \/ weak (t x)) ->
  exists s', classify env user spAfter s = (Ok (mkResult false user txt), s').
Proof.
  intros C T V Sel Hn Ht Hl P; unfold classify.
  destruct (scan_success_spec n successSelectors 0%nat s C) as (h & Eh & Hh).
  unfold bind at 1, get_url at 1.
  rewrite (bind_Ok _ _ _ _ _ _ _ Eh), Hh.
  unfold verdict in V; simpl (Nat.ltb 0 0); rewrite orb_false_l, V.
  rewrite Sel.
  match goal with
  | |- context [scan_errors env _ _] =>
      destruct (scan_errors_first_long n t sel post txt Hn Ht Hl pre
                  EmptyString
                  (mkState (world s)
                     (trace s ++ map count_entry (scanned n successSelectors))
                     (exitCode s)) C T P) as (s1 & E1 & _)
  end.
  rewrite (bind_Ok _ _ _ _ _ _ _ E1).
  unfold generic_error; rewrite (long_truthy _ Hl).
  unfold bind at 1, ret at 1.
  match goal with
  | |- context [notifyTelegram env ?m ;; _] =>
      destruct (notifyTelegram_spec m s1) as (s2 & E2 & _)
  end.
  rewrite (bind_Ok _ _ _ _ _ _ _ E2), (long_truthy _ Hl).
  exists s2; reflexivity.
Qed.

End Script_facts.

(** ** The fuel of [smartWait] *)

Section Clock.

Context {W : Type} (env : Env W).

Lemma keeps_time_perform (A : Type) (c : call A) :
  clock_monotone env -> keeps_time env (perform env c).
Proof. intros C s; rewrite perform_run; simpl; apply C. Qed.

Lemma keeps_time_inputs_visible :
  clock_monotone env -> keeps_time env (inputs_visible env).
Proof.
  intros C s; unfold inputs_visible, bind.
  pose proof (keeps_time_perform _ (locator_isVisible userInput) C s) as H1.
  destruct (perform env (locator_isVisible userInput) s) as [[[ | ] | e] s1];
    simpl in *; auto.
  pose proof (keeps_time_perform _ (locator_isVisible passInput) C s1) as H2.
  lia.
Qed.

Lemma smartWait_loop_pass fuel condition startTime timeout checkInterval
      (s : State W) :
  smartWait_loop env (S fuel) condition startTime timeout checkInterval s =
  if Date_now env (world s) - startTime <? timeout then
    (found <- try_catch condition (fun _ => ret false) ;;
     if found then ret true
     else
       perform env (page_waitForTimeout checkInterval) ;;
       smartWait_loop env fuel condition startTime timeout checkInterval) s
  else (Ok false, s).
Proof.
  cbn [smartWait_loop]; unfold bind at 1, get_now.
  destruct (Date_now env (world s) - startTime <? timeout); reflexivity.
Qed.

(** Two supplies of fuel that both cover the time left to the deadline
    give the same run. *)
Lemma smartWait_loop_fuel condition startTime timeout checkInterval :
  timer_waits env ->
  keeps_time env condition ->
  0 < checkInterval ->
  forall f1 f2 (s : State W),
    startTime + timeout - Date_now env (world s)
      <= Z.of_nat f1 * checkInterval ->
    startTime + timeout - Date_now env (world s)
      <= Z.of_nat f2 * checkInterval ->
    smartWait_loop env (S f1) condition startTime timeout checkInterval s =
    smartWait_loop env (S f2) condition startTime timeout checkInterval s.
Proof.
  intros Tw Kc Hi; induction f1 as [ | f1 IH]; intros f2 s H1 H2;
    rewrite !smartWait_loop_pass;
    destruct (Date_now env (world s) - startTime <? timeout) eqn:D;
    try reflexivity; apply Z.ltb_lt in D; [simpl in H1; lia | ].
  destruct f2 as [ | f2]; [lia | ].
  unfold bind at 1 3.
  pose proof (Kc s) as K.
  assert (K' : Date_now env (world s)
               <= Date_now env
                    (world (snd (try_catch condition
                                   (fun _ => @ret W bool false) s)))).
  { unfold try_catch; destruct (condition s) as [[b | e] s1]; exact K. }
  destruct (try_catch condition (fun _ => ret false) s) as [[found | e] s1];
    [ | reflexivity].
  destruct found; [reflexivity | ].
  unfold bind; rewrite perform_run.
  destruct (run env (page_waitForTimeout checkInterval) (world s1))
    as [[[] | e] w2] eqn:R; [ | reflexivity].
  apply Tw in R; cbn [world snd fst] in *.
  rewrite Nat2Z.inj_succ in H1, H2.
  apply IH; cbn [world]; nia.
Qed.

(** The fuel [smartWait] is given covers its deadline: more fuel changes
    nothing. *)
Lemma smartWait_fuel_enough condition timeout checkInterval extra
      (s : State W) :
  timer_waits env ->
  keeps_time env condition ->
  0 < checkInterval ->
  smartWait_loop env (smartWait_fuel timeout checkInterval + extra)
                 condition (Date_now env (world s)) timeout checkInterval s =
  smartWait env condition timeout checkInterval s.
Proof.
  intros Tw Kc Hi; unfold smartWait, smartWait_fuel.
  unfold bind at 1, get_now at 1.
  replace (Z.to_nat (timeout / checkInterval) + 2 + extra)%nat
    with (S (Z.to_nat (timeout / checkInterval) + 1 + extra)) by lia.
  replace (Z.to_nat (timeout / checkInterval) + 2)%nat
    with (S (Z.to_nat (timeout / checkInterval) + 1)) by lia.
  assert (B : timeout <= (Z.of_nat (Z.to_nat (timeout / checkInterval)) + 1)
                         * checkInterval).
  { destruct (Z_lt_le_dec timeout 0) as [N | P].
    - assert (0 <= Z.of_nat (Z.to_nat (timeout / checkInterval))) by lia.
      nia.
    - rewrite Z2Nat.id by (apply Z.div_pos; lia).
      pose proof (Z.mul_succ_div_gt timeout checkInterval Hi).
      lia. }
  apply smartWait_loop_fuel; auto; nia.
Qed.

(** The wait of the script, for the visibility of the two inputs. *)
Lemma smartWait_inputs_fuel_enough extra (s : State W) :
  clock_monotone env ->
  timer_waits env ->
  smartWait_loop env (smartWait_fuel 30000 1000 + extra)
                 (inputs_visible env) (Date_now env (world s)) 30000 1000 s =
  smartWait env (inputs_visible env) 30000 1000 s.
Proof.
  intros C T; apply smartWait_fuel_enough;
    [exact T | apply keeps_time_inputs_visible, C | lia].
Qed.

End Clock.

(** ** The classification in the simulated browser *)

Lemma sim_counts w : counts calm w (matched w).
Proof. intros sel; reflexivity. Qed.

Lemma sim_first_texts w : first_texts calm w (first_text w).
Proof.
  intros sel; unfold first_text; simpl; unfold Sim.run, Sim.reliable.
  unfold Sim.answer.
  destruct (Sim.resolve (First (Locator sel)) (Sim.current w))
    as [ | e [ | e' l]]; reflexivity.
Qed.

Lemma matched_text_re w alts :
  matched w (text_re alts)
  = List.length (filter (JsString.test_alt_ci alts) (page_texts w)).
Proof.
  unfold matched, page_texts; simpl.
  induction (Sim.doc_elements (Sim.current w)) as [ | e l IH]; simpl;
    [reflexivity | ].
  destruct (JsString.test_alt_ci alts (Sim.innerText e)); simpl; rewrite IH;
    reflexivity.
Qed.

Lemma matched_positive w sel e :
  In e (Sim.doc_elements (Sim.current w)) ->
  Sim.matches sel e = true ->
  match sel with css _ => True | _ => (0 < matched w sel)%nat end.
Proof.
  intros Hin Hm; destruct sel; auto; unfold matched; simpl;
    (assert (F : In e (filter (Sim.matches _)
                              (Sim.doc_elements (Sim.current w))))
      by (apply filter_In; split; [exact Hin | exact Hm]));
    destruct (filter _ _); [destruct F | simpl; lia | destruct F | simpl; lia
                           | destruct F | simpl; lia].
Qed.

Lemma existsb_agree (A : Type) (f g : A -> bool) l :
  (forall x, In x l -> f x = g x) -> existsb f l = existsb g l.
Proof.
  induction l as [ | a l IH]; intros H; simpl; [reflexivity | ].
  rewrite (H a (or_introl eq_refl)), IH; [reflexivity | ].
  intros x Hx; apply H; right; exact Hx.
Qed.

Lemma verdict_agree url n1 n2 :
  (forall sel, In sel successSelectors -> n1 sel = n2 sel) ->
  verdict url n1 = verdict url n2.
Proof.
  intros H; unfold verdict; f_equal.
  apply existsb_agree; intros sel Hs; rewrite (H sel Hs); reflexivity.
Qed.

Lemma verdict_true url n :
  stillOnLogin url = false \/
  (exists sel, In sel successSelectors /\ (0 < n sel)%nat) ->
  verdict url n = true.
Proof.
  unfold verdict; intros [H | (sel & Hin & Hn)].
  - rewrite H; reflexivity.
  - apply orb_true_iff; right; apply existsb_exists.
    exists sel; split; [exact Hin | apply Nat.ltb_lt, Hn].
Qed.

Lemma verdict_false url n :
  stillOnLogin url = true ->
  (forall sel, In sel successSelectors -> n sel = 0%nat) ->
  verdict url n = false.
Proof.
  unfold verdict; intros H Z; rewrite H.
  rewrite (existsb_agree _ _ (fun _ => false)).
  - reflexivity.
  - intros sel Hs; rewrite (Z sel Hs); reflexivity.
Qed.

(** The success selectors only look at texts. *)
Lemma success_counts_from_texts w1 w2 :
  page_texts w1 = page_texts w2 ->
  forall sel, In sel successSelectors -> matched w1 sel = matched w2 sel.
Proof.
  intros T sel Hs; unfold successSelectors in Hs; simpl in Hs.
  repeat (destruct Hs as [<- | Hs];
          [rewrite !matched_text_re, T; reflexivity | ]).
  destruct Hs.
Qed.

(** C3.  On a settled page the classification returns a success as soon
    as the address no longer matches the login path or one of the success
    selectors has a match.  The log shows the order of the checks: the
    success selectors are counted in their order up to the first one that
    matches, the success is notified, and no error selector, text or
    title is looked at.  In the simulated browser: a page still at the
    login address with an element whose text contains Welcome is a
    success, and so is a page at another address with no success phrase
    at all. *)
Theorem success_rule_checked_first :
  (forall (W : Type) (env : Env W) user spAfter (s : State W) n,
      counts env (world s) n ->
      stillOnLogin (page_url env (world s)) = false \/
      (exists sel, In sel successSelectors /\ (0 < n sel)%nat) ->
      exists s',
        classify env user spAfter s
          = (Ok (mkResult true user "登录成功"), s') /\
        trace s' =
        (trace s ++ map count_entry (scanned n successSelectors)
           ++ [Called (telegram
                         (mkNotification true "登录结果"
                            ("判断为成功。当前 URL："
                               ++ page_url env (world s))
                            (Some spAfter) user))])%list) /\
  (forall user spAfter (s : State Sim.World) e,
      stillOnLogin (Sim.doc_url (Sim.current (world s))) = true ->
      In e (Sim.doc_elements (Sim.current (world s))) ->
      JsString.test_ci "Welcome" (Sim.innerText e) = true ->
      exists s',
        classify calm user spAfter s
          = (Ok (mkResult true user "登录成功"), s')) /\
  (forall user spAfter (s : State Sim.World),
      stillOnLogin (Sim.doc_url (Sim.current (world s))) = false ->
      (forall sel, In sel successSelectors ->
                   matched (world s) sel = 0%nat) ->
      exists s',
        classify calm user spAfter s
          = (Ok (mkResult true user "登录成功"), s')).
Proof.
  split; [ | split].
  - intros W env user spAfter s n C H.
    apply classify_success; [exact C | apply verdict_true, H].
    - intros user spAfter s e _ Hin Ht.
    destruct (classify_success calm user spAfter s (matched (world s))
                (sim_counts _)) as (s' & E & _).
    + apply verdict_true; right.
      exists (text_re ["Welcome"; "欢迎"]); split.
      * unfold successSelectors; simpl; auto.
      * apply (matched_positive (world s) (text_re ["Welcome"; "欢迎"]) e Hin).
        simpl; unfold JsString.test_alt_ci; simpl; rewrite Ht; reflexivity.
    + exists s'; exact E.
    - intros user spAfter s Hu _.
    destruct (classify_success calm user spAfter s (matched (world s))
                (sim_counts _)) as (s' & E & _).
    + apply verdict_true; left; exact Hu.
    + exists s'; exact E.
Qed.

(** C4 (amended).  On a settled page still at the login address and
    without a success phrase, if some error selector, in the order of
    the list, has a first match whose text is longer than one character,
    the selectors before it matching nothing or giving at most one
    character (or no text), then that text is the failure reason.  The
    text is the whole inner text of the first element the selector
    matches: in the simulated browser, the reason is the text of the
    first element that contains a phrase of the first error pattern,
    when it is longer than one character. *)
Theorem failure_reason_is_first_long_text :
  (forall (W : Type) (env : Env W) user spAfter (s : State W)
          n t pre sel post txt,
      counts env (world s) n ->
      first_texts env (world s) t ->
      stillOnLogin (page_url env (world s)) = true ->
      (forall x, In x successSelectors -> n x = 0%nat) ->
      errorSelectors = (pre ++ sel :: post)%list ->
      (0 < n sel)%nat ->
      t sel = Ok txt ->
      (1 < JsString.length txt)%nat ->
      (forall x, In x pre -> n x = 0%nat \/ weak (t x)) ->
      exists s',
        classify env user spAfter s = (Ok (mkResult false user txt), s')) /\
  (forall user spAfter (s : State Sim.World) e rest,
      stillOnLogin (Sim.doc_url (Sim.current (world s))) = true ->
      (forall x, In x successSelectors -> matched (world s) x = 0%nat) ->
      filter (Sim.matches (hd (css EmptyString) errorSelectors))
             (Sim.doc_elements (Sim.current (world s))) = e :: rest ->
      (1 < JsString.length (Sim.innerText e))%nat ->
      exists s',
        classify calm user spAfter s
          = (Ok (mkResult false user (Sim.innerText e)), s')).
Proof.
  split.
  - intros W env user spAfter s n t pre sel post txt C T U Z Sel Hn Ht Hl P.
    eapply classify_failure_reason; eauto.
    apply verdict_false; assumption.
  - intros user spAfter s e rest U Z F Hl.
    apply (classify_failure_reason calm user spAfter s
             (matched (world s)) (first_text (world s)) []
             (hd (css EmptyString) errorSelectors)
             (tl errorSelectors) (Sim.innerText e)).
    + apply sim_counts.
    + apply sim_first_texts.
    + apply verdict_false; assumption.
    + reflexivity.
    + unfold matched; simpl in *; rewrite F; simpl; lia.
    + unfold first_text, Sim.run; simpl in *; rewrite F; reflexivity.
    + exact Hl.
    + intros x [].
Qed.

(** C9.  The status reported for the classification of a settled page is
    a function of the address and of the counts of the success selectors:
    two page states that agree on these get the same status, whatever
    else differs (the account, the retry, the rest of the page, the
    outside world).  In the simulated browser the counts are a function
    of the texts of the page, so two pages with the same address and the
    same texts get the same status. *)
Theorem classification_is_a_function_of_address_and_text :
  (forall (W1 W2 : Type) (env1 : Env W1) (env2 : Env W2)
          user1 user2 sp1 sp2 index1 index2 retry1 retry2
          (s1 : State W1) (s2 : State W2) n1 n2,
      counts env1 (world s1) n1 ->
      counts env2 (world s2) n2 ->
      page_url env1 (world s1) = page_url env2 (world s2) ->
      (forall sel, In sel successSelectors -> n1 sel = n2 sel) ->
      exists r1 s1' r2 s2',
        try_catch (classify env1 user1 sp1)
                  (attempt_catch env1 user1 index1 retry1) s1
          = (Ok r1, s1') /\
        try_catch (classify env2 user2 sp2)
                  (attempt_catch env2 user2 index2 retry2) s2
          = (Ok r2, s2') /\
        success r1 = success r2 /\
        success r1 = verdict (page_url env1 (world s1)) n1) /\
  (forall user1 user2 sp1 sp2 index1 index2 retry1 retry2
          (s1 s2 : State Sim.World),
      Sim.doc_url (Sim.current (world s1))
        = Sim.doc_url (Sim.current (world s2)) ->
      page_texts (world s1) = page_texts (world s2) ->
      exists r1 s1' r2 s2',
        try_catch (classify calm user1 sp1)
                  (attempt_catch calm user1 index1 retry1) s1
          = (Ok r1, s1') /\
        try_catch (classify calm user2 sp2)
                  (attempt_catch calm user2 index2 retry2) s2
          = (Ok r2, s2') /\
        success r1 = success r2).
Proof.
  assert (G : forall (W1 W2 : Type) (env1 : Env W1) (env2 : Env W2)
          user1 user2 sp1 sp2 index1 index2 retry1 retry2
          (s1 : State W1) (s2 : State W2) n1 n2,
      counts env1 (world s1) n1 ->
      counts env2 (world s2) n2 ->
      page_url env1 (world s1) = page_url env2 (world s2) ->
      (forall sel, In sel successSelectors -> n1 sel = n2 sel) ->
      exists r1 s1' r2 s2',
        try_catch (classify env1 user1 sp1)
                  (attempt_catch env1 user1 index1 retry1) s1
          = (Ok r1, s1') /\
        try_catch (classify env2 user2 sp2)
                  (attempt_catch env2 user2 index2 retry2) s2
          = (Ok r2, s2') /\
        success r1 = success r2 /\
        success r1 = verdict (page_url env1 (world s1)) n1).
  { intros W1 W2 env1 env2 user1 user2 sp1 sp2 index1 index2 retry1 retry2
           s1 s2 n1 n2 C1 C2 U N.
    destruct (classify_status env1 user1 sp1 index1 retry1 s1 n1 C1)
      as (r1 & s1' & E1 & V1).
    destruct (classify_status env2 user2 sp2 index2 retry2 s2 n2 C2)
      as (r2 & s2' & E2 & V2).
    exists r1, s1', r2, s2'; repeat split; auto.
    rewrite V1, V2, U; apply verdict_agree, N. }
  split; [exact G | ].
    intros user1 user2 sp1 sp2 index1 index2 retry1 retry2 s1 s2 U T.
  destruct (G _ _ calm calm user1 user2 sp1 sp2 index1 index2
              retry1 retry2 s1 s2 (matched (world s1)) (matched (world s2))
              (sim_counts _) (sim_counts _) U
              (success_counts_from_texts _ _ T))
    as (r1 & s1' & r2 & s2' & E1 & E2 & H & _).
  exists r1, s1', r2, s2'; auto.
Qed.

(** ** The order of the accounts *)

Lemma set_property_new name v :
  forall props,
    ~ In name (map fst props) ->
    Sim.set_property name v props = (props ++ [(name, v)])%list.
Proof.
  induction props as [ | [k x] rest IH]; intros H; [reflexivity | ].
  cbn [Sim.set_property].
  destruct (String.eqb_spec k name) as [E | E].
  - exfalso; apply H; left; exact E.
  - cbn [app]; rewrite IH; [reflexivity | ].
    intros I; apply H; right; exact I.
Qed.

(** Members with names of their own are properties in the order they
    were written in. *)
Lemma own_properties_distinct :
  forall members props,
    NoDup (map fst (props ++ members)) ->
    fold_left (fun ps m => Sim.set_property (fst m) (snd m) ps) members props
    = (props ++ members)%list.
Proof.
  induction members as [ | [k x] rest IH]; intros props H.
  - rewrite app_nil_r; reflexivity.
  - cbn [fold_left fst snd].
    rewrite set_property_new.
    + rewrite IH; rewrite <- app_assoc; [reflexivity | exact H].
    + rewrite map_app in H; cbn [map fst] in H.
      apply NoDup_remove_2 in H.
      intros I; apply H, in_or_app; left; exact I.
Qed.

(** Where no name is an array index and no name is written twice,
    [Object.entries] keeps the order of the text. *)
Lemma enumerate_as_written (members : list (string * JSValue)) :
  NoDup (map fst members) ->
  (forall name, In name (map fst members) -> Sim.array_index name = None) ->
  Sim.enumerate members = members.
Proof.
  intros D N; unfold Sim.enumerate, Sim.own_properties.
  rewrite (own_properties_distinct members []); [ | exact D].
  cbn [app].
  assert (S : fold_right
                (fun p sorted =>
                   match Sim.array_index (fst p) with
                   | Some i => Sim.insert_index i p sorted
                   | None => sorted
                   end) [] members = []).
  { clear D; induction members as [ | [k x] rest IH]; [reflexivity | ].
    cbn [fold_right fst]; rewrite (N k); [ | left; reflexivity].
    apply IH; intros name I; apply N; right; exact I. }
  rewrite S; cbn [map app].
  clear D S; induction members as [ | [k x] rest IH]; [reflexivity | ].
  cbn [filter]; unfold Sim.is_named at 1; cbn [fst].
  rewrite (N k); [ | left; reflexivity].
  f_equal; apply IH; intros name I; apply N; right; exact I.
Qed.

Lemma created_names (members : list (string * JSValue)) :
  map fst (map (fun m : string * JSValue =>
                  match m with (k, x) => (k, Sim.created x) end) members)
  = map fst members.
Proof.
  induction members as [ | [k x] rest IH]; [reflexivity | ].
  cbn [map fst]; rewrite IH; reflexivity.
Qed.

(** The accounts of a configuration whose names are no array indices
    and all different: the members as they are written. *)
Lemma load_accounts_as_written (s : State Sim.World) text members :
  Sim.config (world s) = Some text ->
  Sim.read text = Some (JObj members) ->
  members <> [] ->
  NoDup (map fst members) ->
  (forall name, In name (map fst members) -> Sim.array_index name = None) ->
  exists entries,
    load_accounts calm s = (Ok entries, s) /\
    entries <> [] /\
    map fst entries = Sim.names_as_written text.
Proof.
  intros C R M D N.
  set (entries := map (fun m : string * JSValue =>
                         match m with (k, x) => (k, Sim.created x) end)
                      members).
  assert (E : Sim.enumerate entries = entries).
  { apply enumerate_as_written; unfold entries; rewrite created_names;
      assumption. }
  exists entries.
  assert (L : entries <> []).
  { unfold entries; destruct members; [congruence | discriminate]. }
  split; [ | split; [exact L | ] ].
  - destruct text as [ | c rest]; [discriminate | ].
    assert (P : process_env calm "USERNAME_AND_PASSWORD" (world s)
                = Some (String c rest)) by exact C.
    assert (J : JSON_parse calm (String c rest) = Some (JObj entries)).
    { change (Sim.parse (String c rest) = Some (JObj entries)).
      unfold Sim.parse; rewrite R; cbn [option_map Sim.created].
      fold entries; rewrite E; reflexivity. }
    unfold load_accounts.
    rewrite (bind_Ok _ _ _ _ _ _ _ (envOrThrow_set _ _ _ _ _ P)), J.
    destruct entries; [congruence | reflexivity].
  - unfold Sim.names_as_written; rewrite R.
    unfold entries; apply created_names.
Qed.

(** C5 (amended).  Provided the browser session of every attempt can be
    opened and closed, the batch loop returns exactly one outcome per
    entry of the parsed configuration, in the order of the entries,
    whatever the attempts do inside their [try] block, and this is what
    the batch run hands on.  The entries are in the order in which the
    accounts are written whenever no account name is an array index and
    no name is written twice: the outcomes are then in the order
    supplied. *)
Theorem one_outcome_per_account_in_order :
  (forall (W : Type) (env : Env W)
          (accountEntries : list (string * JSValue)) (s : State W),
      session_calls_succeed env ->
      accountEntries <> [] ->
      exists rs s',
        main_loop env accountEntries 0
                  (Z.of_nat (List.length accountEntries)) [] s = (Ok rs, s') /\
        map outcome_username rs = map (fun a => Some (fst a)) accountEntries /\
        List.length rs = List.length accountEntries /\
        (forall s0, load_accounts env s0 = (Ok accountEntries, s) ->
                    run_batch env s0 = (Ok rs, s'))) /\
  (forall (s : State Sim.World) text members,
      Sim.config (world s) = Some text ->
      Sim.read text = Some (JObj members) ->
      members <> [] ->
      NoDup (map fst members) ->
      (forall name, In name (map fst members) ->
                    Sim.array_index name = None) ->
      exists rs s',
        run_batch calm s = (Ok rs, s') /\
        map outcome_username rs = map Some (Sim.names_as_written text) /\
        List.length rs = List.length members).
Proof.
  split.
  - intros W env accountEntries s H N.
    apply batch_gives_one_outcome_per_entry; assumption.
  - intros s text members C R M D N.
    destruct (load_accounts_as_written s text members C R M D N)
      as (entries & L & Ne & Names).
    assert (H : session_calls_succeed calm) by (intros w; repeat split).
    destruct (batch_gives_one_outcome_per_entry calm entries s H Ne)
      as (rs & s' & _ & U & Len & B).
    exists rs, s'; split; [apply B, L | split].
    + rewrite U, <- Names, map_map; reflexivity.
    + rewrite Len.
      unfold Sim.names_as_written in Names; rewrite R in Names.
      apply (f_equal (@List.length _)) in Names.
      rewrite !length_map in Names; exact Names.
Qed.

(** ** Concrete runs *)

Section Runs.

Import Examples.

(** With the bot check on every visit, the account is tried three times
    and two retries are reported. *)
Lemma bot_check_is_tried_three_times :
  attempt_detects_bot_check calm challenged_start /\
  exists o s',
    loginWithAccount calm account secret 0 challenged_start = (Ok o, s') /\
    attempts (trace s') = 3%nat /\
    attempts (trace s') <> 1%nat /\
    retries o = 2.
Proof.
  split.
  - eexists; split; [vm_compute; reflexivity | ].
    eexists _, _, _; split; [vm_compute; reflexivity | ].
    split; [vm_compute; reflexivity | vm_compute; lia].
  - eexists _, _; split; [vm_compute; reflexivity | ].
    split; [vm_compute; reflexivity | split; [ | reflexivity]].
    vm_compute; discriminate.
Qed.

(** A login that works at once reports no retry. *)
Lemma first_success_run_reports_no_retry :
  exists o s',
    loginWithAccount calm account secret 0 normal_start = (Ok o, s') /\
    0 <= retries o <= MAX_RETRIES /\
    retries o = 0.
Proof.
  assert (E : exists o s',
             loginWithAccount calm account secret 0 normal_start
             = (Ok o, s')).
  { eexists _, _; vm_compute; reflexivity. }
  destruct E as (o & s' & E); exists o, s'; split; [exact E | ].
  destruct (retries_bounded_and_zero_iff_first_success
              calm account secret 0 normal_start o s' E)
    as (B & r & s1 & A & Z & _).
  split; [exact B | ].
  apply Z.
  assert (A' : attemptLogin calm account secret 0 0 normal_start
               = (Ok (mkResult true account "登录成功"), s1)).
  { rewrite A; f_equal.
    assert (F : fst (attemptLogin calm account secret 0 0 normal_start)
                = Ok (mkResult true account "登录成功"))
      by (vm_compute; reflexivity).
    rewrite A in F; simpl in F; rewrite F; reflexivity. }
  rewrite A in A'; inversion A'; reflexivity.
Defined.

(** The first attempt returns the bot-check failure and yet two retries
    are reported. *)
Lemma bot_check_first_attempt_reports_retries :
  exists r s1 o s',
    attemptLogin calm account secret 0 0 challenged_start = (Ok r, s1) /\
    success r = false /\
    message r = "人机验证页面" /\
    loginWithAccount calm account secret 0 challenged_start = (Ok o, s') /\
    retries o = 2 /\
    retries o <> 0.
Proof.
  eexists _, _, _, _; split; [vm_compute; reflexivity | ].
  split; [reflexivity | split; [reflexivity | ]].
  split; [vm_compute; reflexivity | split; [reflexivity | ]].
  simpl; discriminate.
Qed.

Lemma calm_session_calls_succeed : session_calls_succeed calm.
Proof. intros w; repeat split. Qed.

(** A greeting at the login address and a page at another address are
    both classified as successes. *)
Lemma greeting_and_moved_pages_succeed :
  (exists s',
      classify calm account "shot.png" (showing greeting)
      = (Ok (mkResult true account "登录成功"), s')) /\
  (exists s',
      classify calm account "shot.png" (showing plain)
      = (Ok (mkResult true account "登录成功"), s')).
Proof.
  split.
  - apply (proj1 (proj2 success_rule_checked_first) account "shot.png"
                 (showing greeting) (Sim.mkElement "Welcome back" "banner"));
      [reflexivity | simpl; auto | reflexivity].
  - apply (proj2 (proj2 success_rule_checked_first) account "shot.png"
                 (showing plain)); [reflexivity | ].
    intros sel H; unfold successSelectors in H; simpl in H.
    repeat (destruct H as [<- | H]; [reflexivity | ]); destruct H.
Defined.

(** The complaint on the login page becomes the reason of the failure. *)
Lemma refusal_page_fails_with_its_text :
  exists s',
    classify calm account "shot.png" (showing refusal)
    = (Ok (mkResult false account "Invalid credentials"), s').
Proof.
  apply (proj2 failure_reason_is_first_long_text account "shot.png"
               (showing refusal)
               (Sim.mkElement "Invalid credentials" "alert") []).
  - reflexivity.
  - intros sel H; unfold successSelectors in H; simpl in H.
    repeat (destruct H as [<- | H]; [reflexivity | ]); destruct H.
  - reflexivity.
  - vm_compute; lia.
Defined.

(** The body contains the phrase, and the reason is another text: the
    one of the first element that matches the first error pattern. *)
Lemma contained_phrase_is_not_the_reason :
  stillOnLogin (Sim.doc_url two_complaints) = true /\
  existsb (fun sel => Nat.ltb 0 (matched (world (showing two_complaints)) sel))
          successSelectors = false /\
  JsString.includes (Sim.bodyText two_complaints) "Invalid credentials"
    = true /\
  exists s',
    classify calm account "shot.png" (showing two_complaints)
    = (Ok (mkResult false account "登录失败"), s') /\
    message (mkResult false account "登录失败") <> "Invalid credentials".
Proof.
  split; [vm_compute; reflexivity | ].
  split; [vm_compute; reflexivity | ].
  split; [vm_compute; reflexivity | ].
  eexists; split; [vm_compute; reflexivity | ].
  vm_compute; discriminate.
Qed.

(** Two pages with the same address and texts get the same status, for
    different accounts, captures and retries. *)
Lemma restyled_page_gets_same_status :
  exists r1 s1' r2 s2',
    try_catch (classify calm account "one.png")
              (attempt_catch calm account 0 0) (showing greeting)
      = (Ok r1, s1') /\
    try_catch (classify calm "c@d.e" "two.png")
              (attempt_catch calm "c@d.e" 1 2) (showing greeting_restyled)
      = (Ok r2, s2') /\
    success r1 = success r2.
Proof.
  apply (proj2 classification_is_a_function_of_address_and_text
               account "c@d.e" "one.png" "two.png" 0 1 0 2
               (showing greeting) (showing greeting_restyled));
    reflexivity.
Defined.

(** Two accounts, in the order they are written in. *)
Lemma two_account_run_gives_outcomes_in_order :
  (session_calls_succeed calm /\
   exists rs s',
     main_loop calm [(account, secret); ("d@e.f", secret)] 0 2 []
               normal_start = (Ok rs, s') /\
     map outcome_username rs = [Some account; Some "d@e.f"]) /\
  Sim.names_as_written two_accounts = [account; "d@e.f"] /\
  exists rs s',
    run_batch calm two_accounts_start = (Ok rs, s') /\
    map outcome_username rs = [Some account; Some "d@e.f"].
Proof.
  split; [split; [exact calm_session_calls_succeed | ] | split].
  - destruct (proj1 one_outcome_per_account_in_order _ calm
                [(account, secret); ("d@e.f", secret)]
                normal_start calm_session_calls_succeed)
      as (rs & s' & E & U & _); [discriminate | ].
    exists rs, s'; split; assumption.
  - vm_compute; reflexivity.
  - destruct (proj2 one_outcome_per_account_in_order two_accounts_start
                two_accounts
                [(account, secret); ("d@e.f", secret)])
      as (rs & s' & E & U & _).
    + reflexivity.
    + vm_compute; reflexivity.
    + discriminate.
    + repeat constructor; simpl; intuition discriminate.
    + intros name [<- | [<- | []]]; vm_compute; reflexivity.
    + exists rs, s'; split; [exact E | ].
      rewrite U; vm_compute; reflexivity.
Defined.

(** Without a browser a non-empty mapping gives no outcome at all; and
    an account whose name is an array index is processed before the
    accounts written in front of it. *)
Lemma outcomes_can_be_missing_or_out_of_order :
  (load_accounts (Sim.env no_browser) normal_start
     = (Ok [(account, secret)], normal_start) /\
   (exists e s1,
       main_loop (Sim.env no_browser) [(account, secret)] 0 1 [] normal_start
       = (Throw e, s1)) /\
   (exists e s1,
       run_batch (Sim.env no_browser) normal_start = (Throw e, s1)) /\
   exists s',
     main (Sim.env no_browser) normal_start = (Ok tt, s') /\
     exitCode s' = Some 1 /\
     trace s' =
     [Called chromium_launch;
      Called (telegram (mkNotification false "初始化"
                          "browserType.launch: no executable" None "N/A"))]) /\
  Sim.names_as_written index_named = ["b@x.y"; "1"] /\
  exists rs s',
    run_batch calm index_named_start = (Ok rs, s') /\
    map outcome_username rs = [Some "1"; Some "b@x.y"] /\
    map outcome_username rs <> map Some (Sim.names_as_written index_named).
Proof.
  split; [ | split].
  - split; [vm_compute; reflexivity | ].
    split; [eexists _, _; vm_compute; reflexivity | ].
    split; [eexists _, _; vm_compute; reflexivity | ].
    eexists; split; [vm_compute; reflexivity | split; reflexivity].
  - vm_compute; reflexivity.
  - exists [mkOutcome (Some (mkResult true "1" "登录成功")) 0;
            mkOutcome (Some (mkResult true "b@x.y" "登录成功")) 0],
           (snd (run_batch calm index_named_start)).
    split; [vm_compute; reflexivity | ].
    split; [reflexivity | vm_compute; discriminate].
Qed.


(** Without the variable the run stops at once. *)
Lemma unset_config_run_fails_fast :
  rejected_config calm (world unset_start) /\
  exists s',
    main calm unset_start = (Ok tt, s') /\ exitCode s' = Some 1.
Proof.
  assert (R : rejected_config calm (world unset_start))
    by (apply config_absent; reflexivity).
  split; [exact R | ].
  destruct (rejected_config_fails_fast calm unset_start R)
    as (e & n & s' & _ & M & X & _).
  exists s'; split; assumption.
Defined.

(** An unreachable login page ends in a failure that carries the
    message of the error. *)
Lemma offline_run_returns_failure :
  exists s s1 e s2,
    open_session (Sim.env offline) normal_start = (Ok tt, s) /\
    attempt_try (Sim.env offline) account secret 0 0 s = (Throw e, s1) /\
    try_catch (attempt_try (Sim.env offline) account secret 0 0)
              (attempt_catch (Sim.env offline) account 0 0) s
    = (Ok (mkResult false account ("异常: " ++ err_message e)), s2).
Proof.
  assert (O : exists s, open_session (Sim.env offline) normal_start
                        = (Ok tt, s))
    by (eexists; vm_compute; reflexivity).
  destruct O as (s & O).
  assert (T : exists e s1,
             attempt_try (Sim.env offline) account secret 0 0 s
             = (Throw e, s1)).
  { vm_compute in O; inversion O; subst s.
    eexists _, _; vm_compute; reflexivity. }
  destruct T as (e & s1 & T).
  destruct (fault_in_try_block_becomes_failure
              (Sim.env offline) account secret 0 0 normal_start s s1 e O T)
    as (s2 & G & _).
  exists s, s1, e, s2; repeat split; assumption.
Defined.

(** When the browsing context cannot be closed, the error of the
    [finally] block leaves the attempt and the account, although the
    login itself had been judged a success; the batch is abandoned with
    exit code 1 and nothing is summarised. *)
Lemma stuck_close_run_throws :
  attempts (trace normal_start) = 0%nat /\
  fst (attemptLogin (Sim.env stuck_close) account secret 0 0 normal_start)
    = Throw (new_Error "context.close: target closed") /\
  fst (loginWithAccount (Sim.env stuck_close) account secret 0 normal_start)
    = Throw (new_Error "context.close: target closed") /\
  fst (run_batch (Sim.env stuck_close) normal_start)
    = Throw (new_Error "context.close: target closed") /\
  exitCode (snd (main (Sim.env stuck_close) normal_start)) = Some 1.
Proof. repeat split; vm_compute; reflexivity. Qed.

(** An array of one element is taken as one account named 0. *)
Lemma array_config_run_is_accepted :
  load_accounts calm array_start = (Ok [("0", JStr "x")], array_start).
Proof.
  apply (nonempty_array_config_is_accepted calm array_of_one [JStr "x"]
                                           array_start);
    [reflexivity | discriminate | reflexivity | discriminate].
Defined.

(** The empty array parses to an array and is turned down. *)
Lemma empty_array_config_is_rejected :
  JSON_parse calm empty_array = Some (JArr []) /\
  typeof (JArr []) = TObject /\
  load_accounts calm empty_array_start
    = (Throw (new_Error "未找到有效的账户信息"), empty_array_start) /\
  exists s',
    main calm empty_array_start = (Ok tt, s') /\
    exitCode s' = Some 1 /\
    attempts (trace s') = 0%nat.
Proof.
  split; [reflexivity | split; [reflexivity | split; [reflexivity | ]]].
  eexists; split; [vm_compute; reflexivity | split; reflexivity].
Qed.

(** The simulated clock obeys the two conditions under which the fuel of
    [smartWait] is enough. *)
Lemma calm_clock_monotone : clock_monotone calm.
Proof.
  intros A c w; destruct c; simpl; unfold Sim.run, Sim.reliable, Sim.answer,
    Sim.act; simpl; try lia;
    repeat match goal with
           | |- context [match ?x with _ => _ end] => destruct x; simpl
           end; lia.
Qed.

Lemma calm_timer_waits : timer_waits calm.
Proof.
  intros ms w w' H; simpl in H; unfold Sim.run, Sim.reliable in H.
  inversion H; subst; simpl; lia.
Qed.

Lemma calm_wait_for_inputs_needs_no_more_fuel extra s :
  smartWait_loop calm (smartWait_fuel 30000 1000 + extra)
                 (inputs_visible calm) (Date_now calm (world s)) 30000 1000 s
  = smartWait calm (inputs_visible calm) 30000 1000 s.
Proof.
  apply smartWait_inputs_fuel_enough;
    [exact calm_clock_monotone | exact calm_timer_waits].
Qed.

End Runs.

(** ** More about the log of an attempt *)

Section Log_facts.

Context {W : Type} (env : Env W).

Lemma only_weaken (A : Type) (P Q : entry -> bool) (m : M W A) :
  (forall e, P e = true -> Q e = true) -> only P m -> only Q m.
Proof.
  intros PQ H s; destruct (H s) as (added & E & F); exists added.
  split; [exact E | ].
  rewrite forallb_forall in *; intros e He; apply PQ, F, He.
Qed.

Lemma only_quiet (A : Type) P (m : M W A) :
  (forall s, trace (snd (m s)) = trace s) -> only P m.
Proof.
  intros H s; exists []; rewrite H, app_nil_r; split; reflexivity.
Qed.

Lemma tally_app P t1 t2 : tally P (t1 ++ t2) = (tally P t1 + tally P t2)%nat.
Proof. unfold tally; rewrite filter_app, length_app; reflexivity. Qed.

Lemma tally_none P Q t :
  (forall e, P e = true -> Q e = false) ->
  forallb P t = true -> tally Q t = 0%nat.
Proof.
  intros PQ; induction t as [ | e t IH]; simpl; [reflexivity | ].
  intros H; apply andb_prop in H as [He Ht].
  unfold tally in *; simpl; rewrite (PQ e He); apply IH, Ht.
Qed.

(** A computation that only adds entries passing [P] leaves the tally of
    any [Q] disjoint from [P] as it was. *)
Lemma extends_tally P Q (s s' : State W) :
  (forall e, P e = true -> Q e = false) ->
  extends P s s' -> tally Q (trace s') = tally Q (trace s).
Proof.
  intros PQ (added & E & F); rewrite E, tally_app.
  rewrite (tally_none P Q added PQ F); lia.
Qed.

Lemma only_smartWait_loop P condition startTime timeout checkInterval :
  only P condition ->
  P (Called (page_waitForTimeout checkInterval)) = true ->
  forall fuel,
    only P (smartWait_loop env fuel condition startTime timeout checkInterval).
Proof.
  intros Hc Hw; induction fuel as [ | fuel IH]; simpl.
  - apply only_ret.
  - apply only_bind; [apply only_quiet; reflexivity | intros now].
    apply only_if; [ | apply only_ret].
    apply only_bind; [ | intros found].
    + apply only_try_catch; [exact Hc | intros e; apply only_ret].
    + apply only_if; [apply only_ret | ].
      apply only_bind; [apply only_perform, Hw | intros _; exact IH].
Qed.

Lemma only_smartWait P condition timeout checkInterval :
  only P condition ->
  P (Called (page_waitForTimeout checkInterval)) = true ->
  only P (smartWait env condition timeout checkInterval).
Proof.
  intros Hc Hw; apply only_bind; [apply only_quiet; reflexivity | intros t].
  apply only_smartWait_loop; assumption.
Qed.

Lemma only_scan_success :
  forall sels hint, only is_page_step (scan_success env sels hint).
Proof.
  induction sels as [ | sel rest IH]; intros hint; simpl.
  - apply only_ret.
  - apply only_bind; [apply only_perform; reflexivity | intros n].
    apply only_if; [apply only_ret | apply IH].
Qed.

Lemma only_scan_errors :
  forall sels errorMsg, only is_page_step (scan_errors env sels errorMsg).
Proof.
  induction sels as [ | sel rest IH]; intros errorMsg; simpl.
  - apply only_ret.
  - apply only_bind; [apply only_perform; reflexivity | intros n].
    apply only_if; [ | apply IH].
    apply only_bind; [ | intros m; apply only_if; [apply only_ret | apply IH]].
    apply only_try_catch; [apply only_perform; reflexivity | ].
    intros e; apply only_ret.
Qed.

Lemma only_generic_error errorMsg :
  only is_page_step (generic_error env errorMsg).
Proof.
  unfold generic_error; apply only_if; [apply only_ret | ].
  apply only_bind; [apply only_perform; reflexivity | intros title].
  apply only_bind; [ | intros body; apply only_if; apply only_ret].
  apply only_try_catch; [apply only_perform; reflexivity | ].
  intros e; apply only_ret.
Qed.

Lemma only_classify user spAfter :
  only is_page_step (classify env user spAfter).
Proof.
  unfold classify.
  apply only_bind; [apply only_quiet; reflexivity | intros url].
  apply only_bind; [apply only_scan_success | intros hint].
  apply only_if.
  - apply only_bind; [apply only_notifyTelegram; reflexivity | intros _].
    apply only_ret.
  - apply only_bind; [apply only_scan_errors | intros m1].
    apply only_bind; [apply only_generic_error | intros m2].
    apply only_bind; [apply only_notifyTelegram; reflexivity | intros _].
    apply only_ret.
Qed.

Lemma only_inputs_visible : only is_page_step (inputs_visible env).
Proof.
  unfold inputs_visible.
  apply only_bind; [apply only_perform; reflexivity | intros u].
  apply only_if; [apply only_perform; reflexivity | apply only_ret].
Qed.

Lemma only_fill_and_submit user password index retryCount :
  only is_page_step (fill_and_submit env user password index retryCount).
Proof.
  unfold fill_and_submit.
  apply only_bind;
    [apply only_smartWait; [apply only_inputs_visible | reflexivity]
    | intros _].
  do 8 (apply only_bind; [apply only_perform; reflexivity | intros _]).
  apply only_bind; [apply only_begin_call; reflexivity | intros _].
  apply only_bind; [apply only_perform; reflexivity | intros _].
  apply only_bind;
    [apply only_try_catch;
     [apply only_await_call | intros e; apply only_ret]
    | intros _].
  apply only_bind;
    [apply only_try_catch;
     [apply only_perform; reflexivity | intros e; apply only_ret]
    | intros _].
  do 2 (apply only_bind; [apply only_perform; reflexivity | intros _]).
  apply only_classify.
Qed.

Lemma only_attempt_try user password index retryCount :
  only is_page_step (attempt_try env user password index retryCount).
Proof.
  unfold attempt_try.
  apply only_bind; [apply only_perform; reflexivity | intros _].
  apply only_bind; [apply only_perform; reflexivity | intros n].
  apply only_if; [ | apply only_fill_and_submit].
  unfold human_check_found.
  apply only_bind; [apply only_perform; reflexivity | intros _].
  apply only_bind; [apply only_notifyTelegram; reflexivity | intros _].
  apply only_ret.
Qed.

Lemma only_attempt_catch_steps user index retryCount e :
  only is_page_step (attempt_catch env user index retryCount e).
Proof.
  unfold attempt_catch.
  apply only_bind; [ | intros _].
  { apply only_try_catch; [apply only_perform; reflexivity | ].
    intros _; apply only_ret. }
  apply only_bind; [apply only_quiet; reflexivity | intros captured].
  apply only_bind; [apply only_notifyTelegram; reflexivity | intros _].
  apply only_ret.
Qed.

(** Between opening and closing the session an attempt takes page steps
    only. *)
Lemma only_guarded user password index retryCount :
  only is_page_step
       (try_catch (attempt_try env user password index retryCount)
                  (attempt_catch env user index retryCount)).
Proof.
  apply only_try_catch; [apply only_attempt_try | ].
  intros e; apply only_attempt_catch_steps.
Qed.

(** *** The session of an attempt *)

Lemma perform_trace (A : Type) (c : call A) (s : State W) :
  trace (snd (perform env c s)) = (trace s ++ [Called c])%list.
Proof. rewrite perform_run; reflexivity. Qed.

(** What [open_session] has logged when it returns, and when it
    throws. *)
Lemma open_session_log (s0 : State W) :
  match open_session env s0 with
  | (Ok _, s) =>
      trace s = (trace s0 ++ [Called chromium_launch;
                              Called browser_newContext;
                              Called context_newPage])%list
  | (Throw _, s) =>
      trace s = (trace s0 ++ [Called chromium_launch])%list \/
      trace s = (trace s0 ++ [Called chromium_launch;
                              Called browser_newContext])%list \/
      trace s = (trace s0 ++ [Called chromium_launch;
                              Called browser_newContext;
                              Called context_newPage])%list
  end.
Proof.
  unfold open_session, bind.
  pose proof (perform_trace _ chromium_launch s0) as T1.
  destruct (perform env chromium_launch s0) as [[[] | e1] s1]; simpl in T1;
    [ | left; exact T1].
  pose proof (perform_trace _ browser_newContext s1) as T2.
  destruct (perform env browser_newContext s1) as [[[] | e2] s2];
    simpl in T2; rewrite T1, <- app_assoc in T2; simpl in T2;
    [ | right; left; exact T2].
  pose proof (perform_trace _ context_newPage s2) as T3.
  destruct (perform env context_newPage s2) as [[[] | e3] s3];
    simpl in T3; rewrite T2, <- app_assoc in T3; simpl in T3;
    [exact T3 | right; right; exact T3].
Qed.

(** X1.  An attempt whose session was opened closes the browsing context
    exactly once, after its last page step and on every path: success,
    failure, bot check or caught fault.  The browser is closed right
    after, unless closing the context has thrown, in which case the
    attempt throws and the browser is not closed. *)
Theorem opened_session_is_closed_once
        user password index retryCount (s0 s : State W) :
  open_session env s0 = (Ok tt, s) ->
  exists steps closing r s',
    attemptLogin env user password index retryCount s0 = (r, s') /\
    trace s' =
    (trace s0 ++ [Called chromium_launch; Called browser_newContext;
                  Called context_newPage]
       ++ steps ++ Called context_close :: closing)%list /\
    forallb is_page_step steps = true /\
    (closing = [Called browser_close] \/
     closing = [] /\ exists e, r = Throw e).
Proof.
  intros Ho.
  pose proof (open_session_log s0) as L; rewrite Ho in L.
  unfold attemptLogin; rewrite (bind_Ok _ _ _ _ _ _ _ Ho).
  unfold try_finally.
  destruct (only_guarded user password index retryCount s)
    as (steps & Es & Fs).
  destruct (try_catch (attempt_try env user password index retryCount)
                      (attempt_catch env user index retryCount) s)
    as [rg sg]; simpl in Es.
  unfold attempt_finally, bind.
  pose proof (perform_trace _ context_close sg) as T1.
  destruct (perform env context_close sg) as [[[] | e1] s1]; simpl in T1.
  - pose proof (perform_trace _ browser_close s1) as T2.
    destruct (perform env browser_close s1) as [[[] | e2] s2]; simpl in T2;
      exists steps, [Called browser_close]; eexists _, _;
      (split; [reflexivity | split; [ | split; [exact Fs | left; reflexivity]]]);
      rewrite T2, T1, Es, L, <- !app_assoc; reflexivity.
  - exists steps, []; eexists _, _.
    split; [reflexivity | split; [ | split; [exact Fs | right; eauto]]].
    rewrite T1, Es, L, <- !app_assoc; reflexivity.
Qed.

(** X2.  When opening the session fails, at the launch, at the new
    context or at the new page, the attempt throws that error at once:
    it takes no page step and closes nothing, not even a browser that
    was launched. *)
Theorem failed_open_closes_nothing
        user password index retryCount (s0 s : State W) e :
  open_session env s0 = (Throw e, s) ->
  attemptLogin env user password index retryCount s0 = (Throw e, s) /\
  (trace s = (trace s0 ++ [Called chromium_launch])%list \/
   trace s = (trace s0 ++ [Called chromium_launch;
                           Called browser_newContext])%list \/
   trace s = (trace s0 ++ [Called chromium_launch;
                           Called browser_newContext;
                           Called context_newPage])%list) /\
  tally is_browser_close (trace s) = tally is_browser_close (trace s0).
Proof.
  intros Ho.
  pose proof (open_session_log s0) as L; rewrite Ho in L.
  split; [unfold attemptLogin; apply bind_Throw, Ho | split; [exact L | ]].
  destruct L as [L | [L | L]]; rewrite L, tally_app; unfold tally at 2;
    simpl; lia.
Qed.

(** *** Attempts and pauses of one account *)

Lemma only_attempt_finally_entries P :
  P (Called context_close) = true ->
  P (Called browser_close) = true ->
  only P (attempt_finally env).
Proof.
  intros H1 H2; unfold attempt_finally.
  apply only_bind; [apply only_perform, H1 | intros _].
  apply only_perform, H2.
Qed.

(** After the launch, an attempt logs no further launch, no pause and no
    summary. *)
Lemma only_after_launch user password index retryCount :
  only (fun e => (is_attempt_entry e && negb (is_launch e))%bool)
       ((perform env browser_newContext ;; perform env context_newPage) ;;
        try_finally
          (try_catch (attempt_try env user password index retryCount)
                     (attempt_catch env user index retryCount))
          (attempt_finally env)).
Proof.
  apply only_bind; [ | intros _].
  - apply only_bind; [ | intros _]; apply only_perform; reflexivity.
  - apply only_try_finally.
    + apply (only_weaken _ is_page_step);
        [ | apply only_guarded].
      intros [A c | ms | lo hi]; simpl; try discriminate.
      destruct c; simpl; congruence.
    + apply only_attempt_finally_entries; reflexivity.
Qed.

Lemma attemptLogin_after_launch user password index retryCount (s : State W) :
  attemptLogin env user password index retryCount s =
  (perform env chromium_launch ;;
   ((perform env browser_newContext ;; perform env context_newPage) ;;
    try_finally
      (try_catch (attempt_try env user password index retryCount)
                 (attempt_catch env user index retryCount))
      (attempt_finally env))) s.
Proof.
  unfold attemptLogin, open_session; rewrite !bind_assoc.
  apply bind_ext; intros _ s1; rewrite !bind_assoc; reflexivity.
Qed.

(** One attempt, one launch; and an attempt logs attempt entries only. *)
Lemma attemptLogin_log user password index retryCount (s : State W) :
  let s' := snd (attemptLogin env user password index retryCount s) in
  tally is_launch (trace s') = (tally is_launch (trace s) + 1)%nat /\
  extends is_attempt_entry s s'.
Proof.
  rewrite attemptLogin_after_launch; unfold bind at 1.
  pose proof (perform_trace _ chromium_launch s) as T1.
  assert (X1 : extends is_attempt_entry s
                       (snd (perform env chromium_launch s))).
  { exists [Called chromium_launch]; split; [exact T1 | reflexivity]. }
  destruct (perform env chromium_launch s) as [[[] | e] s1]; simpl in *.
  - pose proof (only_after_launch user password index retryCount s1) as X.
    split.
    + rewrite (extends_tally _ is_launch _ _ (fun e H =>
                 proj1 (negb_true_iff _) (proj2 (andb_prop _ _ H))) X).
      rewrite T1, tally_app; reflexivity.
    + eapply extends_trans; [exact X1 | ].
      destruct X as (added & E & F); exists added; split; [exact E | ].
      rewrite forallb_forall in *; intros x Hx.
      apply F in Hx; apply andb_prop in Hx; apply Hx.
  - split; [rewrite T1, tally_app; reflexivity | exact X1].
Qed.

Lemma attempt_entry_tallies (s s' : State W) :
  extends is_attempt_entry s s' ->
  tally is_retry_delay (trace s') = tally is_retry_delay (trace s) /\
  tally is_account_delay (trace s') = tally is_account_delay (trace s) /\
  tally is_summary (trace s') = tally is_summary (trace s).
Proof.
  intros X; repeat split; apply (extends_tally is_attempt_entry); auto;
    intros [A c | ms | lo hi]; simpl; try discriminate; auto;
    destruct c; simpl; congruence.
Qed.

(** Every pass the loop makes with [retryCount] at 1 or more logs one
    pause and one launch; there are at most [MAX_RETRIES + 1 - retryCount]
    of them, and as many as [retryCount] has grown when the loop
    returns. *)
Lemma retry_loop_tally user password index :
  forall fuel retryCount r (s : State W),
    1 <= retryCount ->
    exists k,
      let run := retry_loop env fuel user password index retryCount r s in
      tally is_launch (trace (snd run))
        = (tally is_launch (trace s) + k)%nat /\
      tally is_retry_delay (trace (snd run))
        = (tally is_retry_delay (trace s) + k)%nat /\
      tally is_account_delay (trace (snd run))
        = tally is_account_delay (trace s) /\
      tally is_summary (trace (snd run)) = tally is_summary (trace s) /\
      Z.of_nat k <= Z.max 0 (MAX_RETRIES + 1 - retryCount) /\
      (forall retryCount' r', fst run = Ok (retryCount', r') ->
                              retryCount' = retryCount + Z.of_nat k).
Proof.
  induction fuel as [ | fuel IH]; intros retryCount r s Hrc.
  - exists 0%nat; cbn zeta; cbn [retry_loop ret fst snd].
    repeat match goal with |- _ /\ _ => split end; try lia.
    intros rc' r' E; inversion E; lia.
  - destruct ((retryCount <=? MAX_RETRIES) && negb (result_success r))%bool
      eqn:C.
    + apply andb_prop in C as [C1 C2].
      apply Z.leb_le in C1; apply negb_true_iff in C2.
      set (s1 := mkState (setTimeout env 5000 (world s))
                         (trace s ++ [Slept 5000]) (exitCode s)).
      assert (E : retry_loop env (S fuel) user password index retryCount r s
                  = match attemptLogin env user password index retryCount s1
                    with
                    | (Ok r1, s2) =>
                        retry_loop env fuel user password index
                                   (retryCount + 1) (Some r1) s2
                    | (Throw e, s2) => (Throw e, s2)
                    end).
      { rewrite (retry_loop_step env fuel user password index retryCount r s
                                 C1 C2).
        replace (0 <? retryCount) with true
          by (symmetry; apply Z.ltb_lt; lia).
        reflexivity. }
      rewrite E; clear E.
      pose proof (attemptLogin_log user password index retryCount s1)
        as (L1 & X1).
      pose proof (attempt_entry_tallies _ _ X1) as (D1 & A1 & S1).
      destruct (attemptLogin env user password index retryCount s1)
        as [[r1 | e] s2]; cbn [snd] in *.
      * destruct (IH (retryCount + 1) (Some r1) s2 ltac:(lia))
          as (k & K1 & K2 & K3 & K4 & K5 & K6).
        exists (S k); cbn zeta in *.
        rewrite K1, K2, K3, K4, L1, D1, A1, S1.
        unfold s1; cbn [trace]; rewrite !tally_app.
        change (tally is_launch [Slept 5000]) with 0%nat.
        change (tally is_retry_delay [Slept 5000]) with 1%nat.
        change (tally is_account_delay [Slept 5000]) with 0%nat.
        change (tally is_summary [Slept 5000]) with 0%nat.
        repeat match goal with |- _ /\ _ => split end; try lia.
        intros rc' r' E; apply K6 in E; lia.
      * exists 1%nat; cbn zeta; cbn [fst snd].
        rewrite L1, D1, A1, S1.
        unfold s1; cbn [trace]; rewrite !tally_app.
        change (tally is_launch [Slept 5000]) with 0%nat.
        change (tally is_retry_delay [Slept 5000]) with 1%nat.
        change (tally is_account_delay [Slept 5000]) with 0%nat.
        change (tally is_summary [Slept 5000]) with 0%nat.
        repeat match goal with |- _ /\ _ => split end; try lia.
        intros rc' r' E; discriminate.
    + exists 0%nat; cbn zeta.
      assert (E : retry_loop env (S fuel) user password index retryCount r s
                  = (Ok (retryCount, r), s)).
      { simpl; rewrite C; reflexivity. }
      rewrite E; cbn [fst snd].
      repeat match goal with |- _ /\ _ => split end; try lia.
      intros rc' r' E'; inversion E'; lia.
Qed.

(** X3.  One account is attempted at least once and at most
    [MAX_RETRIES + 1] times, whether [loginWithAccount] returns or
    throws.  The script pauses five seconds before every attempt but the
    first, and when it returns, the retries it reports are the number of
    those pauses: the attempts made are one more. *)
Theorem attempts_and_pauses_of_one_account
        user password index (s : State W) :
  exists k,
    let run := loginWithAccount env user password index s in
    tally is_launch (trace (snd run))
      = (tally is_launch (trace s) + 1 + k)%nat /\
    tally is_retry_delay (trace (snd run))
      = (tally is_retry_delay (trace s) + k)%nat /\
    Z.of_nat k <= MAX_RETRIES /\
    (forall o, fst run = Ok o -> retries o = Z.of_nat k).
Proof.
  unfold loginWithAccount, retry_fuel.
  change (Z.to_nat MAX_RETRIES + 2)%nat with 4%nat.
  assert (E : forall K : Z * option Result -> M W Outcome,
             bind (retry_loop env 4 user password index 0 None) K s
             = match attemptLogin env user password index 0 s with
               | (Ok r1, s1) =>
                   bind (retry_loop env 3 user password index 1 (Some r1))
                        K s1
               | (Throw e, s1) => (Throw e, s1)
               end).
  { intros K; unfold bind at 1; rewrite retry_loop_first; unfold bind at 1.
    destruct (attemptLogin env user password index 0 s) as [[r1 | e] s1];
      reflexivity. }
  rewrite E; clear E.
  pose proof (attemptLogin_log user password index 0 s) as (L1 & X1).
  pose proof (attempt_entry_tallies _ _ X1) as (D1 & _).
  destruct (attemptLogin env user password index 0 s) as [[r1 | e] s1];
    cbn [snd] in *.
  - destruct (retry_loop_tally user password index 3 1 (Some r1) s1
                               ltac:(lia))
      as (k & K1 & K2 & _ & _ & K5 & K6).
    exists k; cbn zeta in *; unfold bind.
    destruct (retry_loop env 3 user password index 1 (Some r1) s1)
      as [[[rc' r'] | e] s2]; cbn [fst snd ret] in *.
    + rewrite K1, K2, L1, D1.
      repeat match goal with |- _ /\ _ => split end;
        try (unfold MAX_RETRIES in *; lia).
      intros o E; inversion E; subst; simpl.
      rewrite (K6 rc' r' eq_refl); lia.
    + rewrite K1, K2, L1, D1.
      repeat match goal with |- _ /\ _ => split end;
        try (unfold MAX_RETRIES in *; lia).
      intros o E; discriminate.
  - exists 0%nat; cbn zeta; cbn [fst snd].
    rewrite L1, D1.
    repeat match goal with |- _ /\ _ => split end;
      try (unfold MAX_RETRIES in *; lia).
    intros o E; discriminate.
Qed.

(** *** Pauses and summary of the batch *)

Lemma only_attemptLogin user password index retryCount :
  only is_account_entry (attemptLogin env user password index retryCount).
Proof.
  apply (only_weaken _ is_attempt_entry).
  - intros [A c | ms | lo hi]; simpl; auto.
  - intros s; apply attemptLogin_log.
Qed.

Lemma only_retry_loop user password index :
  forall fuel retryCount r,
    only is_account_entry
         (retry_loop env fuel user password index retryCount r).
Proof.
  induction fuel as [ | fuel IH]; intros retryCount r; simpl.
  - apply only_ret.
  - apply only_if; [ | apply only_ret].
    apply only_bind; [ | intros _].
    + apply only_if; [apply only_sleep; reflexivity | apply only_ret].
    + apply only_bind; [apply only_attemptLogin | intros r'; apply IH].
Qed.

Lemma only_loginWithAccount user password index :
  only is_account_entry (loginWithAccount env user password index).
Proof.
  apply only_bind; [apply only_retry_loop | intros st; apply only_ret].
Qed.

Lemma account_entry_tallies (s s' : State W) :
  extends is_account_entry s s' ->
  tally is_account_delay (trace s') = tally is_account_delay (trace s) /\
  tally is_summary (trace s') = tally is_summary (trace s).
Proof.
  intros X; split; apply (extends_tally is_account_entry); auto;
    intros [A c | ms | lo hi]; simpl; try discriminate; auto;
    destruct c; simpl; congruence.
Qed.

(** The validation reads the environment and nothing else. *)
Lemma load_accounts_state (s : State W) : snd (load_accounts env s) = s.
Proof.
  unfold load_accounts, envOrThrow, bind, getenv, throw, ret.
  destruct (process_env env "USERNAME_AND_PASSWORD" (world s))
    as [[ | c rest] | ]; try reflexivity.
  destruct (JSON_parse env (String c rest)) as [a | ]; [ | reflexivity].
  destruct (negb (JSType_eqb (typeof a) TObject) || is_null a)%bool;
    [reflexivity | ].
  destruct (Nat.eqb (List.length (Object_entries a)) 0); reflexivity.
Qed.

(** The loop pauses after every account but the last one it is given,
    and sends no summary. *)
Lemma main_loop_tally :
  forall rest i total results (s : State W) rs s',
    i + Z.of_nat (List.length rest) = total ->
    main_loop env rest i total results s = (Ok rs, s') ->
    tally is_account_delay (trace s')
      = (tally is_account_delay (trace s) + (List.length rest - 1))%nat /\
    tally is_summary (trace s') = tally is_summary (trace s) /\
    List.length rs = (List.length results + List.length rest)%nat.
Proof.
  induction rest as [ | [user password] rest IH];
    intros i total results s rs s' Hi E; simpl in E.
  - inversion E; subst; simpl; repeat split; lia.
  - apply bind_inv_Ok in E as (o & s1 & Eo & E).
    pose proof (only_loginWithAccount user password i s) as X.
    rewrite Eo in X; cbn [snd] in X.
    apply account_entry_tallies in X as (A1 & S1).
    apply bind_inv_Ok in E as ([] & s2 & Ed & E).
    simpl List.length in Hi.
    apply IH in E; [ | lia].
    destruct E as (A2 & S2 & L2).
    rewrite length_app in L2; simpl in L2.
    destruct (i <? total - 1) eqn:D.
    + apply Z.ltb_lt in D.
      inversion Ed; subst s2; clear Ed; cbn [trace] in *.
      rewrite tally_app in A2, S2.
      change (tally is_account_delay [SleptRandom 5000 10000])
        with 1%nat in A2.
      change (tally is_summary [SleptRandom 5000 10000]) with 0%nat in S2.
      simpl List.length.
      repeat match goal with |- _ /\ _ => split end; lia.
    + apply Z.ltb_ge in D.
      inversion Ed; subst s2; clear Ed.
      simpl List.length.
      repeat match goal with |- _ /\ _ => split end; lia.
Qed.

(** Every account launches the browser at least once. *)
Lemma loginWithAccount_launches user password index (s : State W) :
  (tally is_launch (trace s) + 1
   <= tally is_launch (trace (snd (loginWithAccount env user password index s))))%nat.
Proof.
  unfold loginWithAccount, retry_fuel.
  change (Z.to_nat MAX_RETRIES + 2)%nat with 4%nat.
  unfold bind at 1; rewrite retry_loop_first; unfold bind at 1.
  pose proof (attemptLogin_log user password index 0 s) as (L1 & _).
  destruct (attemptLogin env user password index 0 s) as [[r1 | e] s1];
    cbn [snd] in *; [ | lia].
  pose proof (only_retry_loop user password index 3 1 (Some r1) s1)
    as (added & T & _).
  destruct (retry_loop env 3 user password index 1 (Some r1) s1)
    as [[st | e] s2]; cbn [snd ret] in *;
    rewrite T, tally_app; lia.
Qed.

(** The log of the loop over the accounts: one block per account, with
    the random pause between two blocks and nowhere else. *)
Lemma main_loop_blocks :
  forall rest i total results (s : State W) rs s',
    i + Z.of_nat (List.length rest) = total ->
    main_loop env rest i total results s = (Ok rs, s') ->
    exists blocks,
      List.length blocks = List.length rest /\
      trace s' = (trace s ++ between (SleptRandom 5000 10000) blocks)%list /\
      Forall account_block blocks.
Proof.
  induction rest as [ | [user password] rest IH];
    intros i total results s rs s' Hi E; simpl in E.
  - inversion E; subst; exists []; cbn [between].
    rewrite app_nil_r; repeat split; constructor.
  - apply bind_inv_Ok in E as (o & s1 & Eo & E).
    pose proof (only_loginWithAccount user password i s) as X.
    pose proof (loginWithAccount_launches user password i s) as L.
    rewrite Eo in X, L; cbn [snd] in X, L.
    destruct X as (b & Tb & Pb).
    assert (B : account_block b).
    { split; [exact Pb | ].
      rewrite Tb, tally_app in L; lia. }
    apply bind_inv_Ok in E as ([] & s2 & Ed & E).
    simpl List.length in Hi.
    apply IH in E; [ | lia].
    destruct E as (blocks & Len & T & F).
    exists (b :: blocks).
    split; [simpl; lia | split; [ | constructor; assumption] ].
    destruct rest as [ | a rest].
    + destruct blocks; [ | discriminate].
      assert (D : (i <? total - 1) = false)
        by (apply Z.ltb_ge; simpl in Hi; lia).
      rewrite D in Ed; inversion Ed; subst s2.
      cbn [between] in *; rewrite T, app_nil_r; exact Tb.
    + destruct blocks as [ | b' blocks]; [discriminate | ].
      assert (D : (i <? total - 1) = true).
      { apply Z.ltb_lt; simpl List.length in Hi; lia. }
      rewrite D in Ed; inversion Ed; subst s2; cbn [trace] in T.
      rewrite T, Tb, <- !app_assoc; reflexivity.
Qed.

(** X4.  When the batch runs to its end, its log is one block per
    account, each with at least one launch and no random pause in it,
    with one random pause between two blocks and none before the first
    or after the last; then the summary is sent, once, as the last thing
    the script does, with one outcome per account.  When the batch is
    abandoned, no summary is sent. *)
Theorem pauses_between_accounts_and_one_summary (s : State W) :
  (forall rs s1,
      run_batch env s = (Ok rs, s1) ->
      exists s',
        main env s = (Ok tt, s') /\
        trace s' = (trace s1 ++ [Called (telegram_summary rs)])%list /\
        tally is_summary (trace s1) = tally is_summary (trace s) /\
        tally is_account_delay (trace s')
          = (tally is_account_delay (trace s) + (List.length rs - 1))%nat /\
        exists blocks,
          List.length blocks = List.length rs /\
          trace s1
            = (trace s ++ between (SleptRandom 5000 10000) blocks)%list /\
          Forall account_block blocks) /\
  (forall e s1,
      run_batch env s = (Throw e, s1) ->
      tally is_summary (trace (snd (main env s)))
        = tally is_summary (trace s)).
Proof.
  assert (B : only (fun e => negb (is_summary e)) (run_batch env)).
  { unfold run_batch; apply only_bind.
    - apply only_quiet; intros s0; rewrite load_accounts_state; reflexivity.
    - intros entries.
      generalize 0 (Z.of_nat (List.length entries)) (@nil Outcome).
      induction entries as [ | [user password] rest IH];
        intros i total results; simpl.
      + apply only_ret.
      + apply only_bind; [ | intros o].
        * apply (only_weaken _ is_account_entry);
            [ | apply only_loginWithAccount].
          intros [A c | ms | lo hi]; simpl; try discriminate; auto.
          destruct c; simpl; congruence.
        * apply only_bind; [ | intros _; apply IH].
          apply only_if; [ | apply only_ret].
          intros s0; exists [SleptRandom 5000 10000]; split; reflexivity. }
  split.
  - intros rs s1 E.
    destruct (main_after_batch env rs s s1 E) as (s' & Em & _).
    exists s'; split; [exact Em | ].
    assert (T : trace s' = (trace s1 ++ [Called (telegram_summary rs)])%list).
    { unfold main, main_try in Em.
      destruct (sendSummaryNotification_spec env rs s1) as (s2 & E2 & T2 & _).
      rewrite (try_catch_Ok _ _ _ _ tt
                 (mkState (world s2) (trace s2)
                    (Some (if existsb (fun r => negb (outcome_success r)) rs
                           then 1 else 0)))) in Em.
      - inversion Em; subst s'; exact T2.
      - rewrite (bind_Ok _ _ _ _ _ _ _ E), (bind_Ok _ _ _ _ _ _ _ E2).
        destruct (existsb _ rs); reflexivity. }
    split; [exact T | ].
    pose proof (load_accounts_state s) as LS.
    unfold run_batch in E.
    apply bind_inv_Ok in E as (entries & s0 & L & E).
    rewrite L in LS; simpl in LS; subst s0.
    pose proof (main_loop_blocks _ _ _ _ _ _ _ eq_refl E)
      as (blocks & BL & BT & BF).
    apply main_loop_tally in E as (A & S & Len); [ | lia].
    simpl in Len; split; [exact S | split].
    + rewrite T, tally_app, A, Len.
      change (tally is_account_delay [Called (telegram_summary rs)])
        with 0%nat; lia.
    + exists blocks; split; [lia | split; assumption].
  - intros e s1 E.
    destruct (main_after_throw env e s s1 E) as (s' & Em & _ & T).
    rewrite Em; cbn [snd]; rewrite T, tally_app.
    pose proof (B s) as X; rewrite E in X; cbn [snd] in X.
    rewrite (extends_tally _ is_summary _ _
               (fun x H => proj1 (negb_true_iff _) H) X).
    match goal with
    | |- (_ + tally is_summary [?x])%nat = _ =>
        change (tally is_summary [x]) with 0%nat
    end; lia.
Qed.

End Log_facts.

(** ** More about start-up, waiting and classification *)

Section Edge_facts.

Context {W : Type} (env : Env W).

Lemma load_failure_reported (s : State W) text :
  load_accounts env s = (Throw (new_Error text), s) ->
  init_failure_reported env s text.
Proof.
  intros L.
  assert (B : run_batch env s = (Throw (new_Error text), s))
    by (unfold run_batch; apply bind_Throw, L).
  destruct (main_after_throw env _ s s B) as (s' & Em & Ec & Et).
  exists s'; auto.
Qed.

(** X5.  Each way of failing the start-up validation is reported under
    its own message, and the first check that fails decides: a variable
    that is unset or empty is reported as not set, before its text is
    parsed; a text that is no JSON gets the format message in place of
    the parser's error; [null] and values that are no objects get the
    object message; an object or array without entries gets the
    no-account message. *)
Theorem initialization_failure_names_its_cause (s : State W) :
  (process_env env "USERNAME_AND_PASSWORD" (world s) = None \/
   process_env env "USERNAME_AND_PASSWORD" (world s) = Some EmptyString ->
   init_failure_reported env s "环境变量 USERNAME_AND_PASSWORD 未设置") /\
  (forall c rest,
      process_env env "USERNAME_AND_PASSWORD" (world s)
        = Some (String c rest) ->
      (JSON_parse env (String c rest) = None ->
       init_failure_reported env s
         "USERNAME_AND_PASSWORD 格式错误，应为有效的 JSON 字符串") /\
      (forall a,
          JSON_parse env (String c rest) = Some a ->
          (typeof a <> TObject \/ a = JNull ->
           init_failure_reported env s "USERNAME_AND_PASSWORD 应为对象格式") /\
          (typeof a = TObject -> a <> JNull -> Object_entries a = [] ->
           init_failure_reported env s "未找到有效的账户信息"))).
Proof.
  split.
  - intros H; apply load_failure_reported.
    unfold load_accounts; apply bind_Throw, envOrThrow_unset, H.
  - intros c rest H; split.
    + intros P; apply load_failure_reported; unfold load_accounts.
      rewrite (bind_Ok _ _ _ _ _ _ _ (envOrThrow_set env _ _ _ _ H)), P.
      reflexivity.
    + intros a P; split.
      * intros T; apply load_failure_reported; unfold load_accounts.
        rewrite (bind_Ok _ _ _ _ _ _ _ (envOrThrow_set env _ _ _ _ H)), P.
        destruct T as [T | ->]; [ | reflexivity].
        destruct a; try reflexivity; destruct T; reflexivity.
      * intros T N O; apply load_failure_reported; unfold load_accounts.
        rewrite (bind_Ok _ _ _ _ _ _ _ (envOrThrow_set env _ _ _ _ H)), P.
        destruct a; try discriminate; try (destruct N; reflexivity);
          unfold bind, ret; simpl; simpl in O; rewrite O; reflexivity.
Qed.

(** *** The failure branch without a usable error text *)

(** Selectors that match nothing are counted and passed over. *)
Lemma scan_errors_none n :
  forall sels errorMsg (s : State W),
    counts env (world s) n ->
    (forall x, In x sels -> n x = 0%nat) ->
    scan_errors env sels errorMsg s =
    (Ok errorMsg,
     mkState (world s) (trace s ++ map count_entry sels) (exitCode s)).
Proof.
  induction sels as [ | sel rest IH]; intros errorMsg s C Z; simpl.
  - rewrite app_nil_r; destruct s; reflexivity.
  - rewrite (bind_Ok _ _ _ _ _ _ _ (perform_count env n sel s C)).
    destruct (Nat.ltb 0 (n sel)) eqn:Hn;
      [apply Nat.ltb_lt in Hn; rewrite (Z sel (or_introl eq_refl)) in Hn; lia
      | ].
    rewrite IH; [ | exact C | intros x Hx; apply Z; right; exact Hx].
    simpl; rewrite <- app_assoc; reflexivity.
Qed.

Lemma classify_failure_branch user spAfter (s : State W) n :
  counts env (world s) n ->
  verdict (page_url env (world s)) n = false ->
  classify env user spAfter s =
  (errorMsg <- scan_errors env errorSelectors EmptyString ;;
   errorMsg <- generic_error env errorMsg ;;
   notifyTelegram env
     (mkNotification false "登录结果"
        (if JsString.truthy errorMsg then "登录失败: " ++ errorMsg
         else "登录失败（原因未知）")
        (Some spAfter) user) ;;
   ret (mkResult false user
          (if JsString.truthy errorMsg then errorMsg else "登录失败")))
    (mkState (world s)
             (trace s ++ map count_entry (scanned n successSelectors))
             (exitCode s)).
Proof.
  intros C V; unfold classify.
  destruct (scan_success_spec env n successSelectors 0%nat s C)
    as (h & Eh & Hh).
  unfold bind at 1, get_url at 1.
  rewrite (bind_Ok _ _ _ _ _ _ _ Eh), Hh.
  unfold verdict in V; simpl (Nat.ltb 0 0); rewrite orb_false_l, V.
  reflexivity.
Qed.

Lemma generic_error_fallback (s : State W) title body :
  title_is env (world s) title ->
  body_reads env (world s) body ->
  exists s',
    generic_error env EmptyString s =
    (Ok (if (JsString.includes title "Error"
             || JsString.includes (text_or_empty body) "Error")%bool
         then "页面显示错误状态" else EmptyString), s').
Proof.
  intros T B; unfold generic_error; cbn [JsString.truthy].
  assert (E1 : perform env page_title s =
               (Ok title, mkState (world s) (trace s ++ [Called page_title])
                                  (exitCode s))).
  { rewrite perform_run; unfold title_is in T; rewrite T; reflexivity. }
  rewrite (bind_Ok _ _ _ _ _ _ _ E1).
  set (s1 := mkState (world s) (trace s ++ [Called page_title]) (exitCode s)).
  assert (E2 : exists s2,
             try_catch (perform env (locator_innerText (Locator (css "body"))))
                       (fun _ => ret EmptyString) s1
             = (Ok (text_or_empty body), s2)).
  { unfold try_catch; rewrite perform_run; unfold body_reads in B.
    unfold s1; cbn [world]; rewrite B; cbn [fst snd].
    destruct body; eexists; reflexivity. }
  destruct E2 as (s2 & E2); rewrite (bind_Ok _ _ _ _ _ _ _ E2).
  exists s2; destruct (_ || _)%bool; reflexivity.
Qed.

(** X6.  On a settled page that is not a success and on which no error
    selector matches anything, the reason of the failure comes from the
    title and the body text: the fixed phrase for an error page when one
    of them contains Error, with this very capitalisation, and the plain
    failure phrase otherwise.  A body text that cannot be read counts as
    empty. *)
Theorem failure_without_error_text_falls_back
        user spAfter (s : State W) n title body :
  counts env (world s) n ->
  title_is env (world s) title ->
  body_reads env (world s) body ->
  verdict (page_url env (world s)) n = false ->
  (forall x, In x errorSelectors -> n x = 0%nat) ->
  exists s',
    classify env user spAfter s =
    (Ok (mkResult false user
           (if (JsString.includes title "Error"
                || JsString.includes (text_or_empty body) "Error")%bool
            then "页面显示错误状态" else "登录失败")), s').
Proof.
  intros C T B V Z.
  rewrite (classify_failure_branch user spAfter s n C V).
  set (s1 := mkState (world s)
                     (trace s ++ map count_entry (scanned n successSelectors))
                     (exitCode s)).
  rewrite (bind_Ok _ _ _ _ _ _ _
             (scan_errors_none n errorSelectors EmptyString s1 C Z)).
  set (s2 := mkState (world s1) (trace s1 ++ map count_entry errorSelectors)
                     (exitCode s1)).
  destruct (generic_error_fallback s2 title body T B) as (s3 & E3).
  rewrite (bind_Ok _ _ _ _ _ _ _ E3).
  match goal with
  | |- context [notifyTelegram env ?x] =>
      destruct (notifyTelegram_spec env x s3) as (s4 & E4 & _)
  end.
  rewrite (bind_Ok _ _ _ _ _ _ _ E4).
  exists s4; destruct (_ || _)%bool; reflexivity.
Qed.

(** X7.  The error scan breaks off only at a text of more than one
    character, but it keeps whatever it read last: on a settled page
    that is not a success, when exactly one error selector matches and
    its text is a single character, that character is the reason of the
    failure. *)
Theorem single_character_error_text_is_kept
        user spAfter (s : State W) n t pre sel post x :
  counts env (world s) n ->
  first_texts env (world s) t ->
  verdict (page_url env (world s)) n = false ->
  errorSelectors = (pre ++ sel :: post)%list ->
  (forall y, In y pre -> n y = 0%nat) ->
  (forall y, In y post -> n y = 0%nat) ->
  (0 < n sel)%nat ->
  t sel = Ok x ->
  JsString.truthy x = true ->
  (JsString.length x <= 1)%nat ->
  exists s', classify env user spAfter s = (Ok (mkResult false user x), s').
Proof.
  intros C T V Sel Zpre Zpost Hn Ht Hx Hl.
  rewrite (classify_failure_branch user spAfter s n C V).
  set (s1 := mkState (world s)
                     (trace s ++ map count_entry (scanned n successSelectors))
                     (exitCode s)).
  assert (E : exists s2,
             scan_errors env errorSelectors EmptyString s1 = (Ok x, s2)).
  { rewrite Sel.
    assert (G : forall l1 l2 m (s0 : State W),
               counts env (world s0) n ->
               (forall y, In y l1 -> n y = 0%nat) ->
               scan_errors env (l1 ++ l2) m s0 =
               scan_errors env l2 m
                 (mkState (world s0) (trace s0 ++ map count_entry l1)
                          (exitCode s0))).
    { induction l1 as [ | y l1 IH]; intros l2 m s0 C0 Z0; simpl.
      - rewrite app_nil_r; destruct s0; reflexivity.
      - rewrite (bind_Ok _ _ _ _ _ _ _ (perform_count env n y s0 C0)).
        destruct (Nat.ltb 0 (n y)) eqn:Hy;
          [apply Nat.ltb_lt in Hy;
           rewrite (Z0 y (or_introl eq_refl)) in Hy; lia | ].
        rewrite IH; [ | exact C0 | intros z Hz; apply Z0; right; exact Hz].
        simpl; rewrite <- app_assoc; reflexivity. }
    rewrite (G pre (sel :: post) EmptyString s1 C Zpre).
    set (s2 := mkState (world s1) (trace s1 ++ map count_entry pre)
                       (exitCode s1)).
    cbn [scan_errors].
    rewrite (bind_Ok _ _ _ _ _ _ _ (perform_count env n sel s2 C)).
    apply Nat.ltb_lt in Hn; rewrite Hn.
    erewrite bind_Ok.
    2:{ apply try_catch_Ok.
        rewrite (perform_first_text env t) by exact T.
        rewrite Ht; reflexivity. }
    replace (Nat.ltb 1 (JsString.length x)) with false
      by (symmetry; apply Nat.ltb_ge; exact Hl).
    rewrite andb_false_r.
    rewrite scan_errors_none with (n := n); [ | exact C | exact Zpost].
    eexists; reflexivity. }
  destruct E as (s2 & E); rewrite (bind_Ok _ _ _ _ _ _ _ E).
  unfold generic_error; rewrite Hx.
  unfold bind at 1, ret at 1.
  match goal with
  | |- context [notifyTelegram env ?m] =>
      destruct (notifyTelegram_spec env m s2) as (s3 & E3 & _)
  end.
  rewrite (bind_Ok _ _ _ _ _ _ _ E3), Hx.
  exists s3; reflexivity.
Qed.

(** *** smartWait *)

Lemma smartWait_loop_true condition startTime timeout checkInterval :
  forall fuel (s s' : State W),
    smartWait_loop env fuel condition startTime timeout checkInterval s
      = (Ok true, s') ->
    exists s0, condition s0 = (Ok true, s').
Proof.
  induction fuel as [ | fuel IH]; intros s s' E; [discriminate | ].
  rewrite smartWait_loop_pass in E.
  destruct (Date_now env (world s) - startTime <? timeout); [ | discriminate].
  unfold bind at 1, try_catch in E.
  destruct (condition s) as [[[ | ] | e] s1] eqn:Ec; cbn [ret] in E.
  - inversion E; subst; exists s; exact Ec.
  - apply bind_inv_Ok in E as (_ & s2 & _ & E); eapply IH; exact E.
  - apply bind_inv_Ok in E as (_ & s2 & _ & E); eapply IH; exact E.
Qed.

Lemma smartWait_loop_throw condition startTime timeout checkInterval :
  forall fuel (s s' : State W) e,
    smartWait_loop env fuel condition startTime timeout checkInterval s
      = (Throw e, s') ->
    exists w w', run env (page_waitForTimeout checkInterval) w = (Throw e, w').
Proof.
  induction fuel as [ | fuel IH]; intros s s' e E; [discriminate | ].
  rewrite smartWait_loop_pass in E.
  destruct (Date_now env (world s) - startTime <? timeout); [ | discriminate].
  assert (K : forall s1,
             (perform env (page_waitForTimeout checkInterval) ;;
              smartWait_loop env fuel condition startTime timeout
                             checkInterval) s1 = (Throw e, s') ->
             exists w w',
               run env (page_waitForTimeout checkInterval) w = (Throw e, w')).
  { intros s1 E1; unfold bind in E1; rewrite perform_run in E1.
    destruct (run env (page_waitForTimeout checkInterval) (world s1))
      as [[[] | e1] w1] eqn:R; cbn [fst snd] in E1.
    - eapply IH; exact E1.
    - inversion E1; subst; eauto. }
  unfold bind at 1, try_catch in E.
  destruct (condition s) as [[[ | ] | e0] s1]; cbn [ret] in E.
  - discriminate.
  - apply (K s1 E).
  - apply (K s1 E).
Qed.

(** X8.  [smartWait] answers true only in the state the condition has
    just left with the answer true; and with a deadline that is not in
    the future it answers false at once, without evaluating the
    condition and without waiting. *)
Theorem smartWait_answers_true_only_after_the_condition
        condition timeout checkInterval (s : State W) :
  (forall s',
      smartWait env condition timeout checkInterval s = (Ok true, s') ->
      exists s0, condition s0 = (Ok true, s')) /\
  (timeout <= 0 ->
   smartWait env condition timeout checkInterval s = (Ok false, s)).
Proof.
  split.
  - intros s' E; unfold smartWait in E.
    unfold bind at 1, get_now at 1 in E.
    eapply smartWait_loop_true; exact E.
  - intros H; unfold smartWait, smartWait_fuel.
    unfold bind at 1, get_now at 1.
    replace (Z.to_nat (timeout / checkInterval) + 2)%nat
      with (S (Z.to_nat (timeout / checkInterval) + 1)) by lia.
    rewrite smartWait_loop_pass.
    replace (Date_now env (world s) - Date_now env (world s) <? timeout)
      with false by (symmetry; apply Z.ltb_ge; lia).
    reflexivity.
Qed.

(** X9.  An error of the condition never leaves [smartWait]: whenever
    [smartWait] throws, the error is one that [page.waitForTimeout] has
    thrown between two checks. *)
Theorem smartWait_throws_only_what_the_timer_throws
        condition timeout checkInterval (s s' : State W) e :
  smartWait env condition timeout checkInterval s = (Throw e, s') ->
  exists w w', run env (page_waitForTimeout checkInterval) w = (Throw e, w').
Proof.
  intros E; unfold smartWait in E.
  unfold bind at 1, get_now at 1 in E.
  eapply smartWait_loop_throw; exact E.
Qed.

(** X10.  As long as the clock does not run backwards over the condition
    and a timer waits at least its delay, the loop of [smartWait] has
    reached its deadline after [timeout / checkInterval + 1] passes:
    allowing it any number of passes beyond that gives the same run. *)
Theorem smartWait_ends_by_its_deadline
        condition timeout checkInterval fuel (s : State W) :
  timer_waits env ->
  keeps_time env condition ->
  0 < checkInterval ->
  (smartWait_fuel timeout checkInterval <= fuel)%nat ->
  smartWait_loop env fuel condition (Date_now env (world s))
                 timeout checkInterval s =
  smartWait env condition timeout checkInterval s.
Proof.
  intros Tw Kc Hi Hf.
  replace fuel
    with (smartWait_fuel timeout checkInterval
          + (fuel - smartWait_fuel timeout checkInterval))%nat by lia.
  apply smartWait_fuel_enough; assumption.
Qed.

End Edge_facts.

(** ** The paths of the captures *)

Lemma append_cancel_l (a x y : string) : a ++ x = a ++ y -> x = y.
Proof.
  induction a as [ | c a IH]; simpl; intros H; [exact H | ].
  inversion H; auto.
Qed.

Lemma length_append (x y : string) :
  String.length (x ++ y) = (String.length x + String.length y)%nat.
Proof. induction x as [ | c x IH]; simpl; [reflexivity | rewrite IH; lia]. Qed.

Lemma append_cancel_r (a : string) :
  forall x y : string, x ++ a = y ++ a -> x = y.
Proof.
  induction x as [ | c x IH]; intros [ | d y] H; simpl in H.
  - reflexivity.
  - apply (f_equal String.length) in H; simpl in H.
    rewrite length_append in H; lia.
  - apply (f_equal String.length) in H; simpl in H.
    rewrite length_append in H; lia.
  - inversion H; subst; f_equal; apply IH; assumption.
Qed.

(** Two integers with the same decimal rendering are the same. *)
Lemma of_Z_inj (a b : Z) : JsString.of_Z a = JsString.of_Z b -> a = b.
Proof.
  unfold JsString.of_Z; intros H.
  assert (N : forall z, Z.to_int z <> Decimal.Pos Decimal.Nil /\
                        Z.to_int z <> Decimal.Neg Decimal.Nil).
  { intros z; split; intros E;
      pose proof (DecimalZ.of_to z) as O; rewrite E in O; simpl in O;
      subst z; discriminate. }
  apply DecimalZ.to_int_inj.
  assert (S : Some (Z.to_int a) = Some (Z.to_int b)).
  { rewrite <- (NilZero.isi (Z.to_int a)) by apply N.
    rewrite <- (NilZero.isi (Z.to_int b)) by apply N.
    rewrite H; reflexivity. }
  inversion S; reflexivity.
Qed.

(** For one account and one stage, the path of a capture tells the
    retry count. *)
Lemma screenshot_retry_inj
        user index name retryCount1 retryCount2 :
  0 <= retryCount1 ->
  0 <= retryCount2 ->
  screenshot user index retryCount1 name
    = screenshot user index retryCount2 name ->
  retryCount1 = retryCount2.
Proof.
  intros H1 H2 E; unfold screenshot in E.
  do 6 apply append_cancel_l in E.
  apply append_cancel_r in E.
  destruct (0 <? retryCount1) eqn:P1; destruct (0 <? retryCount2) eqn:P2.
  - apply append_cancel_l in E; apply of_Z_inj, E.
  - discriminate.
  - discriminate.
  - apply Z.ltb_ge in P1, P2; lia.
Qed.

(** X11.  For one account and one stage, every attempt writes its capture
    to a path of its own: two different retry counts give two different
    paths.  The capture of a retry therefore never overwrites the
    capture of the first try or of another retry. *)
Theorem each_retry_has_its_own_capture_path
        user index name retryCount1 retryCount2 :
  0 <= retryCount1 ->
  0 <= retryCount2 ->
  retryCount1 <> retryCount2 ->
  screenshot user index retryCount1 name
    <> screenshot user index retryCount2 name.
Proof.
  intros H1 H2 D E; apply D.
  exact (screenshot_retry_inj user index name retryCount1 retryCount2
                              H1 H2 E).
Qed.

(** ** The notifiers from the inside *)

Section Notifier_facts.

Context {V : Type} (host : Telegram.Host V).

(** X12.  Without a bot token or without a chat id (unset or empty)
    neither notifier makes a request: both return with the state as it
    was. *)
Theorem notifiers_without_credentials_send_nothing
        (n : Notification) (results : list Outcome) (s : State (Telegram.Wire V)) :
  Telegram.unset
    (Telegram.variable host "TELEGRAM_BOT_TOKEN" (Telegram.outside (world s)))
    = true \/
  Telegram.unset
    (Telegram.variable host "TELEGRAM_CHAT_ID" (Telegram.outside (world s)))
    = true ->
  Telegram.notifyTelegram_body host n s = (Ok tt, s) /\
  Telegram.sendSummaryNotification_body host results s = (Ok tt, s).
Proof.
  intros H.
  assert (E : (Telegram.unset
                 (Telegram.variable host "TELEGRAM_BOT_TOKEN"
                    (Telegram.outside (world s)))
               || Telegram.unset
                    (Telegram.variable host "TELEGRAM_CHAT_ID"
                       (Telegram.outside (world s))))%bool = true).
  { apply orb_true_iff; exact H. }
  split.
  - unfold Telegram.notifyTelegram_body, try_catch, bind, Telegram.getenv.
    rewrite E; reflexivity.
  - unfold Telegram.sendSummaryNotification_body, try_catch, bind,
      Telegram.getenv.
    rewrite E; reflexivity.
Qed.

(** X13.  With both credentials set, [notifyTelegram] never throws and
    posts the text message first, whatever becomes of it.  At most one
    more request follows, the photo, and then the message was delivered,
    a capture path was given, and the file was there and could be read;
    the photo carries the bytes of that file. *)
Theorem notification_is_a_message_then_at_most_a_photo
        (n : Notification) (s : State (Telegram.Wire V)) :
  Telegram.has_credentials host (Telegram.outside (world s)) ->
  exists s',
    Telegram.notifyTelegram_body host n s = (Ok tt, s') /\
    trace s' = trace s /\ exitCode s' = exitCode s /\
    let v := Telegram.outside (world s) in
    let m := Telegram.message_request host n v in
    (Telegram.sent (world s') = (Telegram.sent (world s) ++ [m])%list \/
     exists path image,
       screenshotPath n = Some path /\
       fst (Telegram.fetch host m v) = Ok tt /\
       Telegram.existsSync host path (snd (Telegram.fetch host m v)) = true /\
       Telegram.readFileSync host path (snd (Telegram.fetch host m v))
         = Ok image /\
       Telegram.sent (world s')
         = (Telegram.sent (world s)
              ++ [m; Telegram.photo_request host n v image])%list).
Proof.
  intros [Ht Hc].
  unfold Telegram.notifyTelegram_body, try_catch, bind, Telegram.getenv,
    Telegram.now_iso.
  rewrite Ht, Hc; cbn [orb].
  unfold Telegram.post at 1; cbn [world trace exitCode Telegram.outside
                                    Telegram.sent].
  fold (Telegram.message_request host n (Telegram.outside (world s))).
  set (m := Telegram.message_request host n (Telegram.outside (world s))).
  destruct (Telegram.fetch host m (Telegram.outside (world s)))
    as [answer v1] eqn:F.
  cbn [fst snd].
  assert (Done : forall w : Telegram.Wire V,
             Telegram.sent w = (Telegram.sent (world s) ++ [m])%list ->
             exists s',
               (Ok tt, mkState w (trace s) (exitCode s)) = (Ok tt, s') /\
               trace s' = trace s /\ exitCode s' = exitCode s /\
               (Telegram.sent (world s')
                  = (Telegram.sent (world s) ++ [m])%list \/
                exists path image,
                  screenshotPath n = Some path /\
                  answer = Ok tt /\
                  Telegram.existsSync host path v1 = true /\
                  Telegram.readFileSync host path v1 = Ok image /\
                  Telegram.sent (world s')
                    = (Telegram.sent (world s)
                         ++ [m; Telegram.photo_request host n
                                  (Telegram.outside (world s)) image])%list)).
  { intros w E; eexists; split; [reflexivity | ].
    split; [reflexivity | split; [reflexivity | left; exact E] ]. }
  destruct answer as [[] | e];
    [ | cbv beta iota; unfold ret; apply Done; reflexivity].
  unfold Telegram.send_photo.
  destruct (screenshotPath n) as [path | ] eqn:P;
    [ | cbv beta iota; unfold ret; apply Done; reflexivity].
  destruct (JsString.truthy path) eqn:T;
    [ | cbv beta iota; unfold ret; apply Done; reflexivity].
  unfold bind, Telegram.file_exists, Telegram.read_file.
  cbn [world trace exitCode Telegram.outside Telegram.sent].
  destruct (Telegram.existsSync host path v1) eqn:X;
    [ | cbv beta iota; unfold ret; apply Done; reflexivity].
  cbn [world trace exitCode Telegram.outside Telegram.sent].
  destruct (Telegram.readFileSync host path v1) as [image | e] eqn:R;
    [ | cbv beta iota; unfold ret; apply Done; reflexivity].
  unfold Telegram.post.
  cbn [world trace exitCode Telegram.outside Telegram.sent].
  fold (Telegram.photo_request host n (Telegram.outside (world s)) image).
  destruct (Telegram.fetch host
              (Telegram.photo_request host n (Telegram.outside (world s)) image)
              v1) as [answer2 v2].
  assert (Photo : exists s',
             (Ok tt,
              mkState
                (Telegram.mkWire v2
                   ((Telegram.sent (world s) ++ [m])
                      ++ [Telegram.photo_request host n
                            (Telegram.outside (world s)) image])%list)
                (trace s) (exitCode s)) = (Ok tt, s') /\
             trace s' = trace s /\ exitCode s' = exitCode s /\
             (Telegram.sent (world s')
                = (Telegram.sent (world s) ++ [m])%list \/
              exists path0 image,
                Some path = Some path0 /\
                Ok tt = Ok tt /\
                Telegram.existsSync host path0 v1 = true /\
                Telegram.readFileSync host path0 v1 = Ok image /\
                Telegram.sent (world s')
                  = (Telegram.sent (world s)
                       ++ [m; Telegram.photo_request host n
                                (Telegram.outside (world s)) image])%list)).
  { eexists; split; [reflexivity | ].
    split; [reflexivity | split; [reflexivity | ] ].
    right; exists path, image.
    cbn [world Telegram.sent]; rewrite <- app_assoc.
    split; [reflexivity | split; [reflexivity | ] ].
    split; [exact X | split; [exact R | reflexivity] ]. }
  destruct answer2 as [[] | e2]; exact Photo.
Qed.

(** X14.  With both credentials set, [sendSummaryNotification] never
    throws and makes exactly one request, the summary message, whether or
    not the request is answered. *)
Theorem summary_is_one_message
        (results : list Outcome) (s : State (Telegram.Wire V)) :
  Telegram.has_credentials host (Telegram.outside (world s)) ->
  exists s',
    Telegram.sendSummaryNotification_body host results s = (Ok tt, s') /\
    trace s' = trace s /\ exitCode s' = exitCode s /\
    Telegram.sent (world s')
      = (Telegram.sent (world s)
           ++ [Telegram.summary_request host results
                 (Telegram.outside (world s))])%list.
Proof.
  intros [Ht Hc].
  unfold Telegram.sendSummaryNotification_body, try_catch, bind,
    Telegram.getenv, Telegram.now_iso.
  rewrite Ht, Hc; cbn [orb].
  unfold Telegram.post; cbn [world trace exitCode Telegram.outside
                               Telegram.sent].
  fold (Telegram.summary_request host results (Telegram.outside (world s))).
  destruct (Telegram.fetch host _ (Telegram.outside (world s)))
    as [answer v1].
  destruct answer as [[] | e]; unfold ret; eexists;
    (split; [reflexivity | ]);
    (split; [reflexivity | split; reflexivity]).
Qed.

End Notifier_facts.

(** The failure number of the summary counts the outcomes that are no
    success. *)
Lemma failureCount_counts (results : list Outcome) :
  Telegram.failureCount results
  = Z.of_nat
      (List.length (filter (fun r => negb (outcome_success r)) results)).
Proof.
  unfold Telegram.failureCount, Telegram.totalCount, Telegram.successCount.
  induction results as [ | o rest IH]; [reflexivity | ].
  cbn [filter List.length].
  destruct (outcome_success o); cbn [negb List.length]; lia.
Qed.

Lemma summary_lines_length (results : list Outcome) :
  forall index,
    List.length (Telegram.summary_lines index results)
    = List.length results.
Proof.
  induction results as [ | o rest IH]; intros index; [reflexivity | ].
  cbn [Telegram.summary_lines List.length]; rewrite IH; reflexivity.
Qed.

Lemma some_failure_iff_failureCount (results : list Outcome) :
  existsb (fun r => negb (outcome_success r)) results
  = negb (Telegram.failureCount results =? 0).
Proof.
  rewrite failureCount_counts.
  induction results as [ | o rest IH]; [reflexivity | ].
  cbn [existsb filter].
  destruct (outcome_success o); cbn [negb orb List.length].
  - exact IH.
  - destruct (Z.eqb_spec (Z.of_nat (S (List.length
        (filter (fun r => negb (outcome_success r)) rest)))) 0) as [E | E];
      [lia | reflexivity].
Qed.

Section Summary_facts.

Context {W : Type} (env : Env W).

(** X15.  When every account was processed, the numbers of the summary
    and the exit code agree: the successes and the failures add up to the
    number of accounts, there is one detailed line per account, and the
    run ends with exit code 0 exactly when the failure number of the
    summary is 0, with 1 otherwise; whether the summary could be sent
    plays no part. *)
Theorem summary_numbers_agree_with_the_exit_code
        (s s1 : State W) (results : list Outcome) :
  run_batch env s = (Ok results, s1) ->
  0 <= Telegram.failureCount results /\
  Z.of_nat (Telegram.successCount results) + Telegram.failureCount results
    = Z.of_nat (Telegram.totalCount results) /\
  List.length (Telegram.summary_lines 0 results)
    = Telegram.totalCount results /\
  exists s',
    main env s = (Ok tt, s') /\
    exitCode s'
      = Some (if Telegram.failureCount results =? 0 then 0 else 1).
Proof.
  intros H.
  split; [rewrite failureCount_counts; lia | ].
  split; [unfold Telegram.failureCount; lia | ].
  split; [apply summary_lines_length | ].
  unfold main, try_catch, main_try, bind at 1; rewrite H.
  unfold bind, sendSummaryNotification, try_catch, perform.
  rewrite some_failure_iff_failureCount.
  destruct (run env (telegram_summary results) (world s1)) as [answer w].
  destruct answer as [[] | e]; unfold ret;
    destruct (Telegram.failureCount results =? 0); cbn [negb];
    unfold set_exitCode; eexists; split; reflexivity.
Qed.

End Summary_facts.

(** ** Reading the page *)

Section Reading_facts.

Context {W : Type} (env : Env W) (P : entry -> bool).

Hypothesis counting : forall l, P (Called (locator_count l)) = true.
Hypothesis reading : forall l, P (Called (locator_innerText l)) = true.

Lemma only_scan_success_of :
  forall sels hint, only P (scan_success env sels hint).
Proof.
  induction sels as [ | sel rest IH]; intros hint; simpl.
  - apply only_ret.
  - apply only_bind; [apply only_perform, counting | intros n].
    apply only_if; [apply only_ret | apply IH].
Qed.

Lemma only_scan_errors_of :
  forall sels errorMsg, only P (scan_errors env sels errorMsg).
Proof.
  induction sels as [ | sel rest IH]; intros errorMsg; simpl.
  - apply only_ret.
  - apply only_bind; [apply only_perform, counting | intros n].
    apply only_if; [ | apply IH].
    apply only_bind; [ | intros m; apply only_if; [apply only_ret | apply IH]].
    apply only_try_catch; [apply only_perform, reading | ].
    intros e; apply only_ret.
Qed.

Lemma only_generic_error_of errorMsg :
  P (Called page_title) = true -> only P (generic_error env errorMsg).
Proof.
  intros titling.
  unfold generic_error; apply only_if; [apply only_ret | ].
  apply only_bind; [apply only_perform, titling | intros title].
  apply only_bind; [ | intros body; apply only_if; apply only_ret].
  apply only_try_catch; [apply only_perform, reading | ].
  intros e; apply only_ret.
Qed.

End Reading_facts.

(** ** The login form *)

Section Form_facts.

Context {W : Type} (env : Env W).

(** The calls are made in turn until one rejects; [k] runs after the
    last. *)
Lemma in_turn_log (A : Type) (k : M W A) :
  forall cs (s : State W),
    (exists j e,
        (j <= List.length cs)%nat /\
        fst (in_turn env cs k s) = Throw e /\
        trace (snd (in_turn env cs k s))
          = (trace s ++ firstn j (map (@Called unit) cs))%list) \/
    (exists s1,
        trace s1 = (trace s ++ map (@Called unit) cs)%list /\
        in_turn env cs k s = k s1).
Proof.
  induction cs as [ | c rest IH]; intros s.
  - right; exists s; split; [rewrite app_nil_r; reflexivity | reflexivity].
  - cbn [in_turn]; unfold bind; rewrite perform_run.
    destruct (fst (run env c (world s))) as [[] | e] eqn:R; cbv beta iota.
    + set (s0 := mkState (snd (run env c (world s)))
                         (trace s ++ [Called c]) (exitCode s)).
      destruct (IH s0) as [(j & e & Hj & Ht & Hl) | (s1 & Hl & Hk)].
      * left; exists (S j), e.
        split; [cbn [List.length]; lia | ].
        split; [exact Ht | ].
        rewrite Hl; unfold s0; cbn [trace map firstn].
        rewrite <- app_assoc; reflexivity.
      * right; exists s1; split; [ | exact Hk].
        rewrite Hl; unfold s0; cbn [trace map].
        rewrite <- app_assoc; reflexivity.
    + left; exists 1%nat, e.
      split; [cbn [List.length]; lia | ].
      split; reflexivity.
Qed.

Lemma only_classify_reads user spAfter :
  only leaves_form_alone (classify env user spAfter).
Proof.
  unfold classify.
  apply only_bind; [apply only_quiet; reflexivity | intros url].
  apply only_bind;
    [apply only_scan_success_of; intros l; reflexivity | intros hint].
  apply only_if.
  - apply only_bind; [apply only_notifyTelegram; reflexivity | intros _].
    apply only_ret.
  - apply only_bind;
      [apply only_scan_errors_of; intros l; reflexivity | intros m1].
    apply only_bind;
      [apply only_generic_error_of; [intros l | ]; reflexivity | intros m2].
    apply only_bind; [apply only_notifyTelegram; reflexivity | intros _].
    apply only_ret.
Qed.

(** Whatever an attempt does besides filling the form leaves the form
    alone. *)
Lemma no_form_stage_leaves_form_alone (e : entry) :
  no_form_stage e = true -> leaves_form_alone e = true.
Proof.
  unfold no_form_stage, leaves_form_alone.
  destruct e as [A c | ms | lo hi]; [ | reflexivity | reflexivity].
  destruct c; simpl; intros H; try reflexivity; discriminate.
Qed.

Lemma in_steps_of_only (A : Type) steps (m : M W A) :
  only leaves_form_alone m -> in_steps steps m.
Proof.
  intros H s; destruct (H s) as (added & Ht & Hp).
  exists added, 0%nat, []; cbn [firstn app].
  rewrite app_nil_r; auto.
Qed.

Lemma in_steps_bind (A B : Type) steps (m : M W A) (k : A -> M W B) :
  only leaves_form_alone m ->
  (forall a, in_steps steps (k a)) ->
  in_steps steps (bind m k).
Proof.
  intros Hm Hk s; unfold bind.
  destruct (Hm s) as (l0 & Ht0 & Hp0).
  destruct (m s) as [[a | e] s0]; cbn [snd] in Ht0.
  - destruct (Hk a s0) as (before & j & after & Ht & Hb & Ha).
    exists (l0 ++ before)%list, j, after.
    rewrite Ht, Ht0, <- !app_assoc.
    split; [reflexivity | ].
    rewrite forallb_app, Hp0, Hb; auto.
  - exists l0, 0%nat, []; cbn [firstn app snd].
    rewrite app_nil_r; auto.
Qed.

Lemma in_steps_then (A : Type) steps (m : M W A) (s : State W) :
  in_steps steps m ->
  forall s', extends leaves_form_alone (snd (m s)) s' ->
  exists before j after,
    trace s' = (trace s ++ before ++ firstn j steps ++ after)%list /\
    forallb leaves_form_alone before = true /\
    forallb leaves_form_alone after = true.
Proof.
  intros Hm s' (l1 & Ht1 & Hp1).
  destruct (Hm s) as (before & j & after & Ht & Hb & Ha).
  exists before, j, (after ++ l1)%list.
  rewrite Ht1, Ht, <- !app_assoc.
  split; [reflexivity | ].
  rewrite forallb_app, Ha, Hp1; auto.
Qed.

Lemma in_steps_try_catch (A : Type) steps (m : M W A) h :
  in_steps steps m ->
  (forall e, only leaves_form_alone (h e)) ->
  in_steps steps (try_catch m h).
Proof.
  intros Hm Hh s; unfold try_catch.
  destruct (m s) as [[a | e] s0] eqn:E.
  - replace s0 with (snd (m s)) by (rewrite E; reflexivity).
    apply (Hm s).
  - apply (in_steps_then _ _ m s Hm).
    rewrite E; apply (Hh e s0).
Qed.

Lemma in_steps_try_finally (A : Type) steps (m : M W A) f :
  in_steps steps m ->
  only leaves_form_alone f ->
  in_steps steps (try_finally m f).
Proof.
  intros Hm Hf s; unfold try_finally.
  destruct (m s) as [r s1] eqn:E.
  apply (in_steps_then _ _ m s Hm).
  rewrite E; cbn [snd].
  pose proof (Hf s1) as X.
  destruct (f s1) as [[[] | e] s2]; exact X.
Qed.

Lemma fill_and_submit_in_steps user password index retryCount :
  in_steps (form_steps user password index retryCount)
           (fill_and_submit env user password index retryCount).
Proof.
  set (rest :=
         (try_catch (await_call env (page_waitForNavigation NAVIGATION_TIMEOUT))
                    (fun _ => ret tt) ;;
          try_catch (perform env (page_waitForLoadState 10000))
                    (fun _ => ret tt) ;;
          perform env (page_waitForTimeout 3000) ;;
          perform env (page_screenshot
                         (screenshot user index retryCount "03-after-submit")) ;;
          classify env user
                   (screenshot user index retryCount "03-after-submit"))%js).
  assert (Hrest : only leaves_form_alone rest).
  { unfold rest.
    apply only_bind;
      [apply only_try_catch;
       [apply only_await_call | intros e; apply only_ret]
      | intros _].
    apply only_bind;
      [apply only_try_catch;
       [apply only_perform; reflexivity | intros e; apply only_ret]
      | intros _].
    do 2 (apply only_bind; [apply only_perform; reflexivity | intros _]).
    apply only_classify_reads. }
  set (submit :=
         (begin_call (page_waitForNavigation NAVIGATION_TIMEOUT) ;;
          in_turn env [locator_click loginBtn 10000] rest)%js).
  change (fill_and_submit env user password index retryCount)
    with (bind (smartWait env (inputs_visible env) 30000 1000)
               (fun _ =>
                  in_turn env
                    [ locator_click userInput 10000;
                      locator_clear userInput;
                      locator_fill userInput (JStr user) 10000;
                      locator_click passInput 10000;
                      locator_clear passInput;
                      locator_fill passInput password 10000;
                      locator_waitFor loginBtn 15000;
                      page_screenshot
                        (screenshot user index retryCount "02-before-submit") ]
                    submit)).
  apply in_steps_bind.
  { apply only_smartWait; [ | reflexivity].
    unfold inputs_visible.
    apply only_bind; [apply only_perform; reflexivity | intros u].
    apply only_if; [apply only_perform; reflexivity | apply only_ret]. }
  intros _ s0.
  match goal with
  | |- context [in_turn env ?cs submit s0] =>
      destruct (in_turn_log _ submit cs s0)
        as [(j & e & Hj & Ht & Hl) | (s1 & Hl & Hk)]
  end.
  - exists [], j, []; cbn [app]; rewrite app_nil_r, Hl.
    cbn [List.length] in Hj.
    do 9 (destruct j as [ | j]; [split; [reflexivity | auto] | ]); lia.
  - rewrite Hk; unfold submit, bind at 1, begin_call at 1.
    set (s2 := mkState (world s1)
                       (trace s1 ++ [Called (page_waitForNavigation
                                               NAVIGATION_TIMEOUT)])
                       (exitCode s1)).
    destruct (in_turn_log _ rest [locator_click loginBtn 10000] s2)
      as [(j & e & Hj & Ht & Hc) | (s3 & Hc & Hr)].
    + exists [], (9 + j)%nat, []; cbn [app]; rewrite app_nil_r, Hc.
      unfold s2; cbn [trace]; rewrite Hl, <- !app_assoc.
      cbn [List.length] in Hj.
      destruct j as [ | [ | j]]; [ | | lia];
        (split; [reflexivity | auto]).
    + destruct (Hrest s3) as (after & Ha & Hp).
      exists [], 10%nat, after; cbn [app].
      rewrite Hr, Ha, Hc; unfold s2; cbn [trace].
      rewrite Hl, <- !app_assoc.
      split; [reflexivity | auto].
Qed.

(** X16.  What an attempt does to the login form is a beginning of one
    fixed sequence, each step made at most once and in this order: click,
    clear and fill the name; click, clear and fill the password, with the
    password of the account and into the password field; wait for the
    button, capture, call the wait for the navigation, click the button.
    Nothing else an attempt does, before or after, clicks, clears or
    fills anything, so the form is never submitted before both fields
    were filled, and never twice. *)
Theorem attempt_fills_the_form_in_order
        user password index retryCount (s : State W) :
  exists before j after,
    trace (snd (attemptLogin env user password index retryCount s))
      = (trace s ++ before
           ++ firstn j (form_steps user password index retryCount)
           ++ after)%list /\
    forallb leaves_form_alone before = true /\
    forallb leaves_form_alone after = true.
Proof.
  revert s.
  change (in_steps (form_steps user password index retryCount)
                   (attemptLogin env user password index retryCount)).
  unfold attemptLogin.
  apply in_steps_bind;
    [apply only_open_session; reflexivity | intros _].
  apply in_steps_try_finally;
    [ | apply only_attempt_finally_entries; reflexivity].
  apply in_steps_try_catch.
  - unfold attempt_try.
    apply in_steps_bind; [apply only_perform; reflexivity | intros _].
    apply in_steps_bind; [apply only_perform; reflexivity | intros n].
    destruct (Nat.ltb 0 n).
    + apply in_steps_of_only.
      eapply only_weaken;
        [exact no_form_stage_leaves_form_alone
        | apply only_human_check_found].
    + apply fill_and_submit_in_steps.
  - intros e.
    eapply only_weaken;
      [exact no_form_stage_leaves_form_alone | apply only_attempt_catch].
Qed.

End Form_facts.

(** ** Capture paths of different accounts *)

(** The decimal rendering of a number has no dash in it. *)
Lemma string_of_uint_dashless (d : Decimal.uint) :
  forall c, In c (list_ascii_of_string (NilEmpty.string_of_uint d)) ->
            c <> "-"%char.
Proof.
  induction d; simpl; intros c H;
    try (destruct H as [H | H]; [subst c; discriminate | auto]).
  contradiction.
Qed.

Lemma of_Z_dashless (z : Z) :
  0 <= z ->
  forall c, In c (list_ascii_of_string (JsString.of_Z z)) -> c <> "-"%char.
Proof.
  intros Hz c; unfold JsString.of_Z.
  destruct z as [ | p | p]; [ | | lia].
  - simpl; intros [H | []]; subst c; discriminate.
  - cbn [Z.to_int NilZero.string_of_int]; unfold NilZero.string_of_uint.
    destruct (Pos.to_uint p) eqn:E;
      try (rewrite <- E; apply string_of_uint_dashless).
    simpl; intros [H | []]; subst c; discriminate.
Qed.

(** Two texts without [c] in front of a [c] are the same text. *)
Lemma same_up_to_first (c : ascii) :
  forall x y r1 r2 : string,
    (forall a, In a (list_ascii_of_string x) -> a <> c) ->
    (forall a, In a (list_ascii_of_string y) -> a <> c) ->
    x ++ String c r1 = y ++ String c r2 ->
    x = y.
Proof.
  induction x as [ | a x IH]; intros [ | b y] r1 r2 Hx Hy E; simpl in E.
  - reflexivity.
  - inversion E; subst b; exfalso; apply (Hy c); [left | ]; reflexivity.
  - inversion E; subst a; exfalso; apply (Hx c); [left | ]; reflexivity.
  - inversion E; subst b; f_equal.
    apply (IH y r1 r2); [ | | assumption].
    + intros d Hd; apply Hx; right; exact Hd.
    + intros d Hd; apply Hy; right; exact Hd.
Qed.

(** X17.  Captures of different accounts never share a path: for one
    stage, two paths that agree were made for the same position in the
    list of accounts, whatever the usernames and the retry counts. *)
Theorem each_account_has_its_own_capture_paths
        user1 user2 index1 index2 retryCount1 retryCount2 name :
  0 <= index1 ->
  0 <= index2 ->
  screenshot user1 index1 retryCount1 name
    = screenshot user2 index2 retryCount2 name ->
  index1 = index2.
Proof.
  intros H1 H2 E; unfold screenshot in E.
  do 3 apply append_cancel_l in E.
  apply of_Z_inj.
  change ("-" ++ ?r)%string with (String "-" r) in E.
  eapply same_up_to_first; [ | | exact E]; apply of_Z_dashless; assumption.
Qed.

(** ** One notification per attempt *)

Section Notice_facts.

Context {W : Type} (env : Env W).

Lemma quiet_tally (A : Type) (m : M W A) (s : State W) :
  only no_notice m ->
  tally is_notice (trace (snd (m s))) = tally is_notice (trace s).
Proof.
  intros H; apply (extends_tally no_notice); [ | apply H].
  intros e; unfold no_notice; destruct (is_notice e); [discriminate | auto].
Qed.

Lemma notifies_bind (A B : Type) (m : M W A) (k : A -> M W B) :
  only no_notice m ->
  (forall a, notifies_on_return (k a)) ->
  notifies_on_return (bind m k).
Proof.
  intros Hm Hk s; unfold bind.
  pose proof (quiet_tally _ m s Hm) as Q.
  destruct (m s) as [[a | e] s0]; cbn [snd fst] in *.
  - rewrite (Hk a s0), Q; reflexivity.
  - rewrite Q; lia.
Qed.

Lemma notifies_notify (A : Type) n (x : A) :
  notifies_on_return (bind (notifyTelegram env n) (fun _ => ret x)).
Proof.
  intros s; unfold bind.
  destruct (notifyTelegram_spec env n s) as (s' & E & T & _).
  rewrite E; unfold ret; cbn [snd fst].
  rewrite T, tally_app; reflexivity.
Qed.

Lemma notifies_classify user spAfter :
  notifies_on_return (classify env user spAfter).
Proof.
  unfold classify.
  apply notifies_bind; [apply only_quiet; reflexivity | intros url].
  apply notifies_bind;
    [apply only_scan_success_of; intros l; reflexivity | intros hint].
  destruct (negb (stillOnLogin url) || Nat.ltb 0 hint)%bool.
  - apply notifies_notify.
  - apply notifies_bind;
      [apply only_scan_errors_of; intros l; reflexivity | intros m1].
    apply notifies_bind;
      [apply only_generic_error_of; [intros l | ]; reflexivity | intros m2].
    apply notifies_notify.
Qed.

Lemma notifies_attempt_try user password index retryCount :
  notifies_on_return (attempt_try env user password index retryCount).
Proof.
  unfold attempt_try.
  apply notifies_bind; [apply only_perform; reflexivity | intros _].
  apply notifies_bind; [apply only_perform; reflexivity | intros n].
  destruct (Nat.ltb 0 n).
  - unfold human_check_found.
    apply notifies_bind; [apply only_perform; reflexivity | intros _].
    apply notifies_notify.
  - unfold fill_and_submit.
    apply notifies_bind; [ | intros _].
    { apply only_smartWait; [ | reflexivity].
      unfold inputs_visible.
      apply only_bind; [apply only_perform; reflexivity | intros u].
      apply only_if; [apply only_perform; reflexivity | apply only_ret]. }
    do 8 (apply notifies_bind; [apply only_perform; reflexivity | intros _]).
    apply notifies_bind; [apply only_begin_call; reflexivity | intros _].
    apply notifies_bind; [apply only_perform; reflexivity | intros _].
    apply notifies_bind;
      [apply only_try_catch;
       [apply only_await_call | intros e; apply only_ret]
      | intros _].
    apply notifies_bind;
      [apply only_try_catch;
       [apply only_perform; reflexivity | intros e; apply only_ret]
      | intros _].
    do 2 (apply notifies_bind; [apply only_perform; reflexivity | intros _]).
    apply notifies_classify.
Qed.

Lemma notifies_attempt_catch user index retryCount e :
  notifies_on_return (attempt_catch env user index retryCount e).
Proof.
  unfold attempt_catch.
  apply notifies_bind; [ | intros _].
  { apply only_try_catch; [apply only_perform; reflexivity | ].
    intros _; apply only_ret. }
  apply notifies_bind; [apply only_quiet; reflexivity | intros captured].
  apply notifies_notify.
Qed.

(** X18.  An attempt notifies exactly once when its session could be
    opened, whichever way it ends: on the bot check, after the
    classification, or from the [catch] block when a step of the [try]
    block failed, and also when closing the session fails afterwards.
    When the session could not be opened it does not notify at all. *)
Theorem attempt_notifies_once
        user password index retryCount (s : State W) :
  tally is_notice
        (trace (snd (attemptLogin env user password index retryCount s)))
  = (tally is_notice (trace s)
     + match fst (open_session env s) with
       | Ok _ => 1
       | Throw _ => 0
       end)%nat.
Proof.
  unfold attemptLogin, bind.
  pose proof (quiet_tally _ (open_session env) s
                (only_open_session env no_notice eq_refl eq_refl eq_refl))
    as Q.
  destruct (open_session env s) as [[[] | e0] s0]; cbn [snd fst] in *;
    [ | rewrite Q; lia].
  rewrite <- Q.
  assert (G : tally is_notice
                (trace (snd (try_catch
                               (attempt_try env user password index retryCount)
                               (attempt_catch env user index retryCount) s0)))
              = (tally is_notice (trace s0) + 1)%nat).
  { unfold try_catch.
    pose proof (notifies_attempt_try user password index retryCount s0) as T.
    destruct (attempt_try env user password index retryCount s0)
      as [[r | e] s1]; cbn [snd fst] in *; [exact T | ].
    pose proof (notifies_attempt_catch user index retryCount e s1) as C.
    destruct (total_attempt_catch env user index retryCount e s1)
      as (r & s2 & E).
    rewrite E in *; cbn [snd fst] in *; lia. }
  rewrite <- G.
  unfold try_finally.
  destruct (try_catch (attempt_try env user password index retryCount)
                      (attempt_catch env user index retryCount) s0)
    as [r s1]; cbn [snd].
  pose proof (quiet_tally _ (attempt_finally env) s1
                (only_attempt_finally_entries env no_notice eq_refl eq_refl))
    as F.
  destruct (attempt_finally env s1) as [[[] | e] s2]; exact F.
Qed.

End Notice_facts.

(** ** An account that meets the bot check on every visit *)

Section Bot_check_facts.

Context {W : Type} (env : Env W).

Variables (user : string) (password : JSValue) (index : Z).

(** From a retry on, every visit that meets the bot check is one pause,
    one attempt and one failure, until the retries are used up. *)
Lemma retry_loop_bot_check :
  forall visits retryCount r (s : State W) fuel,
    1 <= retryCount ->
    retryCount + Z.of_nat visits = MAX_RETRIES + 1 ->
    (visits < fuel)%nat ->
    result_success r = false ->
    meets_bot_check env user password index visits retryCount s ->
    (exists r' s',
        retry_loop env fuel user password index retryCount r s
          = (Ok (MAX_RETRIES + 1, r'), s') /\
        (visits = 0%nat -> r' = r) /\
        ((0 < visits)%nat -> exists x, r' = Some x /\ gave_up user x) /\
        tally is_launch (trace s')
          = (tally is_launch (trace s) + visits)%nat /\
        tally is_retry_delay (trace s')
          = (tally is_retry_delay (trace s) + visits)%nat /\
        extends no_form_stage s s') \/
    (exists e s2 s',
        retry_loop env fuel user password index retryCount r s
          = (Throw e, s') /\
        attempt_finally env s2 = (Throw e, s')).
Proof.
  induction visits as [ | visits IH];
    intros retryCount r s fuel Hrc Hn Hf Hr Hm.
  - left; exists r, s.
    rewrite retry_loop_stop by (left; lia).
    replace retryCount with (MAX_RETRIES + 1) by lia.
    split; [reflexivity | split; [reflexivity | split; [lia | ] ] ].
    split; [lia | split; [lia | apply extends_refl] ].
  - destruct fuel as [ | fuel]; [lia | ].
    cbn [meets_bot_check] in Hm.
    assert (Hpos : (0 <? retryCount) = true) by (apply Z.ltb_lt; lia).
    rewrite Hpos in Hm.
    set (s1 := snd (sleep env 5000 s)) in *.
    destruct Hm as (Hbot & Hm).
    assert (T1 : trace s1 = (trace s ++ [Slept 5000])%list) by reflexivity.
    assert (X1 : extends no_form_stage s s1).
    { exists [Slept 5000]; split; [exact T1 | reflexivity]. }
    destruct (proj1 (bot_check_attempt_and_first_retry
                       env user password index s1 Hbot) retryCount)
      as (r1 & s2 & E & X2 & x & Gx & Hx).
    pose proof (attemptLogin_log env user password index retryCount s1)
      as (L2 & A2).
    apply attempt_entry_tallies in A2 as (D2 & _).
    rewrite E in Hm, L2, D2; cbn [snd] in Hm, L2, D2.
    assert (Estep :
              retry_loop env (S fuel) user password index retryCount r s
              = match r1 with
                | Ok x' => retry_loop env fuel user password index
                                      (retryCount + 1) (Some x') s2
                | Throw e => (Throw e, s2)
                end).
    { rewrite retry_loop_step by (assumption || lia).
      rewrite Hpos; unfold bind.
      change (sleep env 5000 s) with (Ok tt, s1).
      cbv beta iota; rewrite E; destruct r1; reflexivity. }
    rewrite Estep; clear Estep.
    destruct Hx as [-> | (e & s3 & Ef & ->)].
    + destruct (IH (retryCount + 1) (Some x) s2 fuel) as
          [(r' & s' & El & _ & Some' & L & D & X) | (e & s3 & s' & El & Ef)];
        try lia; try assumption.
      * exact (proj1 Gx).
      * left; exists r', s'; split; [exact El | ].
        split; [discriminate | ].
        split.
        { intros _; destruct visits as [ | visits].
          - exists x; split; [ | exact Gx].
            rewrite retry_loop_stop in El by (left; lia).
            inversion El; reflexivity.
          - apply Some'; lia. }
        rewrite L, D, L2, D2, T1, !tally_app.
        change (tally is_launch [Slept 5000]) with 0%nat.
        change (tally is_retry_delay [Slept 5000]) with 1%nat.
        split; [lia | split; [lia | ] ].
        exact (extends_trans _ _ _ _ X1 (extends_trans _ _ _ _ X2 X)).
      * right; exists e, s3, s'; split; [exact El | exact Ef].
    + right; exists e, s3, s2; split; [reflexivity | exact Ef].
Qed.

(** C1 (amended).  An attempt that detects the bot-check page gives up
    before the form stage: its log holds no step of the form stage and
    it returns a failure, the bot-check one or the one of the [catch]
    block, unless closing the session fails, which throws.  The retry
    loop does not tell this failure from any other.  An account that
    meets the bot check on every visit is attempted [MAX_RETRIES + 1]
    times, with the fixed pause in front of each retry, never touches
    the form, and is reported as failed with [MAX_RETRIES] retries;
    the one other end is the error of a session that could not be
    closed. *)
Theorem bot_check_attempt_gives_up_and_is_retried (s0 : State W) :
  (attempt_detects_bot_check env s0 ->
   forall retryCount, exists r s',
     attemptLogin env user password index retryCount s0 = (r, s') /\
     extends no_form_stage s0 s' /\
     exists x, gave_up user x /\
               (r = Ok x \/
                exists e s2, attempt_finally env s2 = (Throw e, s') /\
                             r = Throw e)) /\
  (meets_bot_check env user password index
                   (Z.to_nat MAX_RETRIES + 1) 0 s0 ->
   (exists o s',
       loginWithAccount env user password index s0 = (Ok o, s') /\
       attempts (trace s')
         = (attempts (trace s0) + (Z.to_nat MAX_RETRIES + 1))%nat /\
       tally is_retry_delay (trace s')
         = (tally is_retry_delay (trace s0) + Z.to_nat MAX_RETRIES)%nat /\
       retries o = MAX_RETRIES /\
       outcome_success o = false /\
       (exists x, result o = Some x /\ gave_up user x) /\
       extends no_form_stage s0 s') \/
   (exists e s2 s',
       loginWithAccount env user password index s0 = (Throw e, s') /\
       attempt_finally env s2 = (Throw e, s'))).
Proof.
  split.
  - intros H.
    exact (proj1 (bot_check_attempt_and_first_retry
                    env user password index s0 H)).
  - change (Z.to_nat MAX_RETRIES + 1)%nat with 3%nat.
    change (Z.to_nat MAX_RETRIES) with 2%nat.
    change (meets_bot_check env user password index 3 0 s0)
      with (attempt_detects_bot_check env s0 /\
            meets_bot_check env user password index 2 1
              (snd (attemptLogin env user password index 0 s0))).
    intros (Hbot & Hm).
    destruct (proj1 (bot_check_attempt_and_first_retry
                       env user password index s0 Hbot) 0)
      as (r1 & s1 & E & X1 & x & Gx & Hx).
    pose proof (attemptLogin_log env user password index 0 s0) as (L1 & A1).
    apply attempt_entry_tallies in A1 as (D1 & _).
    rewrite E in Hm, L1, D1; cbn [snd] in Hm, L1, D1.
    assert (Erun :
              loginWithAccount env user password index s0
              = match r1 with
                | Ok x' =>
                    (st <- retry_loop env 3 user password index 1 (Some x') ;;
                     ret (mkOutcome (snd st) (fst st - 1))) s1
                | Throw e => (Throw e, s1)
                end).
    { unfold loginWithAccount, retry_fuel.
      change (Z.to_nat MAX_RETRIES + 2)%nat with 4%nat.
      unfold bind at 1; rewrite retry_loop_first; unfold bind at 1.
      rewrite E; destruct r1; reflexivity. }
    rewrite Erun; clear Erun.
    destruct Hx as [-> | (e & s3 & Ef & ->)];
      [ | right; exists e, s3, s1; split; [reflexivity | exact Ef] ].
    unfold bind.
    destruct (retry_loop_bot_check 2 1 (Some x) s1 3) as
        [(r' & s' & El & _ & Some' & L & D & X) | (e & s3 & s' & El & Ef)];
      try (unfold MAX_RETRIES; lia); try assumption.
    + exact (proj1 Gx).
    + left; rewrite El; unfold ret; cbn [fst snd].
      destruct (Some' ltac:(lia)) as (y & -> & Gy).
      eexists _, s'; split; [reflexivity | ].
      unfold attempts; fold (tally is_launch (trace s'));
        fold (tally is_launch (trace s0)).
      cbn [retries result outcome_success].
      split; [lia | split; [lia | ] ].
      split; [unfold MAX_RETRIES; lia | ].
      split; [exact (proj1 Gy) | ].
      split; [exists y; split; [reflexivity | exact Gy] | ].
      exact (extends_trans _ _ _ _ X1 X).
    + right; exists e, s3, s'; rewrite El; split; [reflexivity | exact Ef].
Qed.

End Bot_check_facts.

(** ** Further runs in the simulated environment *)

Section More_runs.

Import Examples.

(** A login that works: the session is opened, used and closed once. *)
Lemma normal_session_is_closed_once :
  exists steps closing r s',
    attemptLogin calm account secret 0 0 normal_start = (r, s') /\
    trace s' =
    (trace normal_start
       ++ [Called chromium_launch; Called browser_newContext;
           Called context_newPage]
       ++ steps ++ Called context_close :: closing)%list /\
    forallb is_page_step steps = true /\
    (closing = [Called browser_close] \/
     closing = [] /\ exists e, r = Throw e).
Proof.
  refine (opened_session_is_closed_once calm account secret 0 0
            normal_start (snd (open_session calm normal_start)) _).
  vm_compute; reflexivity.
Defined.

(** Without a browser the attempt ends where the launch failed. *)
Lemma no_browser_attempt_closes_nothing :
  exists e s,
    attemptLogin (Sim.env no_browser) account secret 0 0 normal_start
      = (Throw e, s) /\
    (trace s = (trace normal_start ++ [Called chromium_launch])%list \/
     trace s = (trace normal_start ++ [Called chromium_launch;
                                       Called browser_newContext])%list \/
     trace s = (trace normal_start ++ [Called chromium_launch;
                                       Called browser_newContext;
                                       Called context_newPage])%list) /\
    tally is_browser_close (trace s)
      = tally is_browser_close (trace normal_start).
Proof.
  exists (new_Error "browserType.launch: no executable"),
         (snd (open_session (Sim.env no_browser) normal_start)).
  apply (failed_open_closes_nothing (Sim.env no_browser) account secret 0 0
           normal_start).
  vm_compute; reflexivity.
Defined.

(** Two accounts: one pause between them and one summary at the end. *)
Lemma two_account_run_pauses_once :
  exists rs s1 s',
    run_batch calm two_accounts_start = (Ok rs, s1) /\
    List.length rs = 2%nat /\
    main calm two_accounts_start = (Ok tt, s') /\
    trace s' = (trace s1 ++ [Called (telegram_summary rs)])%list /\
    tally is_account_delay (trace s') = 1%nat /\
    exists first second,
      trace s1 = (first ++ SleptRandom 5000 10000 :: second)%list /\
      account_block first /\ account_block second.
Proof.
  set (rs := [mkOutcome (Some (mkResult true "a@b.c" "登录成功")) 0;
              mkOutcome (Some (mkResult true "d@e.f" "登录成功")) 0]).
  set (s1 := snd (run_batch calm two_accounts_start)).
  assert (E : run_batch calm two_accounts_start = (Ok rs, s1))
    by (vm_compute; reflexivity).
  destruct (proj1 (pauses_between_accounts_and_one_summary
                     calm two_accounts_start) rs s1 E)
    as (s' & M & T & _ & D & blocks & BL & BT & BF).
  exists rs, s1, s'.
  split; [exact E | split; [reflexivity | split; [exact M | ] ] ].
  split; [exact T | split; [exact D | ] ].
  destruct blocks as [ | first [ | second [ | third blocks]]];
    [discriminate BL | discriminate BL | | discriminate BL].
  change (trace two_accounts_start) with (@nil entry) in BT.
  cbn [between app] in BT.
  exists first, second; split; [exact BT | ].
  inversion BF as [ | ? ? B1 BF']; inversion BF' as [ | ? ? B2 _].
  split; assumption.
Defined.

(** The variable is not set. *)
Lemma unset_config_is_named_as_the_cause :
  init_failure_reported calm unset_start
    "环境变量 USERNAME_AND_PASSWORD 未设置".
Proof.
  apply (proj1 (initialization_failure_names_its_cause calm unset_start)).
  left; reflexivity.
Defined.

(** Nothing on the page says what went wrong, but its title does. *)
Lemma server_error_page_falls_back_on_the_title :
  exists s',
    classify calm account "shot.png" (showing server_error)
    = (Ok (mkResult false account "页面显示错误状态"), s').
Proof.
  apply (failure_without_error_text_falls_back calm account "shot.png"
           (showing server_error) (matched (world (showing server_error)))
           "Error 502" (Ok "Sign in")).
  - apply sim_counts.
  - reflexivity.
  - reflexivity.
  - reflexivity.
  - intros x H; unfold errorSelectors in H; simpl in H.
    repeat (destruct H as [<- | H]; [reflexivity | ]); destruct H.
Defined.

(** The complaint of one character is what the result says. *)
Lemma terse_page_fails_with_its_character :
  exists s',
    classify calm account "shot.png" (showing terse)
    = (Ok (mkResult false account "!"), s').
Proof.
  apply (single_character_error_text_is_kept calm account "shot.png"
           (showing terse) (matched (world (showing terse)))
           (first_text (world (showing terse)))
           [ text_re ["Invalid"; "incorrect"; "错误"; "失败"; "无效"; "不正确"];
             text_re ["Error"; "异常"; "问题"];
             css_class "error-message";
             css_class "alert-error";
             css_class "text-danger";
             css_class_has "error" ]
           (css_class_has "alert")
           [ css_class_has "danger" ]).
  - apply sim_counts.
  - apply sim_first_texts.
  - reflexivity.
  - reflexivity.
  - intros y H; simpl in H.
    repeat (destruct H as [<- | H]; [reflexivity | ]); destruct H.
  - intros y H; simpl in H.
    repeat (destruct H as [<- | H]; [reflexivity | ]); destruct H.
  - vm_compute; lia.
  - reflexivity.
  - reflexivity.
  - vm_compute; lia.
Defined.

(** With the form on display the wait returns what the condition
    returned; with no time to wait it returns false at once. *)
Lemma wait_for_the_form_ends_in_the_condition :
  (exists s0 s',
      smartWait calm (inputs_visible calm) 30000 1000 (showing login_form)
        = (Ok true, s') /\
      inputs_visible calm s0 = (Ok true, s')) /\
  smartWait calm (inputs_visible calm) 0 1000 (showing login_form)
    = (Ok false, showing login_form).
Proof.
  split.
  - set (s' := snd (smartWait calm (inputs_visible calm) 30000 1000
                              (showing login_form))).
    assert (E : smartWait calm (inputs_visible calm) 30000 1000
                          (showing login_form) = (Ok true, s'))
      by (vm_compute; reflexivity).
    destruct (proj1 (smartWait_answers_true_only_after_the_condition
                       calm (inputs_visible calm) 30000 1000
                       (showing login_form)) s' E) as [s0 C].
    exists s0, s'; split; assumption.
  - apply (proj2 (smartWait_answers_true_only_after_the_condition
                    calm (inputs_visible calm) 0 1000 (showing login_form))).
    lia.
Defined.

(** No form and no timer: the wait throws the error of the timer. *)
Lemma frozen_timer_is_what_the_wait_throws :
  exists w w',
    run (Sim.env frozen_timer) (page_waitForTimeout 1000) w
    = (Throw (new_Error "page.waitForTimeout: target closed"), w').
Proof.
  apply (smartWait_throws_only_what_the_timer_throws
           (Sim.env frozen_timer) (inputs_visible (Sim.env frozen_timer))
           30000 1000 (showing challenge)
           (snd (smartWait (Sim.env frozen_timer)
                           (inputs_visible (Sim.env frozen_timer))
                           30000 1000 (showing challenge)))).
  vm_compute; reflexivity.
Defined.

(** With no form to find, the fuel of the wait is enough, and so is any
    larger amount. *)
Lemma wait_without_form_ends_by_its_deadline :
  smartWait_loop calm (smartWait_fuel 30000 1000 + 7)
                 (inputs_visible calm)
                 (Date_now calm (world (showing challenge)))
                 30000 1000 (showing challenge)
  = smartWait calm (inputs_visible calm) 30000 1000 (showing challenge).
Proof.
  apply (smartWait_ends_by_its_deadline calm (inputs_visible calm)
           30000 1000 (smartWait_fuel 30000 1000 + 7) (showing challenge)).
  - exact calm_timer_waits.
  - exact (keeps_time_inputs_visible calm calm_clock_monotone).
  - lia.
  - lia.
Defined.

(** The first try and the first retry of one account. *)
Lemma first_try_and_first_retry_have_two_paths :
  0 <= 0 /\ 0 <= 1 /\ (0 : Z) <> 1 /\
  screenshot account 0 0 "99-error" <> screenshot account 0 1 "99-error".
Proof.
  split; [lia | split; [lia | split; [lia | ] ] ].
  apply (each_retry_has_its_own_capture_path account 0 "99-error" 0 1);
    lia.
Defined.

(** Two usernames that are written to the same file name, at the same
    position. *)
Lemma like_usernames_share_a_path_at_one_position :
  screenshot "a@b" 3 0 "99-error" = screenshot "a.b" 3 0 "99-error" /\
  (3 : Z) = 3.
Proof.
  split; [reflexivity | ].
  apply (each_account_has_its_own_capture_paths
           "a@b" "a.b" 3 3 0 0 "99-error"); [lia | lia | reflexivity].
Defined.

(** No credentials: nothing is sent. *)
Lemma silent_desk_sends_nothing :
  Telegram.notifyTelegram_body Telegram.desk_host Telegram.error_notice
    (Telegram.start Telegram.silent_desk)
    = (Ok tt, Telegram.start Telegram.silent_desk) /\
  Telegram.sendSummaryNotification_body Telegram.desk_host
    Telegram.one_success (Telegram.start Telegram.silent_desk)
    = (Ok tt, Telegram.start Telegram.silent_desk).
Proof.
  apply (notifiers_without_credentials_send_nothing Telegram.desk_host).
  left; reflexivity.
Defined.

(** Credentials and a capture on disk: the message, then the photo. *)
Lemma staffed_desk_sends_message_and_photo :
  exists s',
    Telegram.notifyTelegram_body Telegram.desk_host Telegram.error_notice
      (Telegram.start Telegram.staffed_desk) = (Ok tt, s') /\
    Telegram.sent (world s')
    = [ Telegram.message_request Telegram.desk_host Telegram.error_notice
          Telegram.staffed_desk;
        Telegram.photo_request Telegram.desk_host Telegram.error_notice
          Telegram.staffed_desk "PNG" ].
Proof.
  destruct (notification_is_a_message_then_at_most_a_photo
              Telegram.desk_host Telegram.error_notice
              (Telegram.start Telegram.staffed_desk)
              (conj eq_refl eq_refl)) as (s' & E & _).
  exists s'; split; [exact E | ].
  replace s' with
    (snd (Telegram.notifyTelegram_body Telegram.desk_host
            Telegram.error_notice (Telegram.start Telegram.staffed_desk)))
    by (rewrite E; reflexivity).
  vm_compute; reflexivity.
Defined.

(** Credentials: the summary is one message. *)
Lemma staffed_desk_sends_one_summary :
  exists s',
    Telegram.sendSummaryNotification_body Telegram.desk_host
      Telegram.one_success (Telegram.start Telegram.staffed_desk)
      = (Ok tt, s') /\
    trace s' = trace (Telegram.start Telegram.staffed_desk) /\
    exitCode s' = exitCode (Telegram.start Telegram.staffed_desk) /\
    Telegram.sent (world s')
      = (Telegram.sent (world (Telegram.start Telegram.staffed_desk))
           ++ [Telegram.summary_request Telegram.desk_host
                 Telegram.one_success
                 (Telegram.outside
                    (world (Telegram.start Telegram.staffed_desk)))])%list.
Proof.
  apply (summary_is_one_message Telegram.desk_host Telegram.one_success
           (Telegram.start Telegram.staffed_desk)).
  split; reflexivity.
Defined.

(** A login that works: no failure in the summary, exit code 0. *)
Lemma normal_run_reports_no_failure_and_exits_with_0 :
  exists rs s',
    fst (run_batch calm normal_start) = Ok rs /\
    Telegram.failureCount rs = 0 /\
    main calm normal_start = (Ok tt, s') /\
    exitCode s' = Some 0.
Proof.
  set (rs := [mkOutcome (Some (mkResult true "a@b.c" "登录成功")) 0]).
  set (s1 := snd (run_batch calm normal_start)).
  assert (E : run_batch calm normal_start = (Ok rs, s1))
    by (vm_compute; reflexivity).
  destruct (summary_numbers_agree_with_the_exit_code
              calm normal_start s1 rs E) as (_ & _ & _ & s' & M & X).
  exists rs, s'.
  split; [rewrite E; reflexivity | ].
  split; [reflexivity | split; [exact M | exact X] ].
Defined.

(** The bot check on every visit: three attempts, two pauses, two
    retries reported, and the form never touched. *)
Lemma bot_check_run_gives_up :
  meets_bot_check calm account secret 0 3 0 challenged_start /\
  exists o s',
    loginWithAccount calm account secret 0 challenged_start = (Ok o, s') /\
    attempts (trace s') = 3%nat /\
    tally is_retry_delay (trace s') = 2%nat /\
    retries o = 2 /\
    outcome_success o = false /\
    extends no_form_stage challenged_start s'.
Proof.
  assert (B : forall s,
             Sim.login_page (world s) = challenge ->
             attempt_detects_bot_check calm s).
  { intros s H.
    eexists; split; [reflexivity | ].
    eexists _, 1%nat, _; split; [reflexivity | ].
    split; [ | lia].
    unfold perform; cbn [world run calm Sim.env Sim.run Sim.reliable
                           Sim.answer Sim.show Sim.current Sim.login_page].
    rewrite H; reflexivity. }
  assert (H : meets_bot_check calm account secret 0 3 0 challenged_start).
  { cbn [meets_bot_check]; change (0 <? 0) with false;
      change (0 <? 0 + 1) with true; change (0 <? 0 + 1 + 1) with true;
      cbv iota.
    split; [apply B; reflexivity | ].
    split; [apply B; vm_compute; reflexivity | ].
    split; [apply B; vm_compute; reflexivity | exact I]. }
  split; [exact H | ].
  destruct (proj2 (bot_check_attempt_gives_up_and_is_retried
                     calm account secret 0 challenged_start) H)
    as [(o & s' & E & A & D & R & S & _ & X)
       | (e & s2 & s' & E & _)].
  - exists o, s'; split; [exact E | ].
    split; [exact A | split; [exact D | ] ].
    split; [exact R | split; [exact S | exact X] ].
  - exfalso.
    assert (F : match fst (loginWithAccount calm account secret 0
                             challenged_start) with
                | Ok _ => True
                | Throw _ => False
                end) by (vm_compute; exact I).
    rewrite E in F; exact F.
Defined.

End More_runs.
